(** * Verification of the synthetic sales generator
    (sales/ml_data_generator.py, class SalesDataGenerator)

    The generator is embedded shallowly: Python floats are IEEE 754
    binary64 values ([spec_float] with precision 53), Decimal amounts with
    two places are integer counts of hundredths, datetimes are microsecond
    counts on the proleptic Gregorian calendar, the random module is an
    explicit argument (the draws), the database is an explicit store and
    its failures are an explicit oracle. *)

From Stdlib Require Import ZArith Lia Bool List String Ascii.
From Stdlib Require Import Floats.SpecFloat.
From stdpp Require Import base option list.

Open Scope Z_scope.

(** ** Python floats: IEEE 754 binary64 *)

Module Float.

Definition prec : Z := 53.
Definition emax : Z := 1024.

Abbreviation float := spec_float.

Definition add : float -> float -> float := SFadd prec emax.
Definition sub : float -> float -> float := SFsub prec emax.
Definition mul : float -> float -> float := SFmul prec emax.
Definition ltb : float -> float -> bool := SFltb.
Definition leb : float -> float -> bool := SFleb.
Definition eqb : float -> float -> bool := SFeqb.
Definition valid : float -> bool := valid_binary prec emax.

(** [float(n)] for a Python int. *)
Definition of_Z (n : Z) : float := binary_normalize prec emax n 0 false.

(** The correctly rounded quotient of two integers. A decimal literal
    such as [0.7] denotes the double nearest to 7/10, which is this
    quotient; [int / int] is the same operation. *)
Definition of_frac (n d : Z) : float :=
  let mk z := match z with
              | Z0 => S754_zero false
              | Zpos p => S754_finite false p 0
              | Zneg p => S754_finite true p 0
              end in
  SFdiv prec emax (mk n) (mk d).

Definition is_finite (x : float) : bool :=
  match x with
  | S754_zero _ | S754_finite _ _ _ => true
  | _ => false
  end.

(** [int(x)]: truncation toward zero; infinities and NaN raise. *)
Definition to_int (x : float) : option Z :=
  match x with
  | S754_zero _ => Some 0
  | S754_finite s m e =>
      let a := match e with
               | Zneg p => Z.shiftr (Zpos m) (Zpos p)
               | _ => Z.shiftl (Zpos m) e
               end in
      Some (if s then - a else a)
  | _ => None
  end.

(** Round the exact value [m * 2^e] scaled by [k] to the nearest integer,
    ties to even: [round(x)] is [round_scaled 1 x] and the hundredths of
    [round(x, 2)] are [round_scaled 100 x]. *)
Definition round_half_even (num den : Z) : Z :=
  let q := num / den in
  let r := num mod den in
  match Z.compare (2 * r) den with
  | Lt => q
  | Gt => q + 1
  | Eq => if Z.even q then q else q + 1
  end.

Definition round_scaled (k : Z) (x : float) : option Z :=
  match x with
  | S754_zero _ => Some 0
  | S754_finite s m e =>
      let a := match e with
               | Zneg p => round_half_even (k * Zpos m) (Z.shiftl 1 (Zpos p))
               | _ => k * Z.shiftl (Zpos m) e
               end in
      Some (if s then - a else a)
  | _ => None
  end.

Definition div : float -> float -> float := SFdiv prec emax.

Definition fmin (a b : float) : float := if ltb b a then b else a.
Definition fmax (a b : float) : float := if ltb a b then b else a.

(** A decimal literal with [places] digits after the point:
    [dec 15 1] is the literal [1.5]. *)
Definition dec (digits : Z) (places : nat) : float :=
  of_frac digits (10 ^ Z.of_nat places).

End Float.

Abbreviation float := spec_float.

(** ** Exceptions *)

Inductive exn : Type :=
| ZeroDivisionError
| OverflowError
| ValueError
| IndexError
| DatabaseError.

Inductive result (A : Type) : Type :=
| Ok (a : A)
| Raise (e : exn).
Arguments Ok {A} a.
Arguments Raise {A} e.

#[global] Instance result_ret : MRet result := fun _ a => Ok a.

#[global] Instance result_bind : MBind result := fun _ _ k r =>
  match r with
  | Ok a => k a
  | Raise e => Raise e
  end.

Definition of_option {A : Type} (e : exn) (o : option A) : result A :=
  match o with
  | Some a => Ok a
  | None => Raise e
  end.

(** [int(x)] on a float: [OverflowError] on an infinity, [ValueError] on
    NaN. *)
Definition int_of_float (x : float) : result Z :=
  match x with
  | S754_nan => Raise ValueError
  | _ => of_option OverflowError (Float.to_int x)
  end.

(** [random.randint(a, b)] over the random bits [n]: every value of
    [a..b] is reached. *)
Definition randint (a b : Z) (n : N) : Z := a + Z.of_N n mod (b - a + 1).

(** [random.choice(seq)]: [IndexError] on an empty sequence. *)
Definition choice {A : Type} (seq : list A) (n : N) : result A :=
  of_option IndexError (seq !! (N.to_nat n mod length seq)%nat).

(** ** datetime and timedelta

    A datetime is its number of microseconds since 0001-01-01T00:00:00 on
    the proleptic Gregorian calendar, a timedelta a number of
    microseconds. The calendar functions are those of CPython's
    datetime module. *)

Module Datetime.

Abbreviation datetime := Z (only parsing).
Abbreviation timedelta := Z (only parsing).

Definition US_PER_DAY : Z := 86400 * 1000000.

Definition timedelta_of (days hours minutes : Z) : timedelta :=
  days * US_PER_DAY + hours * 3600000000 + minutes * 60000000.

(** [td.days] *)
Definition days (td : timedelta) : Z := td / US_PER_DAY.

(** [d.toordinal()]: 0001-01-01 is day 1. *)
Definition toordinal (d : datetime) : Z := d / US_PER_DAY + 1.

Definition _is_leap (year : Z) : bool :=
  (year mod 4 =? 0) && (negb (year mod 100 =? 0) || (year mod 400 =? 0)).

Definition _days_before_year (year : Z) : Z :=
  let y := year - 1 in
  y * 365 + y / 4 - y / 100 + y / 400.

Definition _DAYS_IN_MONTH : list Z :=
  [-1; 31; 28; 31; 30; 31; 30; 31; 31; 30; 31; 30; 31].

Definition _DAYS_BEFORE_MONTH : list Z :=
  [-1; 0; 31; 59; 90; 120; 151; 181; 212; 243; 273; 304; 334].

Definition tbl (t : list Z) (i : Z) : Z := nth (Z.to_nat i) t 0.

Definition _days_before_month (year month : Z) : Z :=
  tbl _DAYS_BEFORE_MONTH month
  + (if (2 <? month) && _is_leap year then 1 else 0).

Definition _ymd2ord (year month day : Z) : Z :=
  _days_before_year year + _days_before_month year month + day.

Definition _DI400Y : Z := 146097.
Definition _DI100Y : Z := 36524.
Definition _DI4Y : Z := 1461.

Definition _ord2ymd (n0 : Z) : Z * Z * Z :=
  let n := n0 - 1 in
  let n400 := n / _DI400Y in
  let n := n mod _DI400Y in
  let year := n400 * 400 + 1 in
  let n100 := n / _DI100Y in
  let n := n mod _DI100Y in
  let n4 := n / _DI4Y in
  let n := n mod _DI4Y in
  let n1 := n / 365 in
  let n := n mod 365 in
  let year := year + n100 * 100 + n4 * 4 + n1 in
  if (n1 =? 4) || (n100 =? 4) then (year - 1, 12, 31)
  else
    let leapyear := (n1 =? 3) && (negb (n4 =? 24) || (n100 =? 3)) in
    let month := Z.shiftr (n + 50) 5 in
    let preceding :=
      tbl _DAYS_BEFORE_MONTH month
      + (if (2 <? month) && leapyear then 1 else 0) in
    if n <? preceding then
      let month := month - 1 in
      let preceding :=
        preceding - (tbl _DAYS_IN_MONTH month
                     + (if (month =? 2) && leapyear then 1 else 0)) in
      (year, month, n - preceding + 1)
    else (year, month, n - preceding + 1).

Definition year (d : datetime) : Z := fst (fst (_ord2ymd (toordinal d))).
Definition month (d : datetime) : Z := snd (fst (_ord2ymd (toordinal d))).
Definition day (d : datetime) : Z := snd (_ord2ymd (toordinal d)).

(** [d.weekday()]: Monday is 0 and Sunday is 6. *)
Definition weekday (d : datetime) : Z := (toordinal d + 6) mod 7.

(** [datetime(year, month, day, hour, minute)] *)
Definition make (y m d hh mm : Z) : datetime :=
  (_ymd2ord y m d - 1) * US_PER_DAY + timedelta_of 0 hh mm.

Definition digit (n : Z) : ascii :=
  ascii_of_nat (48 + Z.to_nat (n mod 10)).

Fixpoint digits_from (fuel : nat) (n : Z) (acc : string) : string :=
  match fuel with
  | O => acc
  | S fuel' =>
      let acc' := String (digit n) acc in
      if n <? 10 then acc' else digits_from fuel' (n / 10) acc'
  end.

Definition pad2 (n : Z) : string :=
  String (digit (n / 10)) (String (digit n) EmptyString).

(** [d.strftime('%Y-%m-%d')]: the year is printed with the digits it
    has, the month and the day with two digits. *)
Definition strftime_Ymd (d : datetime) : string :=
  (digits_from 20 (year d) EmptyString ++ "-" ++ pad2 (month d) ++ "-"
     ++ pad2 (day d))%string.

End Datetime.

(** ** SalesDataGenerator: the simulation window and the demand curve *)

Record SalesDataGenerator : Type := {
  start_date : Z;
  end_date : Z
}.

(** [__init__]: the two readings of [timezone.now()] are [now1] and
    [now2]. *)
Definition __init__ (now1 now2 : Z) : SalesDataGenerator :=
  {| start_date := now1 - Datetime.timedelta_of 730 0 0;
     end_date := now2 |}.

(** [x in [a, b]] on integers *)
Definition in_list (x : Z) (l : list Z) : bool := existsb (Z.eqb x) l.

Definition _get_seasonal_multiplier (date : Z) : float :=
  let month := Datetime.month date in
  if month =? 12 then Float.dec 15 1
  else if in_list month [1; 2] then Float.dec 7 1
  else if in_list month [7; 8] then Float.dec 13 1
  else if in_list month [6; 11] then Float.dec 12 1
  else Float.dec 10 1.

Definition _get_trend_multiplier (self : SalesDataGenerator) (date : Z)
  : result float :=
  let days_from_start := Datetime.days (date - start_date self) in
  let total_days := Datetime.days (end_date self - start_date self) in
  progress ← (if total_days =? 0 then Raise ZeroDivisionError
              else Ok (Float.of_frac days_from_start total_days));
  Ok (Float.add (Float.dec 10 1) (Float.mul progress (Float.dec 5 1))).

Definition _get_weekday_multiplier (date : Z) : float :=
  let weekday := Datetime.weekday date in
  if in_list weekday [5; 6] then Float.dec 13 1
  else if weekday =? 4 then Float.dec 11 1
  else Float.dec 10 1.

(** The draws of one call of [_generate_daily_sales_count]: the random
    bits of [random.randint(5, 15)] and the value returned by
    [random.uniform(0.8, 1.2)]. *)
Record DailyDraws : Type := {
  base_bits : N;
  random_factor : float
}.

Definition _generate_daily_sales_count (self : SalesDataGenerator) (date : Z)
    (dr : DailyDraws) : result Z :=
  let base_sales := randint 5 15 (base_bits dr) in
  let seasonal := _get_seasonal_multiplier date in
  trend ← _get_trend_multiplier self date;
  let weekday := _get_weekday_multiplier date in
  let product :=
    Float.mul (Float.mul (Float.mul (Float.mul (Float.of_Z base_sales)
                                       seasonal) trend) weekday)
      (random_factor dr) in
  sales_count ← int_of_float product;
  Ok (Z.max 1 sales_count).

(** ** random.choices with weights (CPython 3.9 and later) *)

Module Choices.

(** [itertools.accumulate(weights)] *)
Fixpoint accumulate_from (acc : float) (ws : list float) : list float :=
  match ws with
  | [] => []
  | w :: ws' => let acc' := Float.add acc w in acc' :: accumulate_from acc' ws'
  end.

Definition accumulate (ws : list float) : list float :=
  match ws with
  | [] => []
  | w :: ws' => w :: accumulate_from w ws'
  end.

(** [bisect.bisect_right(a, x, lo, hi)]; the interval halves at each
    step, so [hi - lo] steps are enough. *)
Fixpoint bisect_loop (fuel : nat) (a : list float) (x : float)
    (lo hi : nat) : nat :=
  match fuel with
  | O => lo
  | S fuel' =>
      if (lo <? hi)%nat then
        let mid := ((lo + hi) / 2)%nat in
        if Float.ltb x (nth mid a S754_nan)
        then bisect_loop fuel' a x lo mid
        else bisect_loop fuel' a x (mid + 1)%nat hi
      else lo
  end.

Definition bisect (a : list float) (x : float) (lo hi : nat) : nat :=
  bisect_loop (hi - lo) a x lo hi.

(** [random.choices(population, weights=weights, k=k)]; [u i] is the
    value of the [i]-th call of [random.random()]. The result lists the
    positions chosen in the population. *)
Definition choices (n : nat) (weights : list float) (k : nat)
    (u : nat -> float) : result (list nat) :=
  let cum_weights := accumulate weights in
  if negb (length cum_weights =? n)%nat then Raise ValueError
  else
    last_cum ← of_option IndexError (last cum_weights);
    let total := Float.add last_cum (S754_zero false) in
    if Float.leb total (S754_zero false) then Raise ValueError
    else if negb (Float.is_finite total) then Raise ValueError
    else
      let hi := (n - 1)%nat in
      Ok (map (fun i => bisect cum_weights (Float.mul (u i) total) 0 hi)
              (seq 0 k)).

(** [random.choices(population, weights=weights)[0]] *)
Definition choices1 {A : Type} (population : list A) (weights : list float)
    (u : float) : result A :=
  sel ← choices (length population) weights 1 (fun _ => u);
  pos ← of_option IndexError (head sel);
  of_option IndexError (population !! pos).

End Choices.

(** ** The catalog *)

(** Modelled from the spec: products/models.py is not part of the sources
    at hand. The spec gives a catalog item an identity, a unit price (exact
    decimal), a category, a stock quantity, an optional rating and an
    optional energy estimate; the generator reads and writes the fields
    below, and the migration 0005_add_metrics gives [rating] two decimal
    places and makes both metrics nullable. Decimal amounts with two
    places (prices, totals, ratings) are integer counts of hundredths. The
    attribute [_popularity], attached to the object by the generator, is
    not a column of the table. *)

Abbreviation Decimal := Z (only parsing).

Record Category : Type := { category_name : string }.

Record Product : Type := {
  pk : Z;
  name : string;
  price : Decimal;
  category : option Category;
  stock : Z;
  description : string;
  brand : option Z;
  warranty : option Z;
  image : string;
  rating : option Decimal;
  energy_kwh_per_year : option float;
  _popularity : option float
}.

Definition set_rating (r : Decimal) (p : Product) : Product :=
  {| pk := pk p; name := name p; price := price p; category := category p;
     stock := stock p; description := description p; brand := brand p;
     warranty := warranty p; image := image p;
     rating := Some r;
     energy_kwh_per_year := energy_kwh_per_year p;
     _popularity := _popularity p |}.

Definition set_energy (e : float) (p : Product) : Product :=
  {| pk := pk p; name := name p; price := price p; category := category p;
     stock := stock p; description := description p; brand := brand p;
     warranty := warranty p; image := image p;
     rating := rating p;
     energy_kwh_per_year := Some e;
     _popularity := _popularity p |}.

Definition set_stock (s : Z) (p : Product) : Product :=
  {| pk := pk p; name := name p; price := price p; category := category p;
     stock := s; description := description p; brand := brand p;
     warranty := warranty p; image := image p;
     rating := rating p;
     energy_kwh_per_year := energy_kwh_per_year p;
     _popularity := _popularity p |}.

(** The row written by [product.save()]: the columns of the object. *)
Definition row_of (p : Product) : Product :=
  {| pk := pk p; name := name p; price := price p; category := category p;
     stock := stock p; description := description p; brand := brand p;
     warranty := warranty p; image := image p;
     rating := rating p;
     energy_kwh_per_year := energy_kwh_per_year p;
     _popularity := None |}.

(** ** Strings: [str.lower()] on ASCII letters and [needle in s] *)

Definition lower_ascii (c : ascii) : ascii :=
  let n := nat_of_ascii c in
  if ((65 <=? n) && (n <=? 90))%nat then ascii_of_nat (n + 32) else c.

Fixpoint lower (s : string) : string :=
  match s with
  | EmptyString => EmptyString
  | String c s' => String (lower_ascii c) (lower s')
  end.

Fixpoint contains (needle s : string) : bool :=
  String.prefix needle s
  || match s with
     | EmptyString => false
     | String _ s' => contains needle s'
     end.

(** ** StochasticBasketSampler: [_generate_order_items] *)

(** A basket line: the product object (its position in [products]), the
    quantity, and the price read from the object when the basket was
    drawn. *)
Record Item : Type := {
  item_product : nat;
  item_quantity : Z;
  item_price : Decimal
}.

(** The values returned by [random.random()] inside the three
    [random.choices] calls. *)
Record BasketDraws : Type := {
  u_num_items : float;
  u_product : nat -> float;
  u_quantity : nat -> float
}.

Definition popularity_weight (p : Product) : float :=
  default (Float.dec 5 1) (_popularity p).

Fixpoint build_items (products : list Product) (selected : list nat)
    (i : nat) (dr : BasketDraws) : result (list Item) :=
  match selected with
  | [] => Ok []
  | pos :: rest =>
      product ← of_option IndexError (products !! pos);
      quantity ← Choices.choices1 [1; 2; 3]
                   [Float.dec 7 1; Float.dec 2 1; Float.dec 1 1]
                   (u_quantity dr i);
      items ← build_items products rest (S i) dr;
      Ok ({| item_product := pos; item_quantity := quantity;
             item_price := price product |} :: items)
  end.

Definition _generate_order_items (products : list Product) (dr : BasketDraws)
  : result (list Item) :=
  num_items ← Choices.choices1 [1%nat; 2%nat; 3%nat; 4%nat]
                [Float.dec 5 1; Float.dec 3 1; Float.dec 15 2; Float.dec 5 2]
                (u_num_items dr);
  selected_products ← Choices.choices (length products)
                        (map popularity_weight products) num_items
                        (u_product dr);
  build_items products selected_products 0 dr.

(** ** MetricBackfill: [_ensure_product_metrics] *)

(** The product table: rows by primary key. [product.save()] writes the
    columns of the object over its row. *)
Abbreviation ProductTable := (list Product) (only parsing).

Fixpoint save_row (row : Product) (t : list Product) : list Product :=
  match t with
  | [] => [row]
  | r :: t' => if pk r =? pk row then row :: t' else r :: save_row row t'
  end.

Fixpoint get_row (key : Z) (t : list Product) : option Product :=
  match t with
  | [] => None
  | r :: t' => if pk r =? key then Some r else get_row key t'
  end.

(** The draws and the faults of one call. *)
Record MetricDraws : Type := {
  rating_noise : float;     (* value of random.uniform(-0.3, 0.3) *)
  energy_bits : N;          (* bits of the random.randint of the branch *)
  choice_bits : N;          (* bits of random.choice *)
  category_fault : bool;    (* reading product.category raises *)
  save_fault : bool         (* product.save() raises *)
}.

(** [round(x, 2)] *)
Definition round2 (x : float) : float :=
  match Float.round_scaled 100 x with
  | Some h => Float.of_frac h 100
  | None => x
  end.

(** [Decimal(str(v))] for a float with at most two decimals. *)
Definition Decimal_of_str (v : float) : result Decimal :=
  of_option ValueError (Float.round_scaled 100 v).

(** [float(d)] for a Decimal. *)
Definition float_of_Decimal (d : Decimal) : float := Float.of_frac d 100.

Definition derive_rating (product : Product) (dr : MetricDraws)
  : result Decimal :=
  let pop := _popularity product in
  let base :=
    match pop with
    | None =>
        Float.add (Float.dec 35 1)
          (Float.fmin (Float.dec 15 1)
             (Float.div (float_of_Decimal (price product)) (Float.dec 20000 1)))
    | Some pop =>
        Float.add (Float.dec 35 1)
          (Float.mul (Float.sub pop (Float.dec 5 1)) (Float.dec 20 1))
    end in
  let rating_val :=
    Float.fmax (Float.dec 0 1)
      (Float.fmin (Float.dec 50 1) (round2 (Float.add base (rating_noise dr)))) in
  Decimal_of_str rating_val.

Definition derive_energy (product : Product) (dr : MetricDraws)
  : result float :=
  cat ← (if category_fault dr then Raise DatabaseError
         else Ok match category product with
                 | Some c => lower (category_name c)
                 | None => EmptyString
                 end);
  energy ←
    (if contains "heladera" cat then Ok (randint 250 550 (energy_bits dr))
     else if contains "lavarropas" cat then Ok (randint 50 200 (energy_bits dr))
     else if contains "microondas" cat then Ok (randint 50 120 (energy_bits dr))
     else if contains "televisor" cat then Ok (randint 30 200 (energy_bits dr))
     else if contains "aire" cat then Ok (randint 500 2000 (energy_bits dr))
     else if contains "cocina" cat
          then choice [0; randint 200 800 (energy_bits dr)] (choice_bits dr)
     else Ok (randint 20 500 (energy_bits dr)));
  Ok (Float.of_Z energy).

(** The outcome of a call: the object, the table, and whether
    [product.save()] was called. *)
Record MetricsOutcome : Type := {
  out_product : Product;
  out_table : list Product;
  out_save_called : bool
}.

Definition _ensure_product_metrics (product : Product) (dr : MetricDraws)
    (table : list Product) : MetricsOutcome :=
  let updated := false in
  (* first try block *)
  let '(product, updated) :=
    match rating product with
    | None =>
        match derive_rating product dr with
        | Ok r => (set_rating r product, true)
        | Raise _ => (product, updated)
        end
    | Some _ => (product, updated)
    end in
  (* second try block *)
  let '(product, updated) :=
    match energy_kwh_per_year product with
    | None =>
        match derive_energy product dr with
        | Ok e => (set_energy e product, true)
        | Raise _ => (product, updated)
        end
    | Some _ => (product, updated)
    end in
  if updated then
    {| out_product := product;
       out_table := if save_fault dr then table
                    else save_row (row_of product) table;
       out_save_called := true |}
  else
    {| out_product := product; out_table := table; out_save_called := false |}.

(** ** The database *)

(** Modelled from the spec: sales/models.py is not part of the sources at
    hand. An order has an identity, an owning customer, a total amount
    (exact decimal), a status and two timestamps; a line item has its
    order, its product, a quantity and the unit price captured at sale
    time. Keys are handed out in increasing order. *)

Record Order : Type := {
  order_pk : Z;
  customer : Z;
  total_price : Decimal;
  status : string;
  created_at : Z;
  updated_at : Z
}.

Record OrderItem : Type := {
  oi_order : Z;
  oi_product : Z;
  oi_quantity : Z;
  oi_price : Decimal
}.

Record Database : Type := {
  orders : list Order;
  order_items : list OrderItem;
  product_table : list Product;
  next_order_pk : Z
}.

Definition with_product_table (t : list Product) (db : Database) : Database :=
  {| orders := orders db; order_items := order_items db;
     product_table := t; next_order_pk := next_order_pk db |}.

(** Modelled from the spec: [Order.objects.all().delete()] clears all
    existing transactional history, the orders and their lines with them
    (the foreign key of the line is declared in sales/models.py). *)
Definition delete_all_orders (db : Database) : Database :=
  {| orders := []; order_items := [];
     product_table := product_table db; next_order_pk := next_order_pk db |}.

(** [Order.objects.create(customer=..., total_price=..., status=...)];
    [auto_now_add] stamps the row with the wall clock. *)
Definition create_order (cust : Z) (total : Decimal) (st : string) (clock : Z)
    (db : Database) : Order * Database :=
  let o := {| order_pk := next_order_pk db; customer := cust;
              total_price := total; status := st;
              created_at := clock; updated_at := clock |} in
  (o, {| orders := orders db ++ [o]; order_items := order_items db;
         product_table := product_table db;
         next_order_pk := next_order_pk db + 1 |}).

(** [Order.objects.filter(pk=key).update(created_at=d, updated_at=d)] *)
Definition update_order_dates (key : Z) (d : Z) (db : Database) : Database :=
  {| orders :=
       map (fun o => if order_pk o =? key
                     then {| order_pk := order_pk o; customer := customer o;
                             total_price := total_price o; status := status o;
                             created_at := d; updated_at := d |}
                     else o) (orders db);
     order_items := order_items db;
     product_table := product_table db;
     next_order_pk := next_order_pk db |}.

(** [OrderItem.objects.create(order=..., product=..., quantity=..., price=...)] *)
Definition create_order_item (it : OrderItem) (db : Database) : Database :=
  {| orders := orders db; order_items := order_items db ++ [it];
     product_table := product_table db; next_order_pk := next_order_pk db |}.

(** ** TransactionalBatchWriter: [generate_demo_data] *)

(** The draws and the faults of one simulated purchase. *)
Record TxEnv : Type := {
  customer_bits : N;          (* bits of random.choice(customers) *)
  basket_draws : BasketDraws;
  hour_bits : N;              (* bits of random.randint(8, 20) *)
  minute_bits : N;            (* bits of random.randint(0, 59) *)
  clock : Z;                  (* wall clock when the order is created *)
  order_fault : bool;         (* Order.objects.create raises *)
  update_fault : bool;        (* the update of the dates raises *)
  item_fault : nat -> bool;   (* OrderItem.objects.create raises, by line *)
  stock_fault : nat -> bool   (* p.save() raises, by line *)
}.

Record DayEnv : Type := {
  daily_draws : DailyDraws;
  tx_env : nat -> TxEnv
}.

Record Env : Type := {
  clear_fault : bool;         (* the delete of the orders raises *)
  day_env : nat -> DayEnv
}.

(** The state of the loop: the product objects (shared by every basket
    that names them), the database, and the two counters. *)
Record State : Type := {
  st_products : list Product;
  st_db : Database;
  st_total_orders : Z;
  st_total_revenue : Decimal
}.

(** [sum(Decimal(str(item['quantity'])) * item['price'] for item in items_data)] *)
Definition basket_total (items_data : list Item) : Decimal :=
  fold_left (fun acc item => acc + item_quantity item * item_price item)
    items_data 0.

(** The loop over the basket lines: line [i] is created under its own
    savepoint; on success the stock of the product object is reduced when
    it covers the quantity, and the object saved. *)
Fixpoint create_items (order : Z) (items_data : list Item) (i : nat)
    (tx : TxEnv) (objs : list Product) (db : Database)
  : list Product * Database :=
  match items_data with
  | [] => (objs, db)
  | item_data :: rest =>
      match (if item_fault tx i then None else objs !! item_product item_data) with
      | None => create_items order rest (S i) tx objs db
      | Some p =>
          let db :=
            create_order_item
              {| oi_order := order; oi_product := pk p;
                 oi_quantity := item_quantity item_data;
                 oi_price := item_price item_data |} db in
          if item_quantity item_data <=? stock p then
            let p' := set_stock (Z.max 0 (stock p - item_quantity item_data)) p in
            let objs := <[item_product item_data := p']> objs in
            let db :=
              if stock_fault tx i then db
              else with_product_table (save_row (row_of p') (product_table db)) db in
            create_items order rest (S i) tx objs db
          else create_items order rest (S i) tx objs db
      end
  end.

(** One iteration of [for _ in range(daily_sales)]. *)
Definition one_transaction (customers : list Z) (current_date : Z)
    (tx : TxEnv) (st : State) : result State :=
  cust ← choice customers (customer_bits tx);
  items_data ← _generate_order_items (st_products st) (basket_draws tx);
  let order_total := basket_total items_data in
  let order_date :=
    current_date + Datetime.timedelta_of 0 (randint 8 20 (hour_bits tx))
                     (randint 0 59 (minute_bits tx)) in
  if order_fault tx then Ok st
  else
    let '(order, db) :=
      create_order cust order_total "COMPLETED" (clock tx) (st_db st) in
    db ← (if update_fault tx then Raise DatabaseError
          else Ok (update_order_dates (order_pk order) order_date db));
    let '(objs, db) :=
      create_items (order_pk order) items_data 0 tx (st_products st) db in
    Ok {| st_products := objs; st_db := db;
          st_total_orders := st_total_orders st + 1;
          st_total_revenue := st_total_revenue st + order_total |}.

Fixpoint sales_loop (n j : nat) (customers : list Z) (current_date : Z)
    (txs : nat -> TxEnv) (st : State) : result State :=
  match n with
  | O => Ok st
  | S n' =>
      st' ← one_transaction customers current_date (txs j) st;
      sales_loop n' (S j) customers current_date txs st'
  end.

(** [while current_date <= self.end_date]: [None] when the fuel runs out. *)
Fixpoint days_loop (fuel : nat) (self : SalesDataGenerator)
    (customers : list Z) (env : Env) (day : nat) (current_date : Z)
    (st : State) : option (result State) :=
  match fuel with
  | O => None
  | S fuel' =>
      if current_date <=? end_date self then
        let de := day_env env day in
        match
          (daily_sales ← _generate_daily_sales_count self current_date
                           (daily_draws de);
           sales_loop (Z.to_nat daily_sales) 0 customers current_date
             (tx_env de) st)
        with
        | Ok st' =>
            days_loop fuel' self customers env (S day)
              (current_date + Datetime.timedelta_of 1 0 0) st'
        | Raise e => Some (Raise e)
        end
      else Some (Ok st)
  end.

Record Summary : Type := {
  sum_total_orders : Z;
  sum_total_revenue : float;
  sum_start_date : string;
  sum_end_date : string;
  sum_products_count : nat;
  sum_customers_count : nat
}.

Definition window_fuel (self : SalesDataGenerator) : nat :=
  Z.to_nat (Datetime.days (end_date self - start_date self)) + 2.

(** The body of [generate_demo_data]. [products] and [customers] are the
    lists returned by [_create_demo_products_if_needed] and
    [_create_demo_customers_if_needed]. *)
Definition generate_body (self : SalesDataGenerator) (clear_existing : bool)
    (products : list Product) (customers : list Z) (env : Env)
    (db : Database) : option (result (Summary * Database)) :=
  match
    (if clear_existing
     then (if clear_fault env then Raise DatabaseError
           else Ok (delete_all_orders db))
     else Ok db)
  with
  | Raise e => Some (Raise e)
  | Ok db =>
      let st := {| st_products := products; st_db := db;
                   st_total_orders := 0; st_total_revenue := 0 |} in
      match days_loop (window_fuel self) self customers env 0
              (start_date self) st with
      | None => None
      | Some (Raise e) => Some (Raise e)
      | Some (Ok st) =>
          Some (Ok ({| sum_total_orders := st_total_orders st;
                       sum_total_revenue := float_of_Decimal (st_total_revenue st);
                       sum_start_date := Datetime.strftime_Ymd (start_date self);
                       sum_end_date := Datetime.strftime_Ymd (end_date self);
                       sum_products_count := length products;
                       sum_customers_count := length customers |},
                    st_db st))
      end
  end.

(** [@transaction.atomic]: when the body raises, the database is left as
    it was on entry; otherwise its writes are committed. *)
Definition generate_demo_data (self : SalesDataGenerator)
    (clear_existing : bool) (products : list Product) (customers : list Z)
    (env : Env) (db : Database) : option (result Summary * Database) :=
  match generate_body self clear_existing products customers env db with
  | None => None
  | Some (Ok (summary, db')) => Some (Ok summary, db')
  | Some (Raise e) => Some (Raise e, db)
  end.

(** ** The demand curve as the specification words it *)

Inductive Month : Type :=
| January | February | March | April | May | June
| July | August | September | October | November | December.

Inductive DayOfWeek : Type :=
| Monday | Tuesday | Wednesday | Thursday | Friday | Saturday | Sunday.

Definition month_of (date : Z) : option Month :=
  [January; February; March; April; May; June;
   July; August; September; October; November; December]
    !! Z.to_nat (Datetime.month date - 1).

Definition day_of_week (date : Z) : option DayOfWeek :=
  [Monday; Tuesday; Wednesday; Thursday; Friday; Saturday; Sunday]
    !! Z.to_nat (Datetime.weekday date).

Definition seasonal_table (m : Month) : float :=
  match m with
  | December => Float.dec 15 1
  | January | February => Float.dec 7 1
  | July | August => Float.dec 13 1
  | June | November => Float.dec 12 1
  | _ => Float.dec 10 1
  end.

Definition weekday_table (d : DayOfWeek) : float :=
  match d with
  | Saturday | Sunday => Float.dec 13 1
  | Friday => Float.dec 11 1
  | _ => Float.dec 10 1
  end.

(** The trend formula of the specification, in the float arithmetic of
    the code. *)
Definition trend_formula (days_since_start total_window_days : Z) : float :=
  Float.add (Float.dec 10 1)
    (Float.mul (Float.dec 5 1)
       (Float.of_frac days_since_start total_window_days)).

Definition in_window (self : SalesDataGenerator) (date : Z) : Prop :=
  start_date self <= date <= end_date self.

(** [base * seasonal * trend * weekday * random_factor] *)
Definition demand_product (base : Z) (seasonal trend weekday noise : float)
  : float :=
  Float.mul (Float.mul (Float.mul (Float.mul (Float.of_Z base) seasonal) trend)
               weekday) noise.

(** The daily count as the specification words it:
    [max(1, round(base * seasonal * trend * weekday * noise))]. *)
Definition daily_count_rounded (self : SalesDataGenerator) (date : Z)
    (dr : DailyDraws) : result Z :=
  trend ← _get_trend_multiplier self date;
  r ← of_option OverflowError
        (Float.round_scaled 1
           (demand_product (randint 5 15 (base_bits dr))
              (_get_seasonal_multiplier date) trend
              (_get_weekday_multiplier date) (random_factor dr)));
  Ok (Z.max 1 r).

(** A value that [random.uniform(0.8, 1.2)] can return. *)
Definition noise_in_range (x : float) : Prop :=
  Float.valid x = true
  /\ Float.leb (Float.dec 8 1) x = true
  /\ Float.leb x (Float.dec 12 1) = true.

(** A popularity weight of zero. *)
Definition zero_weight (p : Product) : Prop :=
  exists s, _popularity p = Some (S754_zero s).

(** Two product objects that agree on every field other than [rating] and
    [energy_kwh_per_year]. *)
Definition same_other_fields (p q : Product) : Prop :=
  pk q = pk p /\ name q = name p /\ price q = price p
  /\ category q = category p /\ stock q = stock p
  /\ description q = description p /\ brand q = brand p
  /\ warranty q = warranty p /\ image q = image p
  /\ _popularity q = _popularity p.

(** ** What a run leaves in the database *)

Fixpoint sum_list (l : list Z) : Z :=
  match l with
  | [] => 0
  | x :: l' => x + sum_list l'
  end.



(** The orders and the lines that a run added to the database it
    started from. *)
Definition new_orders (db0 db' : Database) : list Order :=
  drop (length (orders db0)) (orders db').

Definition new_items (db0 db' : Database) : list OrderItem :=
  drop (length (order_items db0)) (order_items db').

(** The database the loop starts from. *)
Definition cleared (clear_existing : bool) (db : Database) : Database :=
  if clear_existing then delete_all_orders db else db.

(** The primary keys handed out so far are below [next_order_pk]. *)
Definition keys_fresh (db : Database) : Prop :=
  Forall (fun o => order_pk o < next_order_pk db) (orders db)
  /\ Forall (fun it => oi_order it < next_order_pk db) (order_items db).




(** ** Notions used in the proofs *)

(** A float that is zero or finite with an exponent of at most [B]. *)
Definition small_le (B : Z) (x : float) : bool :=
  match x with
  | S754_zero _ => true
  | S754_finite _ m e => (Zpos m <? 2 ^ 53) && (e <=? B)
  | _ => false
  end.

(** The trend after [k] days of a 730-day window. *)
Definition trend_at (k : Z) : float :=
  Float.add (Float.dec 10 1)
    (Float.mul (Float.of_frac k 730) (Float.dec 5 1)).

Definition mantissa52 (x : float) : option Z :=
  match x with
  | S754_finite false m e => if e =? -52 then Some (Zpos m) else None
  | _ => None
  end.

Definition trend_step_ok (k : Z) : bool :=
  match mantissa52 (trend_at k), mantissa52 (trend_at (k + 1)) with
  | Some a, Some b => a <=? b
  | _, _ => false
  end.

Definition is_zero (x : float) : bool :=
  match x with
  | S754_zero _ => true
  | _ => false
  end.

Definition order_date_of (current_date : Z) (tx : TxEnv) : Z :=
  current_date + Datetime.timedelta_of 0 (randint 8 20 (hour_bits tx))
                   (randint 0 59 (minute_bits tx)).

(** The database once the header of a transaction is created and dated. *)
Definition header_db (cust : Z) (items_data : list Item) (current_date : Z)
    (tx : TxEnv) (db : Database) : Database :=
  update_order_dates (next_order_pk db) (order_date_of current_date tx)
    (snd (create_order cust (basket_total items_data) "COMPLETED" (clock tx) db)).

Definition line_drawn_from (objs : list Product) (it : Item) : Prop :=
  exists p, objs !! item_product it = Some p
            /\ item_price it = price p
            /\ 1 <= item_quantity it <= 3.




(** ** A concrete run

    The generator built on 2025-12-31 (window 2024-01-01 to 2025-12-31),
    a catalog of one product priced 19.99 with 20 in stock, one customer,
    and draws that make every basket one line of three units, with the
    smallest base (5) and noise (0.8). *)

Definition demo_now : Z := Datetime.make 2025 12 31 0 0.

Definition demo_generator : SalesDataGenerator := __init__ demo_now demo_now.

Definition demo_product : Product :=
  {| pk := 1; name := "Plancha Vertical"; price := 1999;
     category := None; stock := 20; description := "";
     brand := None; warranty := None; image := "";
     rating := Some 400; energy_kwh_per_year := Some (Float.of_Z 100);
     _popularity := None |}.

Definition demo_db : Database :=
  {| orders := []; order_items := []; product_table := [demo_product];
     next_order_pk := 1 |}.

Definition demo_tx (line_fails update_fails : bool) : TxEnv :=
  {| customer_bits := 0;
     basket_draws := {| u_num_items := Float.dec 25 2;
                        u_product := fun _ => Float.dec 5 1;
                        u_quantity := fun _ => Float.dec 95 2 |};
     hour_bits := 0; minute_bits := 0; clock := demo_now;
     order_fault := false; update_fault := update_fails;
     item_fault := fun _ => line_fails; stock_fault := fun _ => false |}.

Definition demo_daily : DailyDraws :=
  {| base_bits := 0; random_factor := Float.dec 8 1 |}.

(** Nothing fails. *)
Definition clean_env : Env :=
  {| clear_fault := false;
     day_env := fun _ =>
       {| daily_draws := demo_daily; tx_env := fun _ => demo_tx false false |} |}.


(** The update of the dates of the first order of the second day fails. *)
Definition update_fault_env : Env :=
  {| clear_fault := false;
     day_env := fun day =>
       {| daily_draws := demo_daily;
          tx_env := fun j =>
            match day, j with
            | 1%nat, O => demo_tx false true
            | _, _ => demo_tx false false
            end |} |}.

(** ** Further notions: the sampler and the metrics *)

(** The total weight [random.choices] computes for a catalog:
    [cum_weights[-1] + 0.0]; [None] for an empty catalog. *)
Definition total_weight (products : list Product) : option float :=
  match last (Choices.accumulate (map popularity_weight products)) with
  | Some c => Some (Float.add c (S754_zero false))
  | None => None
  end.

(** ** Further notions: what a run writes *)

(** The start of day [day] of the loop: [start_date] plus [day] days. *)
Definition day_start (self : SalesDataGenerator) (day : nat) : Z :=
  start_date self + Datetime.timedelta_of (Z.of_nat day) 0 0.

(** The row of an order after the update of the dates of order [key]. *)
Definition redate (key d : Z) (o : Order) : Order :=
  if order_pk o =? key
  then {| order_pk := order_pk o; customer := customer o;
          total_price := total_price o; status := status o;
          created_at := d; updated_at := d |}
  else o.

(** A header as the writer leaves it: completed, owned by a customer of
    the pool, and dated on a day of the window between 08:00 and 20:59
    after the time of day of [start_date]. *)
Definition header_written (self : SalesDataGenerator) (customers : list Z)
    (o : Order) : Prop :=
  status o = "COMPLETED"%string
  /\ In (customer o) customers
  /\ updated_at o = created_at o
  /\ exists (day : nat) (h m : Z),
       day_start self day <= end_date self
       /\ 8 <= h <= 20 /\ 0 <= m <= 59
       /\ created_at o = day_start self day + Datetime.timedelta_of 0 h m.

(** A line that names a product of the catalog at its price, in a
    quantity of 1, 2 or 3. *)
Definition catalog_line (products : list Product) (it : OrderItem) : Prop :=
  exists p, In p products /\ oi_product it = pk p /\ oi_price it = price p
            /\ 1 <= oi_quantity it <= 3.

(** The keys [first, first + 1, ...] of [n] consecutive orders. *)
Definition consecutive_keys (first : Z) (n : nat) : list Z :=
  map (fun i => first + Z.of_nat i) (seq 0 n).

(** What holds of the state after every transaction of a run that
    started from the database [db1] with the catalog [products]. *)
Definition writer_inv (self : SalesDataGenerator) (customers : list Z)
    (products : list Product) (db1 : Database) (st : State) : Prop :=
  let db := st_db st in
  (length (orders db1) <= length (orders db))%nat
  /\ (length (order_items db1) <= length (order_items db))%nat
  /\ map pk (st_products st) = map pk products
  /\ map price (st_products st) = map price products
  /\ next_order_pk db
     = next_order_pk db1 + Z.of_nat (length (new_orders db1 db))
  /\ map order_pk (new_orders db1 db)
     = consecutive_keys (next_order_pk db1) (length (new_orders db1 db))
  /\ Forall (header_written self customers) (new_orders db1 db)
  /\ Forall (fun it => catalog_line products it
                       /\ In (oi_order it) (map order_pk (new_orders db1 db)))
       (new_items db1 db)
  /\ take (length (order_items db1)) (order_items db) = order_items db1
  /\ (keys_fresh db1 -> take (length (orders db1)) (orders db) = orders db1)
  /\ st_total_orders st = Z.of_nat (length (new_orders db1 db))
  /\ Forall (fun o => exists items_data,
                        (1 <= length items_data <= 4)%nat
                        /\ Forall (line_drawn_from products) items_data
                        /\ total_price o = basket_total items_data)
       (new_orders db1 db).

(** [generate_sales_data(clear_existing)]: a generator is constructed -
    [now1] and [now2] are the two readings of the clock by the
    constructor - and run. *)
Definition generate_sales_data (now1 now2 : Z) (clear_existing : bool)
    (products : list Product) (customers : list Z) (env : Env)
    (db : Database) : option (result Summary * Database) :=
  let generator := __init__ now1 now2 in
  generate_demo_data generator clear_existing products customers env db.

(** ** The maintenance pass: [update_products_metrics] *)

(** Python's [!=] between two optional decimals, and between two optional
    floats: [None] differs from every number, and a NaN from itself. *)
Definition ne_rating (a b : option Decimal) : bool :=
  match a, b with
  | None, None => false
  | Some x, Some y => negb (x =? y)
  | _, _ => true
  end.

Definition ne_energy (a b : option float) : bool :=
  match a, b with
  | None, None => false
  | Some x, Some y => negb (Float.eqb x y)
  | _, _ => true
  end.

Record MetricsReport : Type := {
  products_checked : Z;
  products_updated : Z
}.

(** The loop [for p in products]; [draws i] are the draws of the call of
    [_ensure_product_metrics] on the product at position [i]. *)
Fixpoint update_loop (limit : Z) (products : list Product) (i : nat)
    (draws : nat -> MetricDraws) (table : list Product)
    (checked updated : Z) : MetricsReport * list Product :=
  match products with
  | [] => ({| products_checked := checked; products_updated := updated |},
           table)
  | p :: rest =>
      if negb (limit =? 0) && (limit <=? checked) then
        ({| products_checked := checked; products_updated := updated |}, table)
      else
        let before_rating := rating p in
        let before_energy := energy_kwh_per_year p in
        let o := _ensure_product_metrics p (draws i) table in
        let p := out_product o in
        let checked := checked + 1 in
        let updated :=
          if ne_rating (rating p) before_rating
             || ne_energy (energy_kwh_per_year p) before_energy
          then updated + 1 else updated in
        update_loop limit rest (S i) draws (out_table o) checked updated
  end.

(** [list(Product.objects.all())] loads every row as an object of its
    own, without the popularity the generator attaches. *)
Definition update_products_metrics (limit : Z) (draws : nat -> MetricDraws)
    (table : list Product) : MetricsReport * list Product :=
  let products := map row_of table in
  update_loop limit products 0 draws table 0 0.

(** Whether the pass counts a product as updated. *)
Definition is_nan (x : float) : bool :=
  match x with
  | S754_nan => true
  | _ => false
  end.

Definition counted_as_updated (p : Product) (dr : MetricDraws) : bool :=
  match rating p with None => true | Some _ => false end
  || match energy_kwh_per_year p with
     | None => negb (category_fault dr)
     | Some e => is_nan e
     end.

Fixpoint count_updated (products : list Product) (i : nat)
    (draws : nat -> MetricDraws) : Z :=
  match products with
  | [] => 0
  | p :: rest =>
      (if counted_as_updated p (draws i) then 1 else 0)
      + count_updated rest (S i) draws
  end.

(** The number of products the pass checks. *)
Definition checked_count (limit : Z) (n : nat) : Z :=
  if limit =? 0 then Z.of_nat n else Z.max 0 (Z.min limit (Z.of_nat n)).



(** The columns of two rows other than the two metrics agree. *)
Definition same_columns (p q : Product) : Prop :=
  pk q = pk p /\ name q = name p /\ price q = price p
  /\ category q = category p /\ stock q = stock p
  /\ description q = description p /\ brand q = brand p
  /\ warranty q = warranty p /\ image q = image p.

(** Draws of a pass in which nothing fails: no noise on the rating and
    the smallest energy of each range. *)
Definition plain_metric_draws : nat -> MetricDraws :=
  fun _ => {| rating_noise := Float.dec 0 1; energy_bits := 0;
              choice_bits := 0; category_fault := false;
              save_fault := false |}.

(** ** Lookups by a natural key: [get_or_create] *)

(** The exceptions of the seeding: the one [get] raises when more than
    one row matches, and those of the database. *)
Inductive seed_exn : Type :=
| MultipleObjectsReturned
| Propagated (e : exn).

Inductive seeded (A : Type) : Type :=
| Seeded (a : A)
| Failed (e : seed_exn).
Arguments Seeded {A} a.
Arguments Failed {A} e.

#[global] Instance seeded_bind : MBind seeded := fun _ _ k r =>
  match r with
  | Seeded a => k a
  | Failed e => Failed e
  end.

(** [Model.objects.get(...)] inside [get_or_create]: the row that
    matches, none, or [MultipleObjectsReturned]. *)
Definition get_unique {A : Type} (matches : A -> bool) (rows : list A)
  : seeded (option A) :=
  match List.filter matches rows with
  | [] => Seeded None
  | [a] => Seeded (Some a)
  | _ => Failed MultipleObjectsReturned
  end.

(** ** The customer pool: [_create_demo_customers_if_needed] *)

(** Modelled from the spec: the user model and api/models.py are not part
    of the sources at hand. A user has an identity, a username, an e-mail
    address, a first and a last name and a password hash; its profile,
    when it has one, is attached one-to-one and carries a role. The rows
    are kept in the order of the table, the order in which an unordered
    query returns them. *)

Record User : Type := {
  user_pk : Z;
  username : string;
  email : string;
  first_name : string;
  last_name : string;
  password : string;
  profile_role : option string
}.

Record UserTable : Type := {
  user_rows : list User;
  next_user_pk : Z
}.

(** The draws and the faults of one iteration of the loop over the names. *)
Record CustomerDraws : Type := {
  user_create_fault : bool;     (* the creation of the user raises *)
  password_hash : string;       (* the hash computed by set_password *)
  user_save_fault : bool;       (* user.save() raises *)
  signal_role : option string;  (* role of the profile that the creation of
                                   the user attaches by itself, if any *)
  profile_fault : bool          (* Profile.objects.create raises *)
}.

Definition base_names : list (string * string) :=
  [("Juan", "Pérez"); ("María", "García"); ("Carlos", "López");
   ("Ana", "Martínez"); ("Luis", "Rodríguez"); ("Sofía", "Fernández");
   ("Mateo", "Gómez"); ("Valentina", "Díaz"); ("Lucas", "Torres");
   ("Camila", "Ruiz"); ("Diego", "Alvarez"); ("Mía", "Sánchez");
   ("Martín", "Romero"); ("Lucía", "Ramírez"); ("Tomás", "Vega");
   ("Isabella", "Rossi")]%string.

(** [profile__role='CLIENT'] *)
Definition is_client (u : User) : bool :=
  match profile_role u with
  | Some role => String.eqb role "CLIENT"
  | None => false
  end.

(** [f"cliente{idx}"] *)
Definition username_of (idx : nat) : string :=
  ("cliente" ++ Datetime.digits_from 20 (Z.of_nat idx) EmptyString)%string.

Definition get_user (name : string) (t : UserTable) : seeded (option User) :=
  get_unique (fun u => String.eqb (username u) name) (user_rows t).

(** [user.save()]: the columns of the object are written over its row;
    the profile is a row of its own and is not written. *)
Definition save_user (u : User) (t : UserTable) : UserTable :=
  {| user_rows :=
       map (fun r => if user_pk r =? user_pk u
                     then {| user_pk := user_pk u; username := username u;
                             email := email u; first_name := first_name u;
                             last_name := last_name u; password := password u;
                             profile_role := profile_role r |}
                     else r) (user_rows t);
     next_user_pk := next_user_pk t |}.

(** [Profile.objects.create(user=user, role=role)] *)
Definition create_profile (key : Z) (role : string) (t : UserTable)
  : UserTable :=
  {| user_rows :=
       map (fun r => if user_pk r =? key
                     then {| user_pk := user_pk r; username := username r;
                             email := email r; first_name := first_name r;
                             last_name := last_name r; password := password r;
                             profile_role := Some role |}
                     else r) (user_rows t);
     next_user_pk := next_user_pk t |}.

(** [User.objects.get_or_create(username=..., defaults={...})]: the
    user found, or the user created, and whether it was created. *)
Definition get_or_create_user (name mail first last : string)
    (dr : CustomerDraws) (t : UserTable) : seeded (User * bool * UserTable) :=
  found ← get_user name t;
  match found with
  | Some u => Seeded (u, false, t)
  | None =>
      if user_create_fault dr then Failed (Propagated DatabaseError)
      else
        let u := {| user_pk := next_user_pk t; username := name;
                    email := mail; first_name := first; last_name := last;
                    password := ""; profile_role := signal_role dr |} in
        Seeded (u, true, {| user_rows := user_rows t ++ [u];
                            next_user_pk := next_user_pk t + 1 |})
  end.

Definition set_password (hash : string) (u : User) : User :=
  {| user_pk := user_pk u; username := username u; email := email u;
     first_name := first_name u; last_name := last_name u;
     password := hash; profile_role := profile_role u |}.

Definition set_profile (role : string) (u : User) : User :=
  {| user_pk := user_pk u; username := username u; email := email u;
     first_name := first_name u; last_name := last_name u;
     password := password u; profile_role := Some role |}.

(** The loop [for first, last in base_names], [idx] counting from 1. *)
Fixpoint customers_loop (names : list (string * string)) (idx : nat)
    (draws : nat -> CustomerDraws) (t : UserTable) (customers : list User)
  : seeded (list User * UserTable) :=
  match names with
  | [] => Seeded (customers, t)
  | (first, last) :: rest =>
      let name := username_of idx in
      let mail := (name ++ "@demo.com")%string in
      let dr := draws idx in
      r ← get_or_create_user name mail first last dr t;
      let '(user, created, t) := r in
      let '(user, t) :=
        if created : bool then
          (* try: user.set_password('demo123'); user.save() *)
          let user := set_password (password_hash dr) user in
          let t := if user_save_fault dr then t else save_user user t in
          (* if not hasattr(user, 'profile'): try: Profile.objects.create *)
          match profile_role user with
          | None =>
              if profile_fault dr then (user, t)
              else (set_profile "CLIENT" user,
                    create_profile (user_pk user) "CLIENT" t)
          | Some _ => (user, t)
          end
        else (user, t) in
      customers_loop rest (S idx) draws t (customers ++ [user])
  end.

Definition _create_demo_customers_if_needed (draws : nat -> CustomerDraws)
    (t : UserTable) : seeded (list User * UserTable) :=
  let clients := take 30 (List.filter is_client (user_rows t)) in
  if (15 <=? length clients)%nat then Seeded (clients, t)
  else customers_loop base_names 1 draws t [].

(** The identities below [next_user_pk] are the ones in use. *)
Definition users_fresh (t : UserTable) : Prop :=
  Forall (fun u => user_pk u < next_user_pk t) (user_rows t).

(** An empty table, and draws in which nothing fails and no profile is
    attached by the creation of a user. *)
Definition no_users : UserTable := {| user_rows := []; next_user_pk := 1 |}.

Definition plain_customer_draws : nat -> CustomerDraws :=
  fun _ => {| user_create_fault := false; password_hash := "pbkdf2";
              user_save_fault := false; signal_role := None;
              profile_fault := false |}.

(** The users of a given name. *)
Definition matching_users (name : string) (t : UserTable) : list User :=
  List.filter (fun u => String.eqb (username u) name) (user_rows t).

(** Whether the strings of a list are pairwise distinct. *)
Fixpoint all_distinct (l : list string) : bool :=
  match l with
  | [] => true
  | x :: rest => negb (existsb (String.eqb x) rest) && all_distinct rest
  end.

(** ** The catalog: [_create_demo_products_if_needed] *)

(** Modelled from the spec: products/models.py is not part of the sources
    at hand. A category has a slug and a name, a brand a name, a warranty
    a name and a duration in days; a product refers to its category, and
    to its brand and its warranty when it has them. The placeholder image
    is a file under the media root. *)

Record CategoryRow : Type := {
  cat_slug : string;
  cat_name : string
}.

Record Brand : Type := {
  brand_pk : Z;
  brand_name : string
}.

Record Warranty : Type := {
  warranty_pk : Z;
  warranty_name : string;
  duration_days : Z
}.

Record Catalog : Type := {
  category_rows : list CategoryRow;
  brand_rows : list Brand;
  next_brand_pk : Z;
  warranty_rows : list Warranty;
  next_warranty_pk : Z;
  product_rows : list Product;
  next_product_pk : Z;
  placeholder_exists : bool
}.

Definition with_product_rows (rows : list Product) (c : Catalog) : Catalog :=
  {| category_rows := category_rows c; brand_rows := brand_rows c;
     next_brand_pk := next_brand_pk c; warranty_rows := warranty_rows c;
     next_warranty_pk := next_warranty_pk c; product_rows := rows;
     next_product_pk := next_product_pk c;
     placeholder_exists := placeholder_exists c |}.

(** The draws and the faults of one iteration of the loop over the
    products. *)
Record ProductDraws : Type := {
  lists_fault : bool;           (* reading the brands or the warranties raises *)
  product_create_fault : bool;  (* the creation of the product raises *)
  stock_bits : N;               (* bits of random.randint(20, 200) *)
  metric_draws : MetricDraws;   (* draws of _ensure_product_metrics *)
  placeholder_fault : bool;     (* writing the placeholder file raises *)
  image_save_fault : bool       (* product.save() raises *)
}.

Record CatalogDraws : Type := {
  category_create_fault : nat -> bool;
  brand_create_fault : nat -> bool;
  warranty_create_fault : nat -> bool;
  existing_draws : nat -> MetricDraws;  (* draws of the backfill of the
                                           products that exist *)
  product_draws : nat -> ProductDraws
}.

Definition lift {A : Type} (r : result A) : seeded A :=
  match r with
  | Ok a => Seeded a
  | Raise e => Failed (Propagated e)
  end.

(** [(name, slug)] *)
Definition categories_data : list (string * string) :=
  [("Heladeras", "heladeras"); ("Lavarropas", "lavarropas");
   ("Microondas", "microondas"); ("Televisores", "televisores");
   ("Cocinas", "cocinas"); ("Aire Acondicionado", "aire-acondicionado");
   ("Pequeños Electrodomésticos", "pequenos-electrodomesticos")]%string.

(** [Category.objects.get_or_create(slug=..., defaults={'name': ...})] *)
Definition get_or_create_category (name slug : string) (fault : bool)
    (c : Catalog) : seeded (Category * Catalog) :=
  found ← get_unique (fun r => String.eqb (cat_slug r) slug) (category_rows c);
  match found with
  | Some r => Seeded ({| category_name := cat_name r |}, c)
  | None =>
      if fault then Failed (Propagated DatabaseError)
      else
        Seeded ({| category_name := name |},
                {| category_rows :=
                     category_rows c ++ [{| cat_slug := slug; cat_name := name |}];
                   brand_rows := brand_rows c; next_brand_pk := next_brand_pk c;
                   warranty_rows := warranty_rows c;
                   next_warranty_pk := next_warranty_pk c;
                   product_rows := product_rows c;
                   next_product_pk := next_product_pk c;
                   placeholder_exists := placeholder_exists c |})
  end.

Fixpoint categories_loop (data : list (string * string)) (i : nat)
    (dr : CatalogDraws) (c : Catalog) (categories : list Category)
  : seeded (list Category * Catalog) :=
  match data with
  | [] => Seeded (categories, c)
  | (name, slug) :: rest =>
      r ← get_or_create_category name slug (category_create_fault dr i) c;
      let '(category, c) := r in
      categories_loop rest (S i) dr c (categories ++ [category])
  end.

(** The two names that hold a double quote, the inch sign. *)
Definition smart_tv_50 : string :=
  ("Smart TV 50" ++ String (ascii_of_nat 34) " 4K")%string.

Definition smart_tv_32 : string :=
  ("Smart TV 32" ++ String (ascii_of_nat 34) " HD")%string.

(** [(name, price, index of the category, popularity)] *)
Definition products_table : list (string * float * nat * float) :=
  [("Heladera No Frost 320L"%string, Float.dec 150000 2, 0%nat, Float.dec 95 2);
   ("Heladera Top Mount 260L"%string, Float.dec 90000 2, 0%nat, Float.dec 8 1);
   ("Lavarropas Carga Frontal 8kg"%string, Float.dec 110000 2, 1%nat, Float.dec 9 1);
   ("Lavarropas Carga Superior 7kg"%string, Float.dec 75000 2, 1%nat, Float.dec 7 1);
   ("Microondas 700W"%string, Float.dec 18000 2, 2%nat, Float.dec 85 2);
   ("Microondas Convección 1000W"%string, Float.dec 32000 2, 2%nat, Float.dec 6 1);
   (smart_tv_50, Float.dec 80000 2, 3%nat, Float.dec 9 1);
   (smart_tv_32, Float.dec 30000 2, 3%nat, Float.dec 7 1);
   ("Cocina a Gas 4 Hornallas"%string, Float.dec 65000 2, 4%nat, Float.dec 6 1);
   ("Anafe Eléctrico 2 Placas"%string, Float.dec 22000 2, 4%nat, Float.dec 5 1);
   ("Aire Acondicionado Split 3000 Frig"%string, Float.dec 120000 2, 5%nat, Float.dec 8 1);
   ("Aire Portátil 2000 Frig"%string, Float.dec 42000 2, 5%nat, Float.dec 5 1);
   ("Licuadora Profesional"%string, Float.dec 12000 2, 6%nat, Float.dec 7 1);
   ("Plancha Vertical"%string, Float.dec 9000 2, 6%nat, Float.dec 4 1);
   ("Aspiradora Robot"%string, Float.dec 45000 2, 6%nat, Float.dec 6 1)].

(** The list [products_data]: each entry holds [categories[k]]. *)
Fixpoint products_data (categories : list Category)
    (table : list (string * float * nat * float))
  : seeded (list (string * float * Category * float)) :=
  match table with
  | [] => Seeded []
  | (name, price, k, popularity) :: rest =>
      category ← lift (of_option IndexError (categories !! k));
      entries ← products_data categories rest;
      Seeded ((name, price, category, popularity) :: entries)
  end.

Definition default_brands : list string :=
  ["Generic"; "HomeTech"; "ElectroMax"; "SmartGoods"]%string.

(** [Brand.objects.get_or_create(name=b)] *)
Definition get_or_create_brand (name : string) (fault : bool) (c : Catalog)
  : seeded Catalog :=
  found ← get_unique (fun r => String.eqb (brand_name r) name) (brand_rows c);
  match found with
  | Some _ => Seeded c
  | None =>
      if fault then Failed (Propagated DatabaseError)
      else
        Seeded {| category_rows := category_rows c;
                  brand_rows :=
                    brand_rows c ++ [{| brand_pk := next_brand_pk c;
                                        brand_name := name |}];
                  next_brand_pk := next_brand_pk c + 1;
                  warranty_rows := warranty_rows c;
                  next_warranty_pk := next_warranty_pk c;
                  product_rows := product_rows c;
                  next_product_pk := next_product_pk c;
                  placeholder_exists := placeholder_exists c |}
  end.

Fixpoint brands_loop (names : list string) (i : nat) (dr : CatalogDraws)
    (c : Catalog) : seeded Catalog :=
  match names with
  | [] => Seeded c
  | b :: rest =>
      c ← get_or_create_brand b (brand_create_fault dr i) c;
      brands_loop rest (S i) dr c
  end.

(** [(name, duration_days)] *)
Definition default_warranties : list (string * Z) :=
  [("Garantía Estándar 1 Año"%string, 365);
   ("Garantía Extendida 2 Años"%string, 730)].

(** [Warranty.objects.get_or_create(name=..., defaults={'duration_days': ...})] *)
Definition get_or_create_warranty (name : string) (days : Z) (fault : bool)
    (c : Catalog) : seeded Catalog :=
  found ← get_unique (fun r => String.eqb (warranty_name r) name)
            (warranty_rows c);
  match found with
  | Some _ => Seeded c
  | None =>
      if fault then Failed (Propagated DatabaseError)
      else
        Seeded {| category_rows := category_rows c;
                  brand_rows := brand_rows c;
                  next_brand_pk := next_brand_pk c;
                  warranty_rows :=
                    warranty_rows c ++ [{| warranty_pk := next_warranty_pk c;
                                           warranty_name := name;
                                           duration_days := days |}];
                  next_warranty_pk := next_warranty_pk c + 1;
                  product_rows := product_rows c;
                  next_product_pk := next_product_pk c;
                  placeholder_exists := placeholder_exists c |}
  end.

Fixpoint warranties_loop (data : list (string * Z)) (i : nat)
    (dr : CatalogDraws) (c : Catalog) : seeded Catalog :=
  match data with
  | [] => Seeded c
  | (name, days) :: rest =>
      c ← get_or_create_warranty name days (warranty_create_fault dr i) c;
      warranties_loop rest (S i) dr c
  end.

Definition set_popularity (popularity : float) (p : Product) : Product :=
  {| pk := pk p; name := name p; price := price p; category := category p;
     stock := stock p; description := description p; brand := brand p;
     warranty := warranty p; image := image p;
     rating := rating p;
     energy_kwh_per_year := energy_kwh_per_year p;
     _popularity := Some popularity |}.

Definition set_image (path : string) (p : Product) : Product :=
  {| pk := pk p; name := name p; price := price p; category := category p;
     stock := stock p; description := description p; brand := brand p;
     warranty := warranty p; image := path;
     rating := rating p;
     energy_kwh_per_year := energy_kwh_per_year p;
     _popularity := _popularity p |}.

Definition placeholder_rel : string := "products/placeholder.png".

(** [Product.objects.get_or_create(name=..., defaults={...})]: the
    object and the catalog. *)
Definition get_or_create_product (pname : string) (pprice : Decimal)
    (pcategory : Category) (pstock : Z) (pbrand pwarranty : option Z)
    (fault : bool) (c : Catalog) : seeded (Product * Catalog) :=
  found ← get_unique (fun r => String.eqb (name r) pname) (product_rows c);
  match found with
  | Some r => Seeded (row_of r, c)
  | None =>
      if fault then Failed (Propagated DatabaseError)
      else
        let p := {| pk := next_product_pk c; name := pname; price := pprice;
                    category := Some pcategory; stock := pstock;
                    description := ("Producto demo: " ++ pname)%string;
                    brand := pbrand; warranty := pwarranty; image := "";
                    rating := None; energy_kwh_per_year := None;
                    _popularity := None |} in
        Seeded (p, {| category_rows := category_rows c;
                      brand_rows := brand_rows c;
                      next_brand_pk := next_brand_pk c;
                      warranty_rows := warranty_rows c;
                      next_warranty_pk := next_warranty_pk c;
                      product_rows := product_rows c ++ [p];
                      next_product_pk := next_product_pk c + 1;
                      placeholder_exists := placeholder_exists c |})
  end.

(** The block that assigns the placeholder image: the file is written
    when it is not there, and the product that has no image receives the
    relative path and is saved; an exception anywhere ends the block. *)
Definition assign_placeholder (dr : ProductDraws) (product : Product)
    (c : Catalog) : Product * Catalog :=
  if negb (placeholder_exists c) && placeholder_fault dr then (product, c)
  else
    let c := {| category_rows := category_rows c; brand_rows := brand_rows c;
                next_brand_pk := next_brand_pk c;
                warranty_rows := warranty_rows c;
                next_warranty_pk := next_warranty_pk c;
                product_rows := product_rows c;
                next_product_pk := next_product_pk c;
                placeholder_exists := true |} in
    if String.eqb (image product) "" then
      let product := set_image placeholder_rel product in
      (product,
       if image_save_fault dr then c
       else with_product_rows (save_row (row_of product) (product_rows c)) c)
    else (product, c).

(** The loop [for i, prod_data in enumerate(products_data)]. *)
Fixpoint products_loop (data : list (string * float * Category * float))
    (i : nat) (dr : CatalogDraws) (c : Catalog) (products : list Product)
  : seeded (list Product * Catalog) :=
  match data with
  | [] => Seeded (products, c)
  | (pname, pprice, pcategory, popularity) :: rest =>
      let d := product_draws dr i in
      let '(pbrand, pwarranty) :=
        if lists_fault d then (None, None)
        else
          let brands := brand_rows c in
          let warranties := warranty_rows c in
          (match brands with
           | [] => None
           | _ => brand_pk <$> brands !! (i mod length brands)%nat
           end,
           match warranties with
           | [] => None
           | _ => warranty_pk <$> warranties !! (i mod length warranties)%nat
           end) in
      price_decimal ← lift (Decimal_of_str pprice);
      r ← get_or_create_product pname price_decimal pcategory
            (randint 20 200 (stock_bits d)) pbrand pwarranty
            (product_create_fault d) c;
      let '(product, c) := r in
      let o := _ensure_product_metrics product (metric_draws d) (product_rows c) in
      let product := out_product o in
      let c := with_product_rows (out_table o) c in
      let product := set_popularity popularity product in
      let '(product, c) := assign_placeholder d product c in
      products_loop rest (S i) dr c (products ++ [product])
  end.

(** The loop [for p in existing_products]. *)
Fixpoint existing_loop (objs : list Product) (i : nat) (dr : CatalogDraws)
    (table : list Product) : list Product * list Product :=
  match objs with
  | [] => ([], table)
  | p :: rest =>
      let o := _ensure_product_metrics p (existing_draws dr i) table in
      let '(objs', table') := existing_loop rest (S i) dr (out_table o) in
      (out_product o :: objs', table')
  end.

Definition _create_demo_products_if_needed (dr : CatalogDraws) (c : Catalog)
  : seeded (list Product * Catalog) :=
  let existing_products := map row_of (take 30 (product_rows c)) in
  if (30 <=? length (product_rows c))%nat then
    let '(existing_products, table) :=
      existing_loop existing_products 0 dr (product_rows c) in
    Seeded (existing_products, with_product_rows table c)
  else
    r ← categories_loop categories_data 0 dr c [];
    let '(categories, c) := r in
    data ← products_data categories products_table;
    c ← brands_loop default_brands 0 dr c;
    c ← warranties_loop default_warranties 0 dr c;
    products_loop data 0 dr c [].

(** An empty catalog, and draws in which nothing fails. *)
Definition no_catalog : Catalog :=
  {| category_rows := []; brand_rows := []; next_brand_pk := 1;
     warranty_rows := []; next_warranty_pk := 1; product_rows := [];
     next_product_pk := 1; placeholder_exists := false |}.

Definition plain_catalog_draws : CatalogDraws :=
  {| category_create_fault := fun _ => false;
     brand_create_fault := fun _ => false;
     warranty_create_fault := fun _ => false;
     existing_draws := plain_metric_draws;
     product_draws := fun i =>
       {| lists_fault := false; product_create_fault := false;
          stock_bits := 0; metric_draws := plain_metric_draws i;
          placeholder_fault := false; image_save_fault := false |} |}.

(** The name and the popularity of an entry of [products_data]. *)
Definition entry_name {C : Type} (e : string * float * C * float) : string :=
  let '(n, _, _, _) := e in n.

Definition entry_popularity {C : Type} (e : string * float * C * float)
  : float :=
  let '(_, _, _, popularity) := e in popularity.

Definition entry_price {C : Type} (e : string * float * C * float) : float :=
  let '(_, price, _, _) := e in price.

(** The number of times a key occurs in a list of keys. *)
Definition occurrences (key : string) (keys : list string) : nat :=
  length (List.filter (fun k => String.eqb k key) keys).

(** What the seeding never changes in a product row: its key, its name
    and its stock. *)
Definition row_key (p : Product) : Z * string * Z := (pk p, name p, stock p).

(** The keys of the product rows are distinct and below the key counter. *)
Definition catalog_fresh (c : Catalog) : Prop :=
  NoDup (map pk (product_rows c))
  /\ Forall (fun k => k < next_product_pk c) (map pk (product_rows c)).

(** Two catalogs that differ by their product rows at most. *)
Definition same_reference_rows (c c' : Catalog) : Prop :=
  category_rows c' = category_rows c
  /\ brand_rows c' = brand_rows c /\ next_brand_pk c' = next_brand_pk c
  /\ warranty_rows c' = warranty_rows c
  /\ next_warranty_pk c' = next_warranty_pk c.

(** What one pass over a list of wanted keys leaves in a table: [keys]
    are the keys before, [keys'] the keys after; [unchanged] says that
    nothing was written. *)
Definition pass_facts (wanted keys keys' : list string) (unchanged : Prop)
  : Prop :=
  (exists new, keys' = keys ++ new /\ Forall (fun k => In k wanted) new)
  /\ (Forall (fun k => occurrences k keys = 1%nat) wanted -> unchanged)
  /\ (NoDup wanted -> Forall (fun k => occurrences k keys' = 1%nat) wanted).

(** Two catalogs that differ by the rows of one table at most. *)
Definition only_categories_differ (c c' : Catalog) : Prop :=
  brand_rows c' = brand_rows c /\ next_brand_pk c' = next_brand_pk c
  /\ warranty_rows c' = warranty_rows c
  /\ next_warranty_pk c' = next_warranty_pk c
  /\ product_rows c' = product_rows c
  /\ next_product_pk c' = next_product_pk c
  /\ placeholder_exists c' = placeholder_exists c.

Definition only_brands_differ (c c' : Catalog) : Prop :=
  category_rows c' = category_rows c
  /\ warranty_rows c' = warranty_rows c
  /\ next_warranty_pk c' = next_warranty_pk c
  /\ product_rows c' = product_rows c
  /\ next_product_pk c' = next_product_pk c
  /\ placeholder_exists c' = placeholder_exists c.

Definition only_warranties_differ (c c' : Catalog) : Prop :=
  category_rows c' = category_rows c
  /\ brand_rows c' = brand_rows c /\ next_brand_pk c' = next_brand_pk c
  /\ product_rows c' = product_rows c
  /\ next_product_pk c' = next_product_pk c
  /\ placeholder_exists c' = placeholder_exists c.

(** Every natural key of the demo catalog is carried by exactly one row. *)
Definition fully_seeded (c : Catalog) : Prop :=
  Forall (fun k => occurrences k (map cat_slug (category_rows c)) = 1%nat)
    (map snd categories_data)
  /\ Forall (fun k => occurrences k (map brand_name (brand_rows c)) = 1%nat)
       default_brands
  /\ Forall (fun k => occurrences k (map warranty_name (warranty_rows c)) = 1%nat)
       (map fst default_warranties)
  /\ Forall (fun k => occurrences k (map name (product_rows c)) = 1%nat)
       (map entry_name products_table).

(** * Properties *)

(** ** The exception monad *)

Lemma bind_ok {A B : Type} (a : A) (f : A -> result B) : (Ok a ≫= f) = f a.
Proof. reflexivity. Qed.

Lemma bind_raise {A B : Type} (e : exn) (f : A -> result B) :
  (Raise e ≫= f) = Raise e.
Proof. reflexivity. Qed.

Lemma bind_ok_inv {A B : Type} (r : result A) (f : A -> result B) (b : B) :
  (r ≫= f) = Ok b -> exists a, r = Ok a /\ f a = Ok b.
Proof. destruct r as [a|e]; [eauto | discriminate]. Qed.

(** ** Bounds on binary64 rounding *)

Lemma digits2_pos_lt (p : positive) : Zpos p < 2 ^ Zpos (digits2_pos p).
Proof.
  induction p as [p IH | p IH |]; simpl digits2_pos;
    rewrite ?Pos2Z.inj_succ, ?Z.pow_succ_r by lia; lia.
Qed.

Lemma digits2_pos_le (p : positive) :
  forall k, 0 <= k -> Zpos p < 2 ^ k -> Zpos (digits2_pos p) <= k.
Proof.
  induction p as [p IH | p IH |]; intros k Hk Hlt; simpl digits2_pos.
  - destruct (Z.eq_dec k 0) as [-> | Hne]; [simpl in Hlt; lia|].
    replace k with (Z.succ (k - 1)) in Hlt by lia.
    rewrite Z.pow_succ_r in Hlt by lia.
    specialize (IH (k - 1) ltac:(lia) ltac:(lia)). lia.
  - destruct (Z.eq_dec k 0) as [-> | Hne]; [simpl in Hlt; lia|].
    replace k with (Z.succ (k - 1)) in Hlt by lia.
    rewrite Z.pow_succ_r in Hlt by lia.
    specialize (IH (k - 1) ltac:(lia) ltac:(lia)). lia.
  - destruct (Z.eq_dec k 0) as [-> | Hne]; [simpl in Hlt; lia|]. lia.
Qed.

Lemma Zdigits2_le (z k : Z) : 0 <= z < 2 ^ k -> 0 <= k -> 0 <= Zdigits2 z <= k.
Proof.
  intros [H0 H1] Hk. destruct z as [|p|p]; simpl; try lia.
  split; [lia | now apply digits2_pos_le].
Qed.

Lemma shr_1_halves (j m0 : Z) (mrs : shr_record) :
  0 <= j ->
  0 <= shr_m mrs /\ 2 ^ j * shr_m mrs <= m0 ->
  0 <= shr_m (shr_1 mrs) /\ 2 ^ (j + 1) * shr_m (shr_1 mrs) <= m0.
Proof.
  intros Hj [H0 H1]. rewrite Z.pow_add_r by lia. change (2 ^ 1) with 2.
  assert (0 < 2 ^ j) by (apply Z.pow_pos_nonneg; lia).
  destruct mrs as [m r s]. simpl in *.
  destruct m as [|[p|p|]|[p|p|]]; simpl; lia.
Qed.

Lemma iter_shr_1_halves (m0 : Z) (n : positive) :
  forall j mrs, 0 <= j ->
    0 <= shr_m mrs /\ 2 ^ j * shr_m mrs <= m0 ->
    0 <= shr_m (SpecFloat.iter_pos shr_1 n mrs)
    /\ 2 ^ (j + Zpos n) * shr_m (SpecFloat.iter_pos shr_1 n mrs) <= m0.
Proof.
  induction n as [n IH | n IH |]; intros j mrs Hj H; simpl SpecFloat.iter_pos.
  - replace (j + Zpos n~1) with ((j + 1 + Zpos n) + Zpos n) by lia.
    apply IH; [lia|]. apply IH; [lia|]. now apply shr_1_halves.
  - replace (j + Zpos n~0) with ((j + Zpos n) + Zpos n) by lia.
    apply IH; [lia|]. now apply IH.
  - now apply shr_1_halves.
Qed.

(** The first step of rounding leaves a mantissa of at most 53 bits. *)
Lemma shr_fexp_canonical (m e : Z) (l : location) :
  0 <= m ->
  0 <= shr_m (fst (shr_fexp Float.prec Float.emax m e l)) < 2 ^ 53
  /\ snd (shr_fexp Float.prec Float.emax m e l)
     = Z.max e (fexp Float.prec Float.emax (Zdigits2 m + e)).
Proof.
  intros Hm. unfold shr_fexp, shr.
  set (d := Zdigits2 m).
  assert (Hd : 0 <= d /\ m < 2 ^ d).
  { subst d. destruct m as [|p|p]; simpl; try lia.
    split; [lia | apply digits2_pos_lt]. }
  assert (Hrec : shr_m (shr_record_of_loc m l) = m)
    by (destruct l as [|[]]; reflexivity).
  unfold fexp, SpecFloat.emin, Float.prec, Float.emax.
  destruct (Z.max (d + e - 53) (3 - 1024 - 53) - e) as [|n|n] eqn:Hn; simpl.
  - rewrite Hrec. split; [|lia]. split; [lia|].
    assert (2 ^ d <= 2 ^ 53) by (apply Z.pow_le_mono_r; lia). lia.
  - destruct (iter_shr_1_halves m n 0 (shr_record_of_loc m l)) as [H0 H1];
      [lia | rewrite Hrec; simpl; lia |].
    split; [|lia]. split; [exact H0|].
    rewrite Z.add_0_l in H1.
    set (m' := shr_m (SpecFloat.iter_pos shr_1 n (shr_record_of_loc m l))) in *.
    destruct (Z.lt_ge_cases m' (2 ^ 53)) as [|Hge]; [assumption|exfalso].
    assert (2 ^ (Zpos n + 53) <= 2 ^ Zpos n * m')
      by (rewrite Z.pow_add_r by lia;
          apply Z.mul_le_mono_nonneg_l; [apply Z.pow_nonneg|]; lia).
    assert (2 ^ d <= 2 ^ (Zpos n + 53)) by (apply Z.pow_le_mono_r; lia).
    lia.
  - rewrite Hrec. split; [|lia]. split; [lia|].
    assert (2 ^ d <= 2 ^ 53) by (apply Z.pow_le_mono_r; lia). lia.
Qed.

Lemma round_nearest_even_bounds (m : Z) (l : location) :
  m <= round_nearest_even m l <= m + 1.
Proof.
  destruct l as [|[]]; simpl; try lia. destruct (Z.even m); lia.
Qed.

Lemma binary_round_aux_small (B : Z) (s : bool) (m e k : Z) (l : location) :
  0 <= m < 2 ^ k -> 0 <= k ->
  e + 1 <= B -> e + k - 52 <= B -> -1073 <= B <= 971 ->
  small_le B (binary_round_aux Float.prec Float.emax s m e l) = true.
Proof.
  intros Hm Hk He1 He2 HB. unfold binary_round_aux.
  destruct (shr_fexp_canonical m e l) as [H1 H2]; [lia|].
  destruct (shr_fexp Float.prec Float.emax m e l) as [mrs' e'].
  simpl in H1, H2.
  pose proof (round_nearest_even_bounds (shr_m mrs') (loc_of_shr_record mrs')) as Hr.
  set (m1 := round_nearest_even (shr_m mrs') (loc_of_shr_record mrs')) in *.
  destruct (shr_fexp_canonical m1 e' loc_Exact) as [H3 H4]; [lia|].
  destruct (shr_fexp Float.prec Float.emax m1 e' loc_Exact) as [mrs'' e''].
  simpl in H3, H4.
  assert (Hd : 0 <= Zdigits2 m <= k) by (apply Zdigits2_le; lia).
  assert (Hd1 : 0 <= Zdigits2 m1 <= 54).
  { apply Zdigits2_le; [|lia]. change (2 ^ 54) with (2 * 2 ^ 53). lia. }
  unfold fexp, SpecFloat.emin, Float.prec, Float.emax in *.
  destruct (shr_m mrs'') as [|p|p]; try reflexivity; try lia.
  destruct (Z.leb e'' (1024 - 53)) eqn:Hle.
  - simpl. apply andb_true_intro. split; [apply Z.ltb_lt | apply Z.leb_le]; lia.
  - apply Z.leb_gt in Hle. exfalso. lia.
Qed.

Lemma mul_small (Bx By B : Z) (x y : float) :
  small_le Bx x = true -> small_le By y = true ->
  Bx + By + 54 <= B -> -1073 <= B <= 971 ->
  small_le B (Float.mul x y) = true.
Proof.
  unfold small_le at 1 2.
  destruct x as [sx|sx| |sx mx ex], y as [sy|sy| |sy my ey];
    try discriminate; try reflexivity.
  intros Hx Hy HB1 HB2.
  apply andb_prop in Hx as [Hmx Hex]. apply andb_prop in Hy as [Hmy Hey].
  apply Z.ltb_lt in Hmx, Hmy. apply Z.leb_le in Hex, Hey.
  unfold Float.mul, SFmul.
  apply (binary_round_aux_small _ _ _ _ 106); try lia.
  rewrite Pos2Z.inj_mul. change 106 with (53 + 53).
  rewrite Z.pow_add_r by lia. nia.
Qed.

Lemma small_le_finite (B : Z) (x : float) :
  small_le B x = true -> Float.is_finite x = true.
Proof. destruct x; simpl; congruence. Qed.

Lemma finite_to_int (x : float) :
  Float.is_finite x = true -> exists n, Float.to_int x = Some n.
Proof. destruct x; try discriminate; simpl; eauto. Qed.

Lemma int_of_float_finite (x : float) n :
  Float.to_int x = Some n -> int_of_float x = Ok n.
Proof.
  unfold int_of_float. destruct x; try discriminate; intros H; rewrite H; reflexivity.
Qed.

(** ** Calendar facts *)

Lemma forallb_range (P : Z -> bool) (n : nat) :
  forallb P (map Z.of_nat (seq 0 n)) = true ->
  forall k, 0 <= k < Z.of_nat n -> P k = true.
Proof.
  intros H k Hk. rewrite forallb_forall in H. apply H.
  apply in_map_iff. exists (Z.to_nat k). split; [lia|].
  apply in_seq. lia.
Qed.

Lemma ord2ymd_month_range (n : Z) :
  1 <= snd (fst (Datetime._ord2ymd n)) <= 12.
Proof.
  unfold Datetime._ord2ymd. cbv zeta.
  set (r := (((n - 1) mod Datetime._DI400Y) mod Datetime._DI100Y
             mod Datetime._DI4Y) mod 365).
  assert (Hr : 0 <= r < 365) by (apply Z.mod_pos_bound; lia).
  destruct (_ || _); [simpl; lia|].
  rewrite !Z.shiftr_div_pow2 by lia.
  change (2 ^ 5) with 32.
  assert (Hm : 1 <= (r + 50) / 32 < 13).
  { split; [apply Z.div_le_lower_bound; lia | apply Z.div_lt_upper_bound; lia]. }
  set (m := (r + 50) / 32) in *.
  destruct (Z.eq_dec m 1) as [Hm1 | Hm1].
  - rewrite Hm1. change (2 <? 1) with false. cbn [andb].
    change (Datetime.tbl Datetime._DAYS_BEFORE_MONTH 1) with 0.
    destruct (r <? 0 + 0) eqn:Hlt; [apply Z.ltb_lt in Hlt; lia|].
    simpl; lia.
  - destruct (r <? _); simpl; lia.
Qed.

Lemma month_range (d : Z) : 1 <= Datetime.month d <= 12.
Proof. apply ord2ymd_month_range. Qed.

Lemma weekday_range (d : Z) : 0 <= Datetime.weekday d <= 6.
Proof.
  unfold Datetime.weekday.
  pose proof (Z.mod_pos_bound (Datetime.toordinal d + 6) 7). lia.
Qed.

(** ** The seasonal and weekday multipliers *)

Lemma seasonal_by_month (date : Z) :
  exists m, month_of date = Some m
            /\ _get_seasonal_multiplier date = seasonal_table m.
Proof.
  pose proof (month_range date) as H.
  unfold month_of, _get_seasonal_multiplier.
  assert (Hc : In (Datetime.month date) [1;2;3;4;5;6;7;8;9;10;11;12])
    by (simpl; lia).
  simpl in Hc.
  repeat (destruct Hc as [Hc | Hc]; [rewrite <- Hc; eexists; split; reflexivity|]).
  contradiction.
Qed.

Lemma weekday_by_day (date : Z) :
  exists d, day_of_week date = Some d
            /\ _get_weekday_multiplier date = weekday_table d.
Proof.
  pose proof (weekday_range date) as H.
  unfold day_of_week, _get_weekday_multiplier.
  assert (Hc : In (Datetime.weekday date) [0;1;2;3;4;5;6]) by (simpl; lia).
  simpl in Hc.
  repeat (destruct Hc as [Hc | Hc]; [rewrite <- Hc; eexists; split; reflexivity|]).
  contradiction.
Qed.

(** C8. For every date the seasonal multiplier is the literal 1.5 in
    December, 0.7 in January and February, 1.3 in July and August, 1.2 in
    June and November and 1.0 in every other month, and the weekday
    multiplier is 1.3 on Saturday and Sunday, 1.1 on Friday and 1.0 on
    every other day. *)
Theorem C8_seasonal_and_weekday_multipliers (date : Z) :
  exists m d,
    month_of date = Some m /\ day_of_week date = Some d
    /\ _get_seasonal_multiplier date = seasonal_table m
    /\ _get_weekday_multiplier date = weekday_table d.
Proof.
  destruct (seasonal_by_month date) as (m & Hm & Hs).
  destruct (weekday_by_day date) as (d & Hd & Hw).
  exists m, d. auto.
Qed.

(** ** The trend multiplier on the constructed window *)

Lemma mul_comm (x y : float) : Float.mul x y = Float.mul y x.
Proof.
  unfold Float.mul.
  destruct x as [sx|sx| |sx mx ex], y as [sy|sy| |sy my ey]; simpl;
    try reflexivity; try (f_equal; apply xorb_comm).
  rewrite xorb_comm, Pos.mul_comm, Z.add_comm. reflexivity.
Qed.

Section ConstructedWindow.

Variables now1 now2 : Z.
Hypothesis Hnow : now1 <= now2 < now1 + Datetime.US_PER_DAY.

Let g := __init__ now1 now2.

Lemma window_total_days :
  Datetime.days (end_date g - start_date g) = 730.
Proof.
  unfold Datetime.days, g, __init__, Datetime.timedelta_of; simpl.
  unfold Datetime.US_PER_DAY in *.
  symmetry. apply (Z.div_unique _ _ _ (now2 - now1)); lia.
Qed.

Lemma window_days_from_start (date : Z) :
  in_window g date ->
  0 <= Datetime.days (date - start_date g) <= 730.
Proof.
  unfold in_window, Datetime.days, g, __init__, Datetime.timedelta_of; simpl.
  unfold Datetime.US_PER_DAY in *. intros H.
  split.
  - apply Z.div_pos; lia.
  - apply Z.lt_succ_r. apply Z.div_lt_upper_bound; lia.
Qed.

End ConstructedWindow.

Lemma trend_steps : forallb trend_step_ok (map Z.of_nat (seq 0 730)) = true.
Proof. vm_compute. reflexivity. Qed.

Lemma trend_at_mantissa (k : Z) :
  0 <= k <= 730 -> exists a, mantissa52 (trend_at k) = Some a.
Proof.
  intros Hk.
  destruct (Z.eq_dec k 730) as [-> | Hne].
  - eexists. vm_compute. reflexivity.
  - pose proof (forallb_range _ _ trend_steps k ltac:(lia)) as H.
    unfold trend_step_ok in H.
    destruct (mantissa52 (trend_at k)); [eauto | discriminate].
Qed.

Lemma trend_at_mono_nat (n : nat) (k : Z) a b :
  0 <= k -> k + Z.of_nat n <= 730 ->
  mantissa52 (trend_at k) = Some a ->
  mantissa52 (trend_at (k + Z.of_nat n)) = Some b ->
  a <= b.
Proof.
  revert b. induction n as [|n IH]; intros b Hk Hn Ha Hb.
  - replace (k + Z.of_nat 0) with k in Hb by lia.
    assert (a = b) by congruence. lia.
  - destruct (trend_at_mantissa (k + Z.of_nat n)) as [c Hc]; [lia|].
    specialize (IH c Hk ltac:(lia) Ha Hc).
    pose proof (forallb_range _ _ trend_steps (k + Z.of_nat n) ltac:(lia)) as H.
    unfold trend_step_ok in H. rewrite Hc in H.
    replace (k + Z.of_nat n + 1) with (k + Z.of_nat (S n)) in H by lia.
    rewrite Hb in H. apply Z.leb_le in H. lia.
Qed.

Lemma mantissa52_leb (x y : float) a b :
  mantissa52 x = Some a -> mantissa52 y = Some b -> a <= b ->
  Float.leb x y = true.
Proof.
  unfold mantissa52.
  destruct x as [| | |[] mx ex]; try discriminate.
  destruct (ex =? -52) eqn:Hex; try discriminate.
  destruct y as [| | |[] my ey]; try discriminate.
  destruct (ey =? -52) eqn:Hey; try discriminate.
  apply Z.eqb_eq in Hex, Hey. subst ex ey.
  intros [= <-] [= <-] Hle.
  unfold Float.leb, SFleb, SFcompare.
  change (Z.compare (-52) (-52)) with Eq. cbv iota.
  change (Pos.compare_cont Eq mx my) with (Pos.compare mx my).
  destruct (Pos.compare mx my) eqn:Hc; try reflexivity.
  apply Pos.compare_gt_iff in Hc. lia.
Qed.

Lemma trend_at_mono (k1 k2 : Z) :
  0 <= k1 -> k1 <= k2 -> k2 <= 730 ->
  Float.leb (trend_at k1) (trend_at k2) = true.
Proof.
  intros H1 H12 H2.
  destruct (trend_at_mantissa k1) as [a Ha]; [lia|].
  destruct (trend_at_mantissa k2) as [b Hb]; [lia|].
  apply (mantissa52_leb _ _ a b Ha Hb).
  apply (trend_at_mono_nat (Z.to_nat (k2 - k1)) k1); try lia; trivial.
  replace (k1 + Z.of_nat (Z.to_nat (k2 - k1))) with k2 by lia. exact Hb.
Qed.

Lemma trend_on_window (now1 now2 date : Z) :
  now1 <= now2 < now1 + Datetime.US_PER_DAY ->
  in_window (__init__ now1 now2) date ->
  _get_trend_multiplier (__init__ now1 now2) date
  = Ok (trend_at (Datetime.days (date - start_date (__init__ now1 now2)))).
Proof.
  intros Hnow Hin. unfold _get_trend_multiplier.
  rewrite (window_total_days now1 now2 Hnow). reflexivity.
Qed.

(** C9. On the window the constructor builds, the trend multiplier of
    every date is [1.0 + 0.5 * (days_since_start / total_window_days)] in
    the float arithmetic of the code; it is exactly 1.0 at the window
    start, exactly 1.5 at the window end, and non-decreasing over the
    window. *)
Theorem C9_trend_multiplier (now1 now2 : Z)
    (Hnow : now1 <= now2 < now1 + Datetime.US_PER_DAY) :
  let g := __init__ now1 now2 in
  (forall date, in_window g date ->
     _get_trend_multiplier g date
     = Ok (trend_formula (Datetime.days (date - start_date g))
             (Datetime.days (end_date g - start_date g))))
  /\ _get_trend_multiplier g (start_date g) = Ok (Float.dec 10 1)
  /\ _get_trend_multiplier g (end_date g) = Ok (Float.dec 15 1)
  /\ (forall d1 d2, in_window g d1 -> in_window g d2 -> d1 <= d2 ->
        exists t1 t2, _get_trend_multiplier g d1 = Ok t1
                      /\ _get_trend_multiplier g d2 = Ok t2
                      /\ Float.leb t1 t2 = true).
Proof.
  intros g.
  assert (Hstart : in_window g (start_date g)).
  { unfold in_window, g, __init__, Datetime.timedelta_of, Datetime.US_PER_DAY in *.
    simpl. lia. }
  assert (Hend : in_window g (end_date g)).
  { unfold in_window, g, __init__, Datetime.timedelta_of, Datetime.US_PER_DAY in *.
    simpl. lia. }
  repeat split.
  - intros date Hin. subst g. rewrite trend_on_window by assumption.
    rewrite (window_total_days now1 now2 Hnow).
    unfold trend_formula, trend_at. now rewrite mul_comm.
  - subst g. rewrite trend_on_window by assumption.
    rewrite Z.sub_diag. reflexivity.
  - subst g. rewrite trend_on_window by assumption.
    rewrite (window_total_days now1 now2 Hnow). vm_compute. reflexivity.
  - intros d1 d2 H1 H2 Hle. subst g.
    rewrite !trend_on_window by assumption.
    do 2 eexists. repeat split.
    pose proof (window_days_from_start now1 now2 Hnow d1 H1).
    pose proof (window_days_from_start now1 now2 Hnow d2 H2).
    apply trend_at_mono; try lia.
    unfold Datetime.days. apply Z.div_le_mono; [reflexivity | lia].
Qed.

Lemma C9_trend_multiplier_witness :
  demo_now <= demo_now < demo_now + Datetime.US_PER_DAY
  /\ _get_trend_multiplier demo_generator (start_date demo_generator)
     = Ok (Float.dec 10 1).
Proof.
  assert (H : demo_now <= demo_now < demo_now + Datetime.US_PER_DAY)
    by (unfold Datetime.US_PER_DAY; lia).
  split; [exact H|].
  exact (proj1 (proj2 (C9_trend_multiplier demo_now demo_now H))).
Defined.

(** ** The daily transaction count *)

Lemma trend_table :
  forallb (fun k => small_le 0 (trend_at k)) (map Z.of_nat (seq 0 731)) = true.
Proof. vm_compute. reflexivity. Qed.

Lemma base_table :
  forallb (fun b => small_le 0 (Float.of_Z b)) (map Z.of_nat (seq 0 16)) = true.
Proof. vm_compute. reflexivity. Qed.

Lemma seasonal_small (date : Z) :
  small_le 0 (_get_seasonal_multiplier date) = true.
Proof.
  unfold _get_seasonal_multiplier.
  repeat match goal with |- context [if ?c then _ else _] => destruct c end;
    vm_compute; reflexivity.
Qed.

Lemma weekday_small (date : Z) :
  small_le 0 (_get_weekday_multiplier date) = true.
Proof.
  unfold _get_weekday_multiplier.
  repeat match goal with |- context [if ?c then _ else _] => destruct c end;
    vm_compute; reflexivity.
Qed.

Lemma dec_8_1 : Float.dec 8 1 = S754_finite false 7205759403792794 (-53).
Proof. vm_compute. reflexivity. Qed.

Lemma dec_12_1 : Float.dec 12 1 = S754_finite false 5404319552844595 (-52).
Proof. vm_compute. reflexivity. Qed.

Lemma valid_mantissa (s : bool) (m : positive) (e : Z) :
  Float.valid (S754_finite s m e) = true -> Zpos m < 2 ^ 53.
Proof.
  unfold Float.valid, valid_binary, bounded, canonical_mantissa, fexp,
    SpecFloat.emin, Float.prec, Float.emax.
  intros H. apply andb_prop in H as [H _]. apply Z.eqb_eq in H.
  pose proof (digits2_pos_lt m) as Hd.
  assert (Hle : 2 ^ Zpos (digits2_pos m) <= 2 ^ 53)
    by (apply Z.pow_le_mono_r; lia).
  lia.
Qed.

Lemma noise_small (noise : float) :
  Float.valid noise = true ->
  Float.leb (Float.dec 8 1) noise = true ->
  Float.leb noise (Float.dec 12 1) = true ->
  small_le (-52) noise = true.
Proof.
  rewrite dec_8_1, dec_12_1. intros Hv Hlo Hhi.
  destruct noise as [s|s| |s m e].
  - destruct s; cbv in Hlo; discriminate Hlo.
  - destruct s; cbv in Hlo, Hhi; congruence.
  - cbv in Hlo; discriminate Hlo.
  - destruct s; [cbv in Hlo; discriminate Hlo|].
    unfold small_le. apply andb_true_intro. split.
    + apply Z.ltb_lt. exact (valid_mantissa _ _ _ Hv).
    + apply Z.leb_le. unfold Float.leb, SFleb, SFcompare in Hhi.
      destruct (Z.compare_spec e (-52)); try lia; discriminate.
Qed.

Lemma randint_range (a b : Z) (n : N) : a <= b -> a <= randint a b n <= b.
Proof.
  intros H. unfold randint.
  pose proof (Z.mod_pos_bound (Z.of_N n) (b - a + 1) ltac:(lia)). lia.
Qed.

(** C4 (as stated, refuted). On Monday 2024-01-01, the first day of the
    window built on 2025-12-31, with base 5 and noise 1.1 the product is
    3.85...: the code returns 3 where rounding gives 4. *)
Lemma C4_counterexample :
  let now := Datetime.make 2025 12 31 0 0 in
  let g := __init__ now now in
  let dr := {| base_bits := 0; random_factor := Float.dec 11 1 |} in
  in_window g (start_date g)
  /\ randint 5 15 (base_bits dr) = 5
  /\ noise_in_range (random_factor dr)
  /\ _generate_daily_sales_count g (start_date g) dr = Ok 3
  /\ daily_count_rounded g (start_date g) dr = Ok 4.
Proof.
  cbv zeta. repeat split; try (vm_compute; reflexivity); vm_compute; discriminate.
Qed.

(** C4 (amended). On the constructed window, for every date, every base
    draw and every noise in [0.8, 1.2], the call returns
    [max(1, int(base * seasonal * trend * weekday * noise))]: the product
    truncated toward zero, an integer of at least 1, with the base in
    5..15. *)
Theorem C4_daily_count_truncates (now1 now2 date : Z) (dr : DailyDraws)
    (Hnow : now1 <= now2 < now1 + Datetime.US_PER_DAY)
    (Hin : in_window (__init__ now1 now2) date)
    (Hnoise : noise_in_range (random_factor dr)) :
  let g := __init__ now1 now2 in
  let base := randint 5 15 (base_bits dr) in
  exists trend n,
    _get_trend_multiplier g date = Ok trend
    /\ Float.to_int (demand_product base (_get_seasonal_multiplier date) trend
                       (_get_weekday_multiplier date) (random_factor dr))
       = Some n
    /\ _generate_daily_sales_count g date dr = Ok (Z.max 1 n)
    /\ 1 <= Z.max 1 n
    /\ 5 <= base <= 15.
Proof.
  intros g base.
  pose proof (randint_range 5 15 (base_bits dr) ltac:(lia)) as Hb. fold base in Hb.
  pose proof (window_days_from_start now1 now2 Hnow date Hin) as Hk.
  destruct Hnoise as (Hv & Hlo & Hhi).
  set (k := Datetime.days (date - start_date (__init__ now1 now2))) in *.
  assert (H0 : small_le 0 (Float.of_Z base) = true)
    by (apply (forallb_range _ _ base_table); lia).
  assert (H1 := mul_small 0 0 54 _ _ H0 (seasonal_small date) ltac:(lia) ltac:(lia)).
  assert (Ht : small_le 0 (trend_at k) = true)
    by (apply (forallb_range _ _ trend_table); lia).
  assert (H2 := mul_small 54 0 108 _ _ H1 Ht ltac:(lia) ltac:(lia)).
  assert (H3 := mul_small 108 0 162 _ _ H2 (weekday_small date) ltac:(lia) ltac:(lia)).
  assert (H4 := mul_small 162 (-52) 164 _ _ H3 (noise_small _ Hv Hlo Hhi)
                  ltac:(lia) ltac:(lia)).
  apply small_le_finite, finite_to_int in H4 as [n Hn].
  exists (trend_at k), n.
  assert (Htr : _get_trend_multiplier g date = Ok (trend_at k))
    by (apply trend_on_window; assumption).
  repeat split; try lia; try assumption.
  unfold _generate_daily_sales_count. cbv zeta. rewrite Htr, bind_ok.
  fold base. unfold demand_product in Hn.
  rewrite (int_of_float_finite _ _ Hn). reflexivity.
Qed.

Lemma C4_daily_count_truncates_witness :
  let now := Datetime.make 2025 12 31 0 0 in
  let dr := {| base_bits := 0; random_factor := Float.dec 11 1 |} in
  now <= now < now + Datetime.US_PER_DAY
  /\ in_window (__init__ now now) (start_date (__init__ now now))
  /\ noise_in_range (random_factor dr)
  /\ 5 <= randint 5 15 (base_bits dr) <= 15.
Proof.
  intros now dr.
  assert (H1 : now <= now < now + Datetime.US_PER_DAY)
    by (unfold Datetime.US_PER_DAY; lia).
  assert (H2 : in_window (__init__ now now) (start_date (__init__ now now)))
    by (vm_compute; split; discriminate).
  assert (H3 : noise_in_range (random_factor dr))
    by (repeat split; vm_compute; reflexivity).
  split; [exact H1 | split; [exact H2 | split; [exact H3|]]].
  destruct (C4_daily_count_truncates now now _ dr H1 H2 H3)
    as (t & n & _ & _ & _ & _ & Hb).
  exact Hb.
Defined.

(** ** The basket sampler *)

Lemma add_zero_zero (x y : float) :
  is_zero x = true -> is_zero y = true -> is_zero (Float.add x y) = true.
Proof.
  destruct x as [[]| | |], y as [[]| | |]; try discriminate; reflexivity.
Qed.

Lemma accumulate_from_length (acc : float) (ws : list float) :
  length (Choices.accumulate_from acc ws) = length ws.
Proof. revert acc. induction ws; intros acc; simpl; auto. Qed.

Lemma accumulate_length (ws : list float) :
  length (Choices.accumulate ws) = length ws.
Proof. destruct ws; simpl; [|rewrite accumulate_from_length]; reflexivity. Qed.

Lemma accumulate_from_zero (acc : float) (ws : list float) :
  is_zero acc = true -> Forall (fun w => is_zero w = true) ws ->
  Forall (fun w => is_zero w = true) (Choices.accumulate_from acc ws).
Proof.
  intros Ha Hws. revert acc Ha.
  induction Hws as [|w ws Hw _ IH]; intros acc Ha; simpl; constructor.
  - now apply add_zero_zero.
  - apply IH. now apply add_zero_zero.
Qed.

Lemma accumulate_zero (ws : list float) :
  Forall (fun w => is_zero w = true) ws ->
  Forall (fun w => is_zero w = true) (Choices.accumulate ws).
Proof.
  intros H. destruct H as [|w ws Hw Hws]; simpl; constructor; trivial.
  now apply accumulate_from_zero.
Qed.

Lemma last_Forall {A : Type} (P : A -> Prop) (l : list A) :
  l <> [] -> Forall P l -> exists x, last l = Some x /\ P x.
Proof.
  intros Hne H. induction H as [|x l Hx Hl IH]; [contradiction|].
  destruct l as [|y l'].
  - exists x. auto.
  - destruct IH as (z & Hz & Pz); [discriminate|].
    exists z. split; [|exact Pz]. simpl in *. exact Hz.
Qed.

(** With a total weight of zero [random.choices] raises. *)
Lemma choices_zero_weights (n : nat) (ws : list float) (k : nat)
    (u : nat -> float) :
  ws <> [] -> length ws = n -> Forall (fun w => is_zero w = true) ws ->
  Choices.choices n ws k u = Raise ValueError.
Proof.
  intros Hne Hlen Hz. unfold Choices.choices. cbv zeta.
  rewrite accumulate_length, Hlen, Nat.eqb_refl. cbn [negb].
  destruct (last_Forall (fun w => is_zero w = true) (Choices.accumulate ws))
    as (x & Hx & Zx).
  - intros E. apply (f_equal (@length float)) in E.
    rewrite accumulate_length in E. destruct ws; [contradiction | discriminate].
  - apply accumulate_zero, Hz.
  - rewrite Hx. cbn [of_option]. rewrite bind_ok.
    destruct x as [[]| | |]; try discriminate; reflexivity.
Qed.

Lemma bisect_loop_le (fuel : nat) (a : list float) (x : float) :
  forall lo hi, (lo <= hi)%nat ->
    (lo <= Choices.bisect_loop fuel a x lo hi <= hi)%nat.
Proof.
  induction fuel as [|fuel IH]; intros lo hi Hle;
    cbn [Choices.bisect_loop]; [lia|].
  cbv zeta. destruct (lo <? hi)%nat eqn:Hlt; [|lia].
  apply Nat.ltb_lt in Hlt.
  assert (Hmid : (lo <= (lo + hi) / 2 < hi)%nat).
  { split; [apply Nat.div_le_lower_bound | apply Nat.Div0.div_lt_upper_bound]; lia. }
  destruct (Float.ltb x _).
  - specialize (IH lo ((lo + hi) / 2)%nat ltac:(lia)). lia.
  - specialize (IH ((lo + hi) / 2 + 1)%nat hi ltac:(lia)). lia.
Qed.

(** The basket size is drawn whatever [random.random()] returns. *)
Lemma num_items_drawn (u : float) :
  exists n,
    Choices.choices1 [1%nat; 2%nat; 3%nat; 4%nat]
      [Float.dec 5 1; Float.dec 3 1; Float.dec 15 2; Float.dec 5 2] u = Ok n.
Proof.
  unfold Choices.choices1, Choices.choices. cbv zeta.
  set (cum := Choices.accumulate _).
  change (length cum) with 4%nat. change (length [1%nat; 2%nat; 3%nat; 4%nat]) with 4%nat.
  cbn [Nat.eqb negb].
  replace (last cum) with (Some (S754_finite false 4503599627370496 (-52)))
    by (vm_compute; reflexivity).
  cbn [of_option]. rewrite bind_ok.
  set (total := Float.add _ _).
  replace (Float.leb total (S754_zero false)) with false by (vm_compute; reflexivity).
  replace (Float.is_finite total) with true by (vm_compute; reflexivity).
  cbn [negb seq map]. rewrite bind_ok. cbn [head of_option]. rewrite bind_ok.
  pose proof (bisect_loop_le (3 - 0) cum (Float.mul u total) 0 3 ltac:(lia)) as H.
  unfold Choices.bisect. change (4 - 1)%nat with 3%nat.
  set (pos := Choices.bisect_loop _ _ _ _ _) in *.
  assert (Hc : pos = 0%nat \/ pos = 1%nat \/ pos = 2%nat \/ pos = 3%nat) by lia.
  destruct Hc as [-> | [-> | [-> | ->]]]; eexists; reflexivity.
Qed.

(** C6 (as stated, refuted). A one-product catalog whose weight is 0.0:
    the sampler raises [ValueError] instead of returning a basket. *)
Lemma C6_counterexample :
  let p := {| pk := 1; name := "Plancha Vertical"; price := 9000;
              category := None; stock := 20; description := "";
              brand := None; warranty := None; image := "";
              rating := None; energy_kwh_per_year := None;
              _popularity := Some (S754_zero false) |} in
  let dr := {| u_num_items := Float.dec 25 2;
               u_product := fun _ => Float.dec 5 1;
               u_quantity := fun _ => Float.dec 5 1 |} in
  Forall zero_weight [p]
  /\ _generate_order_items [p] dr = Raise ValueError.
Proof.
  cbv zeta. split; [|vm_compute; reflexivity].
  constructor; [|constructor]. exists false. reflexivity.
Qed.

(** C6 (amended). For every non-empty catalog whose popularity weights
    are all zero and for every draw, the basket sampler raises
    [ValueError]: the weights go unguarded to [random.choices], which
    rejects a total weight of zero; there is no uniform fallback. *)
Theorem C6_zero_weights_raise (products : list Product) (dr : BasketDraws)
    (Hne : products <> [])
    (Hzero : Forall zero_weight products) :
  _generate_order_items products dr = Raise ValueError.
Proof.
  unfold _generate_order_items.
  destruct (num_items_drawn (u_num_items dr)) as [n ->]. rewrite bind_ok.
  rewrite choices_zero_weights; try reflexivity.
  - destruct products; [contradiction | discriminate].
  - apply length_map.
  - apply Forall_map. eapply Forall_impl; [exact Hzero|].
    intros p [s Hs]. unfold popularity_weight. rewrite Hs. reflexivity.
Qed.

Lemma C6_zero_weights_raise_witness :
  let p := {| pk := 1; name := "Plancha Vertical"; price := 9000;
              category := None; stock := 20; description := "";
              brand := None; warranty := None; image := "";
              rating := None; energy_kwh_per_year := None;
              _popularity := Some (S754_zero false) |} in
  let dr := {| u_num_items := Float.dec 25 2;
               u_product := fun _ => Float.dec 5 1;
               u_quantity := fun _ => Float.dec 5 1 |} in
  [p] <> [] /\ Forall zero_weight [p]
  /\ _generate_order_items [p] dr = Raise ValueError.
Proof.
  intros p dr.
  assert (H1 : [p] <> []) by discriminate.
  assert (H2 : Forall zero_weight [p])
    by (constructor; [exists false; reflexivity | constructor]).
  split; [exact H1 | split; [exact H2|]].
  exact (C6_zero_weights_raise [p] dr H1 H2).
Defined.

(** ** MetricBackfill *)

Lemma ensure_metrics_keeps_rating (p : Product) (dr : MetricDraws)
    (t : list Product) (r : Z) :
  rating p = Some r ->
  rating (out_product (_ensure_product_metrics p dr t)) = Some r.
Proof.
  intros Hr. unfold _ensure_product_metrics. rewrite Hr.
  destruct (energy_kwh_per_year p) eqn:He; simpl; trivial.
  destruct (derive_energy p dr); simpl; trivial.
Qed.

Lemma ensure_metrics_keeps_energy (p : Product) (dr : MetricDraws)
    (t : list Product) (e : float) :
  energy_kwh_per_year p = Some e ->
  energy_kwh_per_year (out_product (_ensure_product_metrics p dr t)) = Some e.
Proof.
  intros He. unfold _ensure_product_metrics.
  destruct (rating p) eqn:Hr; [rewrite He; simpl; trivial|].
  destruct (derive_rating p dr); simpl; rewrite He; simpl; trivial.
Qed.

Lemma ensure_metrics_noop (p : Product) (dr : MetricDraws) (t : list Product)
    (r : Z) (e : float) :
  rating p = Some r -> energy_kwh_per_year p = Some e ->
  _ensure_product_metrics p dr t
  = {| out_product := p; out_table := t; out_save_called := false |}.
Proof.
  intros Hr He. unfold _ensure_product_metrics. rewrite Hr, He. reflexivity.
Qed.

(** C7. [_ensure_product_metrics] never overwrites a rating or an energy
    estimate that is already set, and once both are set a further call is
    a no-op: the object and the table are returned as they were and
    nothing is saved, whatever the draws. *)
Theorem C7_metric_backfill_idempotent (p : Product) (dr1 dr2 : MetricDraws)
    (t : list Product) :
  let o1 := _ensure_product_metrics p dr1 t in
  let o2 := _ensure_product_metrics (out_product o1) dr2 (out_table o1) in
  (forall r, rating p = Some r -> rating (out_product o1) = Some r)
  /\ (forall e, energy_kwh_per_year p = Some e ->
        energy_kwh_per_year (out_product o1) = Some e)
  /\ (forall r, rating (out_product o1) = Some r ->
        rating (out_product o2) = Some r)
  /\ (forall e, energy_kwh_per_year (out_product o1) = Some e ->
        energy_kwh_per_year (out_product o2) = Some e)
  /\ (forall r e, rating (out_product o1) = Some r ->
        energy_kwh_per_year (out_product o1) = Some e ->
        o2 = {| out_product := out_product o1; out_table := out_table o1;
                out_save_called := false |}).
Proof.
  intros o1 o2. repeat split.
  - intros r. apply ensure_metrics_keeps_rating.
  - intros e. apply ensure_metrics_keeps_energy.
  - intros r. apply ensure_metrics_keeps_rating.
  - intros e. apply ensure_metrics_keeps_energy.
  - intros r e. apply ensure_metrics_noop.
Qed.

Lemma same_other_fields_refl (p : Product) : same_other_fields p p.
Proof. unfold same_other_fields. tauto. Qed.

Lemma get_row_save_row_ne (row : Product) (t : list Product) (k : Z) :
  k <> pk row -> get_row k (save_row row t) = get_row k t.
Proof.
  intros Hk. induction t as [|r t IH]; simpl.
  - destruct (pk row =? k) eqn:E; [apply Z.eqb_eq in E; lia | reflexivity].
  - destruct (pk r =? pk row) eqn:E; simpl.
    + apply Z.eqb_eq in E.
      destruct (pk row =? k) eqn:E1; [apply Z.eqb_eq in E1; lia|].
      destruct (pk r =? k) eqn:E2; [apply Z.eqb_eq in E2; lia | reflexivity].
    + destruct (pk r =? k); [reflexivity | exact IH].
Qed.

Lemma get_row_save_row_eq (row : Product) (t : list Product) :
  get_row (pk row) (save_row row t) = Some row.
Proof.
  induction t as [|r t IH]; simpl.
  - now rewrite Z.eqb_refl.
  - destruct (pk r =? pk row) eqn:E; simpl.
    + now rewrite Z.eqb_refl.
    + rewrite E. exact IH.
Qed.

(** C10. [_ensure_product_metrics] leaves every field of the product
    other than [rating] and [energy_kwh_per_year] as it was, touches no
    row of another product, writes (when it saves) the columns of the
    object itself, and performs no save at all when both metrics were
    already set. *)
Theorem C10_metric_backfill_frame (p : Product) (dr : MetricDraws)
    (t : list Product) :
  let o := _ensure_product_metrics p dr t in
  same_other_fields p (out_product o)
  /\ (forall k, k <> pk p -> get_row k (out_table o) = get_row k t)
  /\ (out_table o = t
      \/ get_row (pk p) (out_table o) = Some (row_of (out_product o)))
  /\ (out_save_called o = false -> out_table o = t)
  /\ (rating p <> None -> energy_kwh_per_year p <> None ->
      out_save_called o = false /\ out_table o = t /\ out_product o = p).
Proof.
  unfold _ensure_product_metrics.
  destruct (rating p) as [r|] eqn:Hr;
    [|destruct (derive_rating p dr) as [r|x]];
    cbn [energy_kwh_per_year set_rating];
    (destruct (energy_kwh_per_year p) as [e|] eqn:He;
     [|match goal with |- context [derive_energy ?q dr] =>
         destruct (derive_energy q dr) as [e|y] end]);
    cbn [out_product out_table out_save_called];
    (split; [unfold same_other_fields; cbn; tauto|]);
    (split; [intros k Hk; destruct (save_fault dr); trivial;
             apply get_row_save_row_ne; exact Hk|]);
    (split; [destruct (save_fault dr); auto; right;
             match goal with
             | |- get_row _ (save_row ?row ?tbl) = _ =>
                 exact (get_row_save_row_eq row tbl)
             end |]);
    (split; [intros; congruence || trivial|]);
    intros H1 H2; try congruence; auto.
Qed.

(** ** The batch writer: termination and loop invariants *)

Lemma fold_left_add_sum {A : Type} (f : A -> Z) (l : list A) (a : Z) :
  fold_left (fun acc x => acc + f x) l a = a + sum_list (map f l).
Proof.
  revert a. induction l as [|x l IH]; intros a; simpl; [lia|].
  rewrite IH. lia.
Qed.


Lemma basket_total_sum (items_data : list Item) :
  basket_total items_data
  = sum_list (map (fun it => item_quantity it * item_price it) items_data).
Proof. unfold basket_total. rewrite fold_left_add_sum. lia. Qed.

(** The loop over the days ends before the fuel does. *)
Lemma days_loop_terminates (self : SalesDataGenerator) (customers : list Z)
    (env : Env) (fuel : nat) :
  forall day current_date st,
    Z.max 0 ((end_date self - current_date) / Datetime.US_PER_DAY + 1)
      < Z.of_nat fuel ->
    exists r, days_loop fuel self customers env day current_date st = Some r.
Proof.
  induction fuel as [|fuel IH]; intros day cur st Hfuel; [lia|].
  cbn [days_loop].
  destruct (cur <=? end_date self) eqn:Hc; [|eauto].
  destruct (_ ≫= _) as [st'|e]; [|eauto].
  apply IH. apply Z.leb_le in Hc.
  assert (0 <= (end_date self - cur) / Datetime.US_PER_DAY)
    by (apply Z.div_pos; unfold Datetime.US_PER_DAY; lia).
  unfold Datetime.timedelta_of.
  replace (end_date self - (cur + (1 * Datetime.US_PER_DAY + 0 * 3600000000
                                   + 0 * 60000000)))
    with ((end_date self - cur) + (-1) * Datetime.US_PER_DAY) by lia.
  rewrite Z.div_add by (unfold Datetime.US_PER_DAY; lia). lia.
Qed.

Lemma window_fuel_enough (self : SalesDataGenerator) :
  Z.max 0 ((end_date self - start_date self) / Datetime.US_PER_DAY + 1)
    < Z.of_nat (window_fuel self).
Proof. unfold window_fuel, Datetime.days. lia. Qed.

(** [generate_demo_data] returns: with a committed summary, or with the
    exception that ended it. *)
Lemma generate_demo_data_returns (self : SalesDataGenerator)
    (clear_existing : bool) (products : list Product) (customers : list Z)
    (env : Env) (db : Database) :
  exists outcome db',
    generate_demo_data self clear_existing products customers env db
    = Some (outcome, db').
Proof.
  unfold generate_demo_data, generate_body.
  destruct (if clear_existing then _ else _) as [db1|e]; [|eauto].
  match goal with |- context [days_loop ?f ?s ?c ?e ?d ?cd ?st] =>
    destruct (days_loop_terminates s c e f d cd st (window_fuel_enough s))
      as [r Hr]; rewrite Hr end.
  destruct r as [st|e]; eauto.
Qed.

Section LoopInvariant.

Variable self : SalesDataGenerator.
Variable customers : list Z.
Variable env : Env.
Variable P : State -> Prop.

Hypothesis P_transaction :
  forall current_date day j st st',
    P st ->
    one_transaction customers current_date (tx_env (day_env env day) j) st
    = Ok st' ->
    P st'.



End LoopInvariant.


(** *** What one transaction does *)

Lemma one_transaction_ok (customers : list Z) (current_date : Z) (tx : TxEnv)
    (st st' : State) :
  one_transaction customers current_date tx st = Ok st' ->
  exists cust items_data,
    choice customers (customer_bits tx) = Ok cust
    /\ _generate_order_items (st_products st) (basket_draws tx) = Ok items_data
    /\ ((order_fault tx = true /\ st' = st)
        \/ (order_fault tx = false /\ update_fault tx = false
            /\ let r := create_items (next_order_pk (st_db st)) items_data 0 tx
                          (st_products st)
                          (header_db cust items_data current_date tx (st_db st)) in
               st' = {| st_products := fst r; st_db := snd r;
                        st_total_orders := st_total_orders st + 1;
                        st_total_revenue :=
                          st_total_revenue st + basket_total items_data |})).
Proof.
  unfold one_transaction. intros H.
  apply bind_ok_inv in H as (cust & Hc & H).
  apply bind_ok_inv in H as (items & Hi & H).
  exists cust, items. split; [exact Hc|]. split; [exact Hi|].
  cbv zeta in H.
  destruct (order_fault tx); [left; split; congruence|right].
  cbn [create_order] in H.
  destruct (update_fault tx); [discriminate|]. rewrite bind_ok in H.
  split; [reflexivity|]. split; [reflexivity|].
  cbv zeta. unfold header_db, order_date_of. cbn [create_order snd order_pk] in *.
  destruct (create_items _ _ _ _ _ _) as [objs db2]. cbn [fst snd].
  congruence.
Qed.

Lemma header_db_orders cust items_data current_date tx db :
  orders (header_db cust items_data current_date tx db)
  = map (fun o => if order_pk o =? next_order_pk db
                  then {| order_pk := order_pk o; customer := customer o;
                          total_price := total_price o; status := status o;
                          created_at := order_date_of current_date tx;
                          updated_at := order_date_of current_date tx |}
                  else o)
      (orders db
       ++ [{| order_pk := next_order_pk db; customer := cust;
              total_price := basket_total items_data; status := "COMPLETED";
              created_at := clock tx; updated_at := clock tx |}]).
Proof. reflexivity. Qed.


Lemma map_insert_same {A B : Type} (f : A -> B) (l : list A) (i : nat)
    (x y : A) :
  l !! i = Some y -> f x = f y -> map f (<[i := x]> l) = map f l.
Proof.
  revert i. induction l as [|a l IH]; intros [|i] Hl Hf; simpl in *;
    try discriminate.
  - injection Hl as ->. now rewrite Hf.
  - now rewrite IH.
Qed.

(** The lines loop adds lines of its own order only, and leaves the
    orders, the key counter and the number of product objects alone. *)
Lemma create_items_frame (order : Z) (tx : TxEnv) (items_data : list Item) :
  forall i objs db,
    let r := create_items order items_data i tx objs db in
    orders (snd r) = orders db
    /\ next_order_pk (snd r) = next_order_pk db
    /\ length (fst r) = length objs
    /\ map pk (fst r) = map pk objs
    /\ exists new, order_items (snd r) = order_items db ++ new
                   /\ Forall (fun it => oi_order it = order) new.
Proof.
  induction items_data as [|item rest IH]; intros i objs db; cbn [create_items].
  - repeat split. exists []. rewrite app_nil_r. auto.
  - destruct (if item_fault tx i then None else objs !! item_product item)
      as [p|] eqn:Hp; [|apply IH].
    assert (Hlook : objs !! item_product item = Some p)
      by (destruct (item_fault tx i); [discriminate | exact Hp]).
    destruct (item_quantity item <=? stock p).
    + match goal with |- context [create_items order rest (S i) tx ?o ?d] =>
        destruct (IH (S i) o d) as (H1 & H2 & H3 & H4 & new & H5 & H6) end.
      cbv zeta. rewrite H1, H2, H3, H4, H5.
      destruct (stock_fault tx i); cbn;
        (split; [reflexivity|]; split; [reflexivity|];
         split; [apply length_insert|];
         split; [apply (map_insert_same pk _ _ _ p Hlook); reflexivity|]);
        eexists; (split; [rewrite <- app_assoc; reflexivity|]);
        constructor; auto.
    + match goal with |- context [create_items order rest (S i) tx ?o ?d] =>
        destruct (IH (S i) o d) as (H1 & H2 & H3 & H4 & new & H5 & H6) end.
      cbv zeta. rewrite H1, H2, H3, H4, H5. cbn.
      repeat split. eexists. split; [rewrite <- app_assoc; reflexivity|].
      constructor; auto.
Qed.

(** *** What a drawn basket holds *)

Lemma of_option_ok {A : Type} (e : exn) (o : option A) (a : A) :
  of_option e o = Ok a -> o = Some a.
Proof. destruct o; simpl; congruence. Qed.

Lemma choices1_in {A : Type} (population : list A) (ws : list float)
    (u : float) (x : A) :
  Choices.choices1 population ws u = Ok x -> In x population.
Proof.
  unfold Choices.choices1. intros H.
  apply bind_ok_inv in H as (sel & _ & H).
  apply bind_ok_inv in H as (pos & _ & H).
  apply of_option_ok in H.
  apply list_elem_of_In. apply list_elem_of_lookup. eauto.
Qed.

Lemma build_items_drawn (objs : list Product) (dr : BasketDraws)
    (selected : list nat) :
  forall i items_data,
    build_items objs selected i dr = Ok items_data ->
    Forall (line_drawn_from objs) items_data.
Proof.
  induction selected as [|pos rest IH]; intros i items H; cbn [build_items] in H.
  - injection H as <-. constructor.
  - apply bind_ok_inv in H as (p & Hp & H). apply of_option_ok in Hp.
    apply bind_ok_inv in H as (q & Hq & H).
    apply bind_ok_inv in H as (its & Hits & H).
    injection H as <-. constructor; [|eapply IH; eauto].
    exists p. cbn. repeat split; trivial;
      apply choices1_in in Hq; simpl in Hq; lia.
Qed.

Lemma basket_drawn (objs : list Product) (dr : BasketDraws) items_data :
  _generate_order_items objs dr = Ok items_data ->
  Forall (line_drawn_from objs) items_data.
Proof.
  unfold _generate_order_items. intros H.
  apply bind_ok_inv in H as (n & _ & H).
  apply bind_ok_inv in H as (sel & _ & H).
  eapply build_items_drawn; eauto.
Qed.

(** *** The counters and the summary *)









(** *** Order totals and persisted lines *)












(** *** Stock *)

Lemma lookup_map_some {A B : Type} (f : A -> B) (l : list A) (i : nat) (x : A) :
  l !! i = Some x -> map f l !! i = Some (f x).
Proof.
  revert i. induction l as [|a l IH]; intros [|i] H; simpl in *;
    try discriminate; [congruence | auto].
Qed.




Section StockInvariant.

(** The product followed: its position among the objects, its key, and
    its stock when the loop starts. [n1] lines were in the database
    then. [saves_succeed] says that no save of a product fails. *)
Variable i : nat.
Variable key s0 : Z.
Variable n1 : nat.
Variable keys : list Z.
Variable saves_succeed : Prop.

Hypothesis keys_distinct : NoDup keys.
Hypothesis s0_nonneg : 0 <= s0.


End StockInvariant.





(** *** Fault isolation and the top-level atomic scope *)

Lemma header_fault_is_skipped (customers : list Z) (current_date : Z)
    (tx : TxEnv) (st : State) cust items_data :
  choice customers (customer_bits tx) = Ok cust ->
  _generate_order_items (st_products st) (basket_draws tx) = Ok items_data ->
  order_fault tx = true ->
  one_transaction customers current_date tx st = Ok st.
Proof.
  intros Hc Hb Hf. unfold one_transaction.
  rewrite Hc, bind_ok, Hb, bind_ok. cbv zeta. rewrite Hf. reflexivity.
Qed.

Lemma update_fault_propagates (customers : list Z) (current_date : Z)
    (tx : TxEnv) (st : State) cust items_data :
  choice customers (customer_bits tx) = Ok cust ->
  _generate_order_items (st_products st) (basket_draws tx) = Ok items_data ->
  order_fault tx = false -> update_fault tx = true ->
  one_transaction customers current_date tx st = Raise DatabaseError.
Proof.
  intros Hc Hb Hf Hu. unfold one_transaction.
  rewrite Hc, bind_ok, Hb, bind_ok. cbv zeta. rewrite Hf.
  cbn [create_order]. rewrite Hu. reflexivity.
Qed.

Lemma generate_demo_data_atomic (self : SalesDataGenerator)
    (clear_existing : bool) (products : list Product) (customers : list Z)
    (env : Env) (db : Database) e db' :
  generate_demo_data self clear_existing products customers env db
  = Some (Raise e, db') ->
  db' = db.
Proof.
  unfold generate_demo_data.
  destruct (generate_body _ _ _ _ _ _) as [[[s d]|e']|]; congruence.
Qed.

(** C1 (as stated, refuted). The whole run is one atomic scope. The
    first day persists two orders; on the second day the update of the
    dates of the first order fails, and the run ends leaving the database
    as it found it, without any order. *)
Lemma C1_counterexample :
  let st0 := {| st_products := [demo_product]; st_db := demo_db;
                st_total_orders := 0; st_total_revenue := 0 |} in
  _generate_daily_sales_count demo_generator (start_date demo_generator)
    (daily_draws (day_env update_fault_env 0)) = Ok 2
  /\ (exists st1,
        sales_loop 2 0 [7] (start_date demo_generator)
          (tx_env (day_env update_fault_env 0)) st0 = Ok st1
        /\ length (orders (st_db st1)) = 2%nat)
  /\ orders demo_db = []
  /\ generate_demo_data demo_generator false [demo_product] [7]
       update_fault_env demo_db
     = Some (Raise DatabaseError, demo_db).
Proof.
  cbv zeta. split; [vm_compute; reflexivity|].
  split; [eexists; split; vm_compute; reflexivity|].
  split; [reflexivity|]. vm_compute. reflexivity.
Qed.

(** C1 (amended). A failure while creating one transaction header is
    caught at the scope of that single transaction: the transaction leaves
    the product objects, the database and the counters as they were, and
    the loop goes on with the next transaction as if the failed one had
    not been drawn. The run as a whole is one atomic scope, though: an
    exception that the loop does not catch - a failure of the update of
    the dates, for one - ends the run, and a run that ends with an
    exception leaves the database as it was on entry. *)
Theorem C1_header_fault_isolation (self : SalesDataGenerator)
    (clear_existing : bool) (products : list Product) (customers : list Z)
    (env : Env) (db : Database) :
  (forall current_date tx st cust items_data,
     choice customers (customer_bits tx) = Ok cust ->
     _generate_order_items (st_products st) (basket_draws tx) = Ok items_data ->
     order_fault tx = true ->
     one_transaction customers current_date tx st = Ok st)
  /\ (forall current_date txs n j st cust items_data,
        choice customers (customer_bits (txs j)) = Ok cust ->
        _generate_order_items (st_products st) (basket_draws (txs j))
        = Ok items_data ->
        order_fault (txs j) = true ->
        sales_loop (S n) j customers current_date txs st
        = sales_loop n (S j) customers current_date txs st)
  /\ (forall current_date tx st cust items_data,
        choice customers (customer_bits tx) = Ok cust ->
        _generate_order_items (st_products st) (basket_draws tx) = Ok items_data ->
        order_fault tx = false -> update_fault tx = true ->
        one_transaction customers current_date tx st = Raise DatabaseError)
  /\ exists outcome db',
       generate_demo_data self clear_existing products customers env db
       = Some (outcome, db')
       /\ forall e, outcome = Raise e -> db' = db.
Proof.
  split; [intros; eapply header_fault_is_skipped; eauto|].
  split.
  { intros d txs n j st cust items Hc Hb Hf. cbn [sales_loop].
    rewrite (header_fault_is_skipped _ _ _ _ _ _ Hc Hb Hf). apply bind_ok. }
  split; [intros; eapply update_fault_propagates; eauto|].
  destruct (generate_demo_data_returns self clear_existing products customers
              env db) as (outcome & db' & Hrun).
  exists outcome, db'. split; [exact Hrun|].
  intros e ->. eapply generate_demo_data_atomic; eauto.
Qed.

(** * Further properties of the generator *)

(** ** The basket sampler *)

Lemma choices_length (n : nat) (ws : list float) (k : nat) (u : nat -> float)
    (sel : list nat) :
  Choices.choices n ws k u = Ok sel -> length sel = k.
Proof.
  unfold Choices.choices. cbv zeta. intros H.
  destruct (negb _); [discriminate|].
  apply bind_ok_inv in H as (c & _ & H).
  destruct (Float.leb _ _); [discriminate|].
  destruct (negb _); [discriminate|].
  injection H as <-. now rewrite length_map, length_seq.
Qed.

Lemma choices_positions (n : nat) (ws : list float) (k : nat)
    (u : nat -> float) (sel : list nat) :
  (0 < n)%nat ->
  Choices.choices n ws k u = Ok sel -> Forall (fun pos => (pos < n)%nat) sel.
Proof.
  unfold Choices.choices. cbv zeta. intros Hn H.
  destruct (negb _); [discriminate|].
  apply bind_ok_inv in H as (c & _ & H).
  destruct (Float.leb _ _); [discriminate|].
  destruct (negb _); [discriminate|].
  injection H as <-. apply Forall_map. apply List.Forall_forall. intros i _.
  unfold Choices.bisect.
  pose proof (bisect_loop_le (n - 1 - 0) (Choices.accumulate ws)
                (Float.mul (u i) (Float.add c (S754_zero false))) 0 (n - 1)
                ltac:(lia)).
  lia.
Qed.

Lemma build_items_length (objs : list Product) (dr : BasketDraws)
    (selected : list nat) :
  forall i items_data,
    build_items objs selected i dr = Ok items_data ->
    length items_data = length selected.
Proof.
  induction selected as [|pos rest IH]; intros i items H; cbn [build_items] in H.
  - injection H as <-. reflexivity.
  - apply bind_ok_inv in H as (p & _ & H).
    apply bind_ok_inv in H as (q & _ & H).
    apply bind_ok_inv in H as (its & Hits & H).
    injection H as <-. cbn. f_equal. eapply IH; eauto.
Qed.

(** The quantity of a line is drawn whatever [random.random()] returns. *)
Lemma quantity_drawn (u : float) :
  exists q,
    Choices.choices1 [1; 2; 3] [Float.dec 7 1; Float.dec 2 1; Float.dec 1 1] u
    = Ok q.
Proof.
  unfold Choices.choices1, Choices.choices. cbv zeta.
  set (cum := Choices.accumulate _).
  change (length cum) with 3%nat. change (length [1; 2; 3]) with 3%nat.
  cbn [Nat.eqb negb].
  replace (last cum) with (Some (S754_finite false 9007199254740991 (-53)))
    by (vm_compute; reflexivity).
  cbn [of_option]. rewrite bind_ok.
  set (total := Float.add _ _).
  replace (Float.leb total (S754_zero false)) with false by (vm_compute; reflexivity).
  replace (Float.is_finite total) with true by (vm_compute; reflexivity).
  cbn [negb seq map]. rewrite bind_ok. cbn [head of_option]. rewrite bind_ok.
  pose proof (bisect_loop_le (2 - 0) cum (Float.mul u total) 0 2 ltac:(lia)) as H.
  unfold Choices.bisect. change (3 - 1)%nat with 2%nat.
  set (pos := Choices.bisect_loop _ _ _ _ _) in *.
  assert (Hc : pos = 0%nat \/ pos = 1%nat \/ pos = 2%nat) by lia.
  destruct Hc as [-> | [-> | ->]]; eexists; reflexivity.
Qed.

Lemma build_items_returns (objs : list Product) (dr : BasketDraws)
    (selected : list nat) :
  Forall (fun pos => (pos < length objs)%nat) selected ->
  forall i, exists items_data, build_items objs selected i dr = Ok items_data.
Proof.
  induction 1 as [|pos rest Hpos _ IH]; intros i; cbn [build_items]; [eauto|].
  destruct (lookup_lt_is_Some_2 objs pos Hpos) as [p ->].
  cbn [of_option]. rewrite bind_ok.
  destruct (quantity_drawn (u_quantity dr i)) as [q ->]. rewrite bind_ok.
  destruct (IH (S i)) as [its ->]. rewrite bind_ok. eauto.
Qed.

Lemma basket_length (products : list Product) (dr : BasketDraws)
    (items_data : list Item) :
  _generate_order_items products dr = Ok items_data ->
  (1 <= length items_data <= 4)%nat.
Proof.
  unfold _generate_order_items. intros Hrun.
  apply bind_ok_inv in Hrun as (n & Hn & Hrun).
  apply bind_ok_inv in Hrun as (sel & Hsel & Hrun).
  apply build_items_length in Hrun. apply choices_length in Hsel.
  apply choices1_in in Hn. simpl in Hn. lia.
Qed.

(** X1. Whenever the sampler returns, the basket has between one and four
    lines; every line names a product of the catalog, carries the price
    that product has at that moment, and a quantity of 1, 2 or 3. *)
Theorem X1_basket_shape (products : list Product) (dr : BasketDraws)
    (items_data : list Item)
    (Hrun : _generate_order_items products dr = Ok items_data) :
  (1 <= length items_data <= 4)%nat
  /\ Forall (line_drawn_from products) items_data.
Proof.
  split; [eapply basket_length; eauto | eapply basket_drawn; eauto].
Qed.

Lemma X1_basket_shape_witness :
  _generate_order_items [demo_product] (basket_draws (demo_tx false false))
  = Ok [{| item_product := 0; item_quantity := 3; item_price := 1999 |}]
  /\ (1 <= 1 <= 4)%nat.
Proof.
  assert (H : _generate_order_items [demo_product]
                (basket_draws (demo_tx false false))
              = Ok [{| item_product := 0; item_quantity := 3;
                       item_price := 1999 |}])
    by (vm_compute; reflexivity).
  split; [exact H|].
  exact (proj1 (X1_basket_shape _ _ _ H)).
Defined.

Lemma last_accumulate_nonempty (ws : list float) :
  ws <> [] -> exists c, last (Choices.accumulate ws) = Some c.
Proof.
  intros Hne.
  destruct (last (Choices.accumulate ws)) as [c|] eqn:E; [eauto|].
  exfalso. apply last_None in E. apply (f_equal (@length float)) in E.
  rewrite accumulate_length in E. destruct ws; [contradiction | discriminate].
Qed.

Lemma order_items_by_weights (products : list Product) (dr : BasketDraws) :
  match last (Choices.accumulate (map popularity_weight products)) with
  | None => products = []
            /\ _generate_order_items products dr = Raise IndexError
  | Some c =>
      products <> []
      /\ if Float.leb (Float.add c (S754_zero false)) (S754_zero false)
            || negb (Float.is_finite (Float.add c (S754_zero false)))
         then _generate_order_items products dr = Raise ValueError
         else exists items_data, _generate_order_items products dr = Ok items_data
  end.
Proof.
  unfold _generate_order_items.
  destruct (num_items_drawn (u_num_items dr)) as [n Hn]. rewrite Hn, bind_ok.
  unfold Choices.choices. cbv zeta.
  rewrite accumulate_length, length_map, Nat.eqb_refl. cbn [negb].
  destruct products as [|p ps].
  - cbn. auto.
  - destruct (last_accumulate_nonempty (map popularity_weight (p :: ps)))
      as [c Hc]; [discriminate|].
    rewrite Hc. cbn [of_option]. rewrite bind_ok.
    split; [discriminate|].
    destruct (Float.leb _ _); cbn [orb]; [reflexivity|].
    destruct (Float.is_finite _); cbn [negb]; [|reflexivity].
    rewrite bind_ok. apply build_items_returns.
    apply Forall_map. apply List.Forall_forall. intros i _.
    unfold Choices.bisect. cbn [length].
    match goal with |- context [Choices.bisect_loop ?f ?a ?x 0 ?hi] =>
      pose proof (bisect_loop_le f a x 0 hi ltac:(lia)) end.
    cbn [length] in *. lia.
Qed.


(** X2. The sampler fails in two ways only: with [IndexError] on an
    empty catalog, and with [ValueError] when the total popularity weight
    is not positive or not finite. On every other catalog it returns a
    basket, whatever the draws. *)
Theorem X2_sampler_failures (products : list Product) (dr : BasketDraws) :
  match total_weight products with
  | None => products = []
            /\ _generate_order_items products dr = Raise IndexError
  | Some total =>
      products <> []
      /\ if Float.leb total (S754_zero false) || negb (Float.is_finite total)
         then _generate_order_items products dr = Raise ValueError
         else exists items_data, _generate_order_items products dr = Ok items_data
  end.
Proof.
  unfold total_weight.
  pose proof (order_items_by_weights products dr) as H.
  destruct products as [|p ps].
  - destruct (last _) as [c|]; [destruct H as [H _]; contradiction | exact H].
  - destruct (last_accumulate_nonempty (map popularity_weight (p :: ps)))
      as [c Hc]; [discriminate|].
    rewrite Hc in *. exact H.
Qed.

Lemma order_items_raise (products : list Product) (dr : BasketDraws) (e : exn) :
  _generate_order_items products dr = Raise e ->
  (e = IndexError /\ products = []) \/ (e = ValueError /\ products <> []).
Proof.
  intros H. pose proof (order_items_by_weights products dr) as Ho.
  destruct (last _) as [c|].
  - destruct Ho as [Hne Ho]. right. split; [|exact Hne].
    destruct (_ || _); [congruence|].
    destruct Ho as [items Ho]. congruence.
  - destruct Ho as [-> Ho]. left. split; [congruence | reflexivity].
Qed.

(** ** The derived metrics *)

(** Rounding never leaves more than 53 bits of mantissa and never
    produces a NaN. *)
Lemma binary_round_aux_mantissa (s : bool) (m e : Z) (l : location) :
  0 <= m ->
  match binary_round_aux Float.prec Float.emax s m e l with
  | S754_finite _ m' _ => Zpos m' < 2 ^ 53
  | S754_nan => False
  | _ => True
  end.
Proof.
  intros Hm. unfold binary_round_aux.
  destruct (shr_fexp_canonical m e l) as [H1 _]; [lia|].
  destruct (shr_fexp Float.prec Float.emax m e l) as [mrs' e'].
  simpl in H1.
  pose proof (round_nearest_even_bounds (shr_m mrs') (loc_of_shr_record mrs')) as Hr.
  set (m1 := round_nearest_even (shr_m mrs') (loc_of_shr_record mrs')) in *.
  destruct (shr_fexp_canonical m1 e' loc_Exact) as [H3 _]; [lia|].
  destruct (shr_fexp Float.prec Float.emax m1 e' loc_Exact) as [mrs'' e''].
  simpl in H3.
  destruct (shr_m mrs'') as [|p|p]; [exact I| |lia].
  destruct (e'' <=? _); [lia | exact I].
Qed.

Lemma of_frac_100_mantissa (h : Z) :
  match Float.of_frac h 100 with
  | S754_finite _ m _ => Zpos m < 2 ^ 53
  | S754_nan => False
  | _ => True
  end.
Proof.
  unfold Float.of_frac. cbv zeta.
  assert (Hq : forall s p,
    match SFdiv Float.prec Float.emax (S754_finite s p 0) (S754_finite false 100 0) with
    | S754_finite _ m _ => Zpos m < 2 ^ 53
    | S754_nan => False
    | _ => True
    end).
  { intros s p. unfold SFdiv, SFdiv_core_binary. cbv zeta.
    set (e' := Z.min _ _). set (m' := match 0 - 0 - e' with Z0 => _ | _ => _ end).
    assert (Hm' : 0 <= m').
    { subst m'. destruct (0 - 0 - e'); try lia. apply Z.shiftl_nonneg. lia. }
    pose proof (Z_div_mod m' 100 ltac:(lia)) as Hdm.
    destruct (Z.div_eucl m' 100) as [q r].
    apply binary_round_aux_mantissa. nia. }
  destruct h as [|p|p]; [exact I | apply Hq | apply Hq].
Qed.

(** [round(x, 2)] is a NaN or an infinity only when [x] is, and
    otherwise has a mantissa of at most 53 bits. *)
Lemma round2_mantissa (x : float) :
  match round2 x with
  | S754_finite _ m _ => Zpos m < 2 ^ 53
  | _ => True
  end.
Proof.
  unfold round2. destruct (Float.round_scaled 100 x) as [h|] eqn:E.
  - pose proof (of_frac_100_mantissa h) as H.
    destruct (Float.of_frac h 100); auto.
  - destruct x; try exact I. discriminate E.
Qed.

Lemma dec_50_1 : Float.dec 50 1 = S754_finite false 5629499534213120 (-50).
Proof. vm_compute. reflexivity. Qed.

Lemma dec_0_1 : Float.dec 0 1 = S754_zero false.
Proof. vm_compute. reflexivity. Qed.

(** The clamp [max(0.0, min(5.0, r))] of a rounded value is a number of
    hundredths between 0 and 500. *)
Lemma clamp_hundredths (r : float) :
  match r with S754_finite _ m _ => Zpos m < 2 ^ 53 | _ => True end ->
  exists h, Float.round_scaled 100
              (Float.fmax (Float.dec 0 1) (Float.fmin (Float.dec 50 1) r))
            = Some h
            /\ 0 <= h <= 500.
Proof.
  intros Hm. rewrite dec_50_1, dec_0_1. unfold Float.fmin.
  destruct (Float.ltb r _) eqn:Hlt.
  2:{ exists 500. vm_compute. split; [reflexivity | split; discriminate]. }
  unfold Float.fmax. destruct (Float.ltb _ r) eqn:Hpos.
  2:{ exists 0. cbn. split; [reflexivity | lia]. }
  destruct r as [s|s| |s m e];
    [destruct s; discriminate Hpos
    |destruct s; [discriminate Hpos | discriminate Hlt]
    |discriminate Hlt|].
  destruct s; [discriminate Hpos|].
  unfold Float.ltb, SFltb, SFcompare in Hlt.
  cbn [Float.round_scaled]. eexists. split; [reflexivity|].
  destruct (Z.compare_spec e (-50)) as [He | He | He]; try discriminate.
  - subst e.
    destruct (PosDef.Pos.compare_cont Eq m 5629499534213120) eqn:E in Hlt;
      try discriminate Hlt.
    assert (H : Zpos m < 5629499534213120) by exact E.
    clear E Hlt Hpos.
    unfold Float.round_half_even. rewrite Z.shiftl_1_l.
    change (2 ^ 50) with 1125899906842624.
    assert (Hq : 0 <= 100 * Zpos m / 1125899906842624 <= 499).
    { split; [apply Z.div_pos; lia|].
      apply Z.lt_succ_r. apply Z.div_lt_upper_bound; lia. }
    destruct (_ ?= _); [destruct (Z.even _)| |]; lia.
  - destruct e as [|p|p]; try lia.
    unfold Float.round_half_even. rewrite Z.shiftl_1_l.
    assert (Hp : 2 ^ 51 <= 2 ^ Zpos p) by (apply Z.pow_le_mono_r; lia).
    change (2 ^ 53) with 9007199254740992 in Hm.
    change (2 ^ 51) with 2251799813685248 in Hp.
    set (den := 2 ^ Zpos p) in *.
    assert (Hq : 0 <= 100 * Zpos m / den <= 399).
    { split; [apply Z.div_pos; lia|].
      apply Z.lt_succ_r. apply Z.div_lt_upper_bound; lia. }
    destruct (_ ?= _); [destruct (Z.even _)| |]; lia.
Qed.

Lemma derive_rating_range (p : Product) (dr : MetricDraws) :
  exists r, derive_rating p dr = Ok r /\ 0 <= r <= 500.
Proof.
  unfold derive_rating, Decimal_of_str. cbv zeta.
  set (x := Float.add _ (rating_noise dr)).
  destruct (clamp_hundredths (round2 x) (round2_mantissa x)) as (h & -> & Hh).
  exists h. split; [reflexivity | exact Hh].
Qed.

Lemma derive_energy_category (p q : Product) (dr : MetricDraws) :
  category q = category p -> derive_energy q dr = derive_energy p dr.
Proof. intros Hq. unfold derive_energy. now rewrite Hq. Qed.

(** The object and the flag after the backfill, by the two derivations. *)
Lemma ensure_outcome (p : Product) (dr : MetricDraws) (t : list Product) :
  let o := _ensure_product_metrics p dr t in
  rating (out_product o)
  = match rating p with
    | Some r => Some r
    | None => match derive_rating p dr with Ok r => Some r | Raise _ => None end
    end
  /\ energy_kwh_per_year (out_product o)
     = match energy_kwh_per_year p with
       | Some e => Some e
       | None =>
           match derive_energy p dr with Ok e => Some e | Raise _ => None end
       end
  /\ out_save_called o
     = match rating p with
       | Some _ => false
       | None => match derive_rating p dr with Ok _ => true | Raise _ => false end
       end
       || match energy_kwh_per_year p with
          | Some _ => false
          | None =>
              match derive_energy p dr with Ok _ => true | Raise _ => false end
          end.
Proof.
  cbv zeta. unfold _ensure_product_metrics.
  destruct (rating p) as [r0|] eqn:Hr;
    [|destruct (derive_rating p dr) as [r|x]];
    cbn [energy_kwh_per_year set_rating];
    (destruct (energy_kwh_per_year p) as [e|] eqn:He;
     [|rewrite ?(derive_energy_category p (set_rating _ p) dr eq_refl);
       destruct (derive_energy p dr) as [e|y]]);
    cbn; rewrite ?Hr, ?He; auto.
Qed.

Lemma ensure_rating_some (p : Product) (dr : MetricDraws) (t : list Product) :
  exists r, rating (out_product (_ensure_product_metrics p dr t)) = Some r.
Proof.
  destruct (ensure_outcome p dr t) as (H & _). cbv zeta in H. rewrite H.
  destruct (rating p) as [r0|]; [eauto|].
  destruct (derive_rating_range p dr) as (r & -> & _). eauto.
Qed.

(** X3. After the backfill the product object always has a rating,
    whatever the price, the popularity and the noise drawn (infinities
    and NaN included): a missing rating is always derived, and the
    derived rating lies between 0.00 and 5.00. *)
Theorem X3_rating_always_set (product : Product) (dr : MetricDraws)
    (table : list Product) :
  exists r,
    rating (out_product (_ensure_product_metrics product dr table)) = Some r
    /\ match rating product with
       | Some r0 => r = r0
       | None => derive_rating product dr = Ok r /\ 0 <= r <= 500
       end.
Proof.
  destruct (ensure_outcome product dr table) as (H & _). cbv zeta in H.
  rewrite H.
  destruct (rating product) as [r0|].
  - exists r0. auto.
  - destruct (derive_rating_range product dr) as (r & Hd & Hrange).
    rewrite Hd. exists r. auto.
Qed.

Lemma derive_energy_cases (p : Product) (dr : MetricDraws) :
  if category_fault dr then derive_energy p dr = Raise DatabaseError
  else exists n, derive_energy p dr = Ok (Float.of_Z n)
                 /\ (n = 0 \/ 20 <= n <= 2000).
Proof.
  unfold derive_energy. destruct (category_fault dr); [reflexivity|].
  rewrite bind_ok.
  set (cat := match category p with Some c => _ | None => _ end).
  repeat match goal with
  | |- context [if contains ?s cat then _ else _] =>
      destruct (contains s cat)
  end;
  try (rewrite bind_ok; eexists; split; [reflexivity|]; right;
       match goal with |- _ <= randint ?a ?b ?n <= _ =>
         pose proof (randint_range a b n ltac:(lia)); lia end).
  unfold choice. cbn [length].
  pose proof (randint_range 200 800 (energy_bits dr) ltac:(lia)) as Hr.
  destruct (N.to_nat (choice_bits dr) mod 2)%nat as [|[|k]] eqn:E.
  - exists 0. split; [reflexivity | left; reflexivity].
  - exists (randint 200 800 (energy_bits dr)). split; [reflexivity | right; lia].
  - pose proof (Nat.mod_upper_bound (N.to_nat (choice_bits dr)) 2 ltac:(lia)). lia.
Qed.

(** X4. A missing energy estimate is left missing exactly when the
    category cannot be read; otherwise the object receives a whole number
    of kWh that is 0 or lies between 20 and 2000. An estimate already
    present is kept. *)
Theorem X4_energy_backfill (product : Product) (dr : MetricDraws)
    (table : list Product) :
  let after := out_product (_ensure_product_metrics product dr table) in
  match energy_kwh_per_year product with
  | Some e => energy_kwh_per_year after = Some e
  | None =>
      if category_fault dr then energy_kwh_per_year after = None
      else exists n, energy_kwh_per_year after = Some (Float.of_Z n)
                     /\ (n = 0 \/ 20 <= n <= 2000)
  end.
Proof.
  cbv zeta.
  destruct (ensure_outcome product dr table) as (_ & H & _). cbv zeta in H.
  rewrite H.
  destruct (energy_kwh_per_year product) as [e|]; [reflexivity|].
  pose proof (derive_energy_cases product dr) as Hc.
  destruct (category_fault dr).
  - rewrite Hc. reflexivity.
  - destruct Hc as (n & -> & Hn). exists n. auto.
Qed.


(** X5. The backfill saves exactly when it changed the object, that is
    when the rating was missing, or the energy estimate was missing and
    the category could be read; a failed save leaves the table as it was
    while the object keeps the derived metrics. *)
Theorem X5_backfill_saves_iff_changed (product : Product) (dr : MetricDraws)
    (table : list Product) :
  let o := _ensure_product_metrics product dr table in
  (out_save_called o = true <-> out_product o <> product)
  /\ (out_save_called o = true <->
      rating product = None
      \/ (energy_kwh_per_year product = None /\ category_fault dr = false))
  /\ (save_fault dr = true -> out_table o = table).
Proof.
  cbv zeta.
  destruct (derive_rating_range product dr) as (r & Hd & _).
  pose proof (derive_energy_cases product dr) as Hc.
  unfold _ensure_product_metrics.
  destruct (rating product) as [r0|] eqn:Hr; [|rewrite Hd];
    cbn [energy_kwh_per_year set_rating];
    (destruct (energy_kwh_per_year product) as [e|] eqn:He;
     [|rewrite ?(derive_energy_category product (set_rating _ product) dr eq_refl);
       destruct (category_fault dr);
       [rewrite Hc | destruct Hc as (n & -> & _)]]);
    cbn [out_save_called out_product out_table];
    (split; [|split]);
    try (intros ->; reflexivity);
    try (split; [intros _ | reflexivity]);
    try (split; [discriminate | intros H]);
    try (intros Heq; apply (f_equal rating) in Heq; cbn in Heq; congruence);
    try (intros Heq; apply (f_equal energy_kwh_per_year) in Heq; cbn in Heq;
         congruence);
    try (left; reflexivity); try (right; split; reflexivity);
    try (exfalso; apply H; reflexivity);
    try (destruct H as [H | [H1 H2]]; discriminate);
    intros _; reflexivity.
Qed.

(** ** The daily count *)

Lemma daily_count_outcomes (self : SalesDataGenerator) (date : Z)
    (dr : DailyDraws) :
  match _generate_daily_sales_count self date dr with
  | Ok n => 1 <= n /\ Datetime.days (end_date self - start_date self) <> 0
  | Raise e =>
      if Datetime.days (end_date self - start_date self) =? 0
      then e = ZeroDivisionError
      else e = OverflowError \/ e = ValueError
  end.
Proof.
  unfold _generate_daily_sales_count, _get_trend_multiplier. cbv zeta.
  destruct (Datetime.days (end_date self - start_date self) =? 0) eqn:E.
  - rewrite bind_raise, bind_raise. reflexivity.
  - rewrite !bind_ok. apply Z.eqb_neq in E.
    match goal with |- context [int_of_float ?x] =>
      destruct x as [s|s| |s m e] end; cbn.
    + split; [lia | exact E].
    + left; reflexivity.
    + right; reflexivity.
    + split; [lia | exact E].
Qed.

(** X6. The daily count is at least 1 whenever it is returned. The call
    raises [ZeroDivisionError] exactly when the window spans no whole
    day, whatever the date and the draws; on any other window it can only
    fail on an infinite or undefined product ([OverflowError],
    [ValueError]). *)
Theorem X6_daily_count_outcomes (self : SalesDataGenerator) (date : Z)
    (dr : DailyDraws) :
  (Datetime.days (end_date self - start_date self) = 0 <->
   _generate_daily_sales_count self date dr = Raise ZeroDivisionError)
  /\ match _generate_daily_sales_count self date dr with
     | Ok n => 1 <= n
     | Raise e => e = ZeroDivisionError \/ e = OverflowError \/ e = ValueError
     end.
Proof.
  pose proof (daily_count_outcomes self date dr) as H.
  destruct (_generate_daily_sales_count self date dr) as [n|e].
  - destruct H as [H1 H2]. split; [|exact H1].
    split; [contradiction | discriminate].
  - destruct (Z.eqb_spec (Datetime.days (end_date self - start_date self)) 0)
      as [E | E].
    + subst e. split; [tauto | left; reflexivity].
    + split; [|right; exact H].
      split; [contradiction|]. intros [= ->]. destruct H; discriminate.
Qed.

(** ** The run: dated loop invariants *)

Lemma day_start_succ (self : SalesDataGenerator) (day : nat) :
  day_start self day + Datetime.timedelta_of 1 0 0 = day_start self (S day).
Proof.
  unfold day_start, Datetime.timedelta_of, Datetime.US_PER_DAY. lia.
Qed.

Lemma day_start_0 (self : SalesDataGenerator) :
  day_start self 0 = start_date self.
Proof.
  unfold day_start, Datetime.timedelta_of, Datetime.US_PER_DAY. cbn. lia.
Qed.

Section DatedInvariant.

Variable self : SalesDataGenerator.
Variable customers : list Z.
Variable env : Env.
Variable P : State -> Prop.

Hypothesis P_transaction :
  forall day j st st',
    day_start self day <= end_date self ->
    P st ->
    one_transaction customers (day_start self day) (tx_env (day_env env day) j) st
    = Ok st' ->
    P st'.

Lemma sales_loop_dated (day : nat) (n : nat) :
  day_start self day <= end_date self ->
  forall j st,
    P st ->
    match sales_loop n j customers (day_start self day)
            (tx_env (day_env env day)) st with
    | Ok st' => P st'
    | Raise e =>
        exists j' st1,
          P st1
          /\ one_transaction customers (day_start self day)
               (tx_env (day_env env day) j') st1 = Raise e
    end.
Proof.
  intros Hday. induction n as [|n IH]; intros j st HP; cbn [sales_loop].
  - exact HP.
  - destruct (one_transaction _ _ _ st) as [st1|e] eqn:H1.
    + rewrite bind_ok. apply IH. eapply P_transaction; eauto.
    + rewrite bind_raise. eauto.
Qed.

Lemma days_loop_dated (fuel : nat) :
  forall day st,
    P st ->
    match days_loop fuel self customers env day (day_start self day) st with
    | None => True
    | Some (Ok st') => P st'
    | Some (Raise e) =>
        exists day',
          day_start self day' <= end_date self
          /\ (_generate_daily_sales_count self (day_start self day')
                (daily_draws (day_env env day')) = Raise e
              \/ exists j st1,
                   P st1
                   /\ one_transaction customers (day_start self day')
                        (tx_env (day_env env day') j) st1 = Raise e)
    end.
Proof.
  induction fuel as [|fuel IH]; intros day st HP; cbn [days_loop]; [exact I|].
  destruct (day_start self day <=? end_date self) eqn:Hc; [|exact HP].
  apply Z.leb_le in Hc.
  destruct (_generate_daily_sales_count _ _ _) as [n|e] eqn:Hn.
  - rewrite bind_ok.
    pose proof (sales_loop_dated day (Z.to_nat n) Hc 0 st HP) as Hs.
    destruct (sales_loop _ _ _ _ _ _) as [st1|e].
    + rewrite day_start_succ. apply IH. exact Hs.
    + exists day. split; [exact Hc | right; exact Hs].
  - rewrite bind_raise. exists day. split; [exact Hc | left; exact Hn].
Qed.

End DatedInvariant.

(** Every run ends in one of three ways: committed, in a state that
    satisfies every invariant of its transactions; refused at the
    clearing of the orders; or ended by the exception of one daily count
    or of one transaction, the database being then as it was on entry. *)
Lemma run_outcomes (self : SalesDataGenerator) (clear_existing : bool)
    (products : list Product) (customers : list Z) (env : Env)
    (db : Database) (P : State -> Prop) :
  (forall day j st st',
     day_start self day <= end_date self ->
     P st ->
     one_transaction customers (day_start self day)
       (tx_env (day_env env day) j) st = Ok st' ->
     P st') ->
  P {| st_products := products; st_db := cleared clear_existing db;
       st_total_orders := 0; st_total_revenue := 0 |} ->
  exists outcome db',
    generate_demo_data self clear_existing products customers env db
    = Some (outcome, db')
    /\ match outcome with
       | Ok summary =>
           exists st,
             P st /\ st_db st = db'
             /\ sum_total_orders summary = st_total_orders st
       | Raise e =>
           db' = db
           /\ ((clear_existing = true /\ clear_fault env = true
                /\ e = DatabaseError)
               \/ exists day,
                    day_start self day <= end_date self
                    /\ (_generate_daily_sales_count self (day_start self day)
                          (daily_draws (day_env env day)) = Raise e
                        \/ exists j st1,
                             P st1
                             /\ one_transaction customers (day_start self day)
                                  (tx_env (day_env env day) j) st1 = Raise e))
       end.
Proof.
  intros Hstep Hinit.
  destruct (generate_demo_data_returns self clear_existing products customers
              env db) as (outcome & db' & Hrun).
  exists outcome, db'. split; [exact Hrun|].
  unfold generate_demo_data, generate_body in Hrun.
  destruct clear_existing; [destruct (clear_fault env) eqn:Hcf|].
  - injection Hrun as <- <-. split; [reflexivity | left; auto].
  - pose proof (days_loop_dated self customers env P Hstep
                  (window_fuel self) 0 _ Hinit) as Hloop.
    rewrite day_start_0 in Hloop. unfold cleared in Hloop.
    destruct (days_loop _ _ _ _ _ _ _) as [[st|e]|]; try discriminate;
      injection Hrun as <- <-.
    + exists st. auto.
    + split; [reflexivity | right; exact Hloop].
  - pose proof (days_loop_dated self customers env P Hstep
                  (window_fuel self) 0 _ Hinit) as Hloop.
    rewrite day_start_0 in Hloop. unfold cleared in Hloop.
    destruct (days_loop _ _ _ _ _ _ _) as [[st|e]|]; try discriminate;
      injection Hrun as <- <-.
    + exists st. auto.
    + split; [reflexivity | right; exact Hloop].
Qed.

(** *** What one transaction writes *)

Lemma choice_in {A : Type} (seq : list A) (n : N) (x : A) :
  choice seq n = Ok x -> In x seq.
Proof.
  unfold choice. intros H. apply of_option_ok in H.
  apply list_elem_of_In. apply list_elem_of_lookup. eauto.
Qed.

Lemma choice_raise {A : Type} (seq : list A) (n : N) (e : exn) :
  choice seq n = Raise e -> e = IndexError /\ seq = [].
Proof.
  unfold choice. destruct seq as [|a seq]; [cbn; intros [= <-]; auto|].
  pose proof (Nat.mod_upper_bound (N.to_nat n) (length (a :: seq))
                ltac:(discriminate)) as Hlt.
  destruct (lookup_lt_is_Some_2 (a :: seq) _ Hlt) as [x Hx].
  rewrite Hx. discriminate.
Qed.

Lemma redate_pk (key d : Z) (o : Order) : order_pk (redate key d o) = order_pk o.
Proof. unfold redate. destruct (_ =? _); reflexivity. Qed.

Lemma redate_other (key d : Z) (o : Order) :
  order_pk o <> key -> redate key d o = o.
Proof.
  unfold redate. intros H. destruct (Z.eqb_spec (order_pk o) key); congruence.
Qed.

Lemma lookup_map_inv {A B : Type} (f : A -> B) (l : list A) (i : nat) (y : B) :
  map f l !! i = Some y -> exists x, l !! i = Some x /\ f x = y.
Proof.
  revert i. induction l as [|a l IH]; intros [|i] H; simpl in *;
    try discriminate.
  - injection H as <-. eauto.
  - auto.
Qed.

(** The lines the loop adds belong to its order and carry, each for one
    line of the basket, the key of the product at the position drawn, the
    quantity and the price of the basket line; the loop changes no price. *)
Lemma create_items_lines (order : Z) (tx : TxEnv) (items_data : list Item) :
  forall i objs db,
    let r := create_items order items_data i tx objs db in
    map price (fst r) = map price objs
    /\ exists new,
         order_items (snd r) = order_items db ++ new
         /\ Forall (fun it =>
                      oi_order it = order
                      /\ exists item,
                           In item items_data
                           /\ map pk objs !! item_product item
                              = Some (oi_product it)
                           /\ oi_quantity it = item_quantity item
                           /\ oi_price it = item_price item) new.
Proof.
  induction items_data as [|item rest IH]; intros i objs db; cbn [create_items].
  - split; [reflexivity|]. exists []. rewrite app_nil_r. auto.
  - assert (Hweak : forall (keys : list Z) new,
      Forall (fun it => oi_order it = order
                /\ exists item0, In item0 rest
                     /\ keys !! item_product item0 = Some (oi_product it)
                     /\ oi_quantity it = item_quantity item0
                     /\ oi_price it = item_price item0) new ->
      Forall (fun it => oi_order it = order
                /\ exists item0, In item0 (item :: rest)
                     /\ keys !! item_product item0 = Some (oi_product it)
                     /\ oi_quantity it = item_quantity item0
                     /\ oi_price it = item_price item0) new).
    { intros keys new. apply List.Forall_impl.
      intros it (Ho & item0 & Hin & Hrest). split; [exact Ho|].
      exists item0. split; [right; exact Hin | exact Hrest]. }
    destruct (if item_fault tx i then None else objs !! item_product item)
      as [p|] eqn:Hp.
    2:{ destruct (IH (S i) objs db) as (H1 & new & H2 & H3).
        split; [exact H1|]. exists new. split; [exact H2 | auto]. }
    assert (Hlook : objs !! item_product item = Some p)
      by (destruct (item_fault tx i); [discriminate | exact Hp]).
    assert (Hline : forall it,
              it = {| oi_order := order; oi_product := pk p;
                      oi_quantity := item_quantity item;
                      oi_price := item_price item |} ->
              oi_order it = order
              /\ exists item0, In item0 (item :: rest)
                   /\ map pk objs !! item_product item0 = Some (oi_product it)
                   /\ oi_quantity it = item_quantity item0
                   /\ oi_price it = item_price item0).
    { intros it ->. split; [reflexivity|]. exists item.
      split; [left; reflexivity|].
      split; [exact (lookup_map_some pk _ _ _ Hlook)|]. auto. }
    destruct (item_quantity item <=? stock p).
    + cbv zeta.
      match goal with |- context [create_items order rest (S i) tx ?o ?d] =>
        destruct (IH (S i) o d) as (H1 & new & H2 & H3) end.
      rewrite (map_insert_same price objs (item_product item)
                 (set_stock (Z.max 0 (stock p - item_quantity item)) p) p
                 Hlook eq_refl) in H1.
      rewrite (map_insert_same pk objs (item_product item)
                 (set_stock (Z.max 0 (stock p - item_quantity item)) p) p
                 Hlook eq_refl) in H3.
      split; [exact H1|].
      eexists. split.
      * rewrite H2. destruct (stock_fault tx i); cbn;
          rewrite <- app_assoc; reflexivity.
      * constructor; [apply Hline; reflexivity | auto].
    + destruct (IH (S i) objs
                  (create_order_item
                     {| oi_order := order; oi_product := pk p;
                        oi_quantity := item_quantity item;
                        oi_price := item_price item |} db))
        as (H1 & new & H2 & H3).
      split; [exact H1|].
      eexists. split; [rewrite H2; cbn; rewrite <- app_assoc; reflexivity|].
      constructor; [apply Hline; reflexivity | auto].
Qed.

(** The effect of a transaction whose header is created. *)
Lemma transaction_effect (customers : list Z) (current_date : Z) (tx : TxEnv)
    (st st' : State) :
  one_transaction customers current_date tx st = Ok st' ->
  (order_fault tx = true /\ st' = st)
  \/ (order_fault tx = false
      /\ exists cust items_data new,
           In cust customers
           /\ _generate_order_items (st_products st) (basket_draws tx)
              = Ok items_data
           /\ orders (st_db st')
              = map (redate (next_order_pk (st_db st))
                       (order_date_of current_date tx)) (orders (st_db st))
                ++ [{| order_pk := next_order_pk (st_db st); customer := cust;
                       total_price := basket_total items_data;
                       status := "COMPLETED";
                       created_at := order_date_of current_date tx;
                       updated_at := order_date_of current_date tx |}]
           /\ next_order_pk (st_db st') = next_order_pk (st_db st) + 1
           /\ order_items (st_db st') = order_items (st_db st) ++ new
           /\ Forall (fun it =>
                        oi_order it = next_order_pk (st_db st)
                        /\ exists item,
                             In item items_data
                             /\ map pk (st_products st) !! item_product item
                                = Some (oi_product it)
                             /\ oi_quantity it = item_quantity item
                             /\ oi_price it = item_price item) new
           /\ map pk (st_products st') = map pk (st_products st)
           /\ map price (st_products st') = map price (st_products st)
           /\ st_total_orders st' = st_total_orders st + 1).
Proof.
  intros Hrun.
  apply one_transaction_ok in Hrun
    as (cust & items & Hc & Hb & [[Hf ->] | (Hf & _ & ->)]); [left; auto|].
  right. split; [exact Hf|]. cbv zeta.
  pose proof (create_items_frame (next_order_pk (st_db st)) tx items 0
                (st_products st)
                (header_db cust items current_date tx (st_db st))) as Hfr.
  pose proof (create_items_lines (next_order_pk (st_db st)) tx items 0
                (st_products st)
                (header_db cust items current_date tx (st_db st))) as Hln.
  cbv zeta in Hfr, Hln.
  destruct (create_items _ _ _ _ _ _) as [objs db2]. cbn [fst snd] in *.
  destruct Hfr as (Ho & Hk & _ & Hpk & _).
  destruct Hln as (Hprice & new & Hitems & Hnew).
  exists cust, items, new. cbn [st_db st_products st_total_orders].
  split; [eapply choice_in; eauto|]. split; [exact Hb|].
  split.
  { rewrite Ho, header_db_orders, map_app. cbn [map order_pk].
    rewrite Z.eqb_refl. reflexivity. }
  split; [rewrite Hk; reflexivity|].
  split; [rewrite Hitems; reflexivity|].
  auto.
Qed.

(** *** The invariant of the writer *)

Lemma consecutive_keys_snoc (first : Z) (n : nat) :
  consecutive_keys first (S n)
  = consecutive_keys first n ++ [first + Z.of_nat n].
Proof.
  unfold consecutive_keys. rewrite seq_S, map_app. reflexivity.
Qed.

Lemma consecutive_keys_range (first : Z) (n : nat) (k : Z) :
  In k (consecutive_keys first n) -> first <= k < first + Z.of_nat n.
Proof.
  unfold consecutive_keys. rewrite in_map_iff. intros (i & <- & Hi).
  apply in_seq in Hi. lia.
Qed.

Lemma map_redate_other (key d : Z) (l : list Order) :
  Forall (fun o => order_pk o < key) l -> map (redate key d) l = l.
Proof.
  induction 1 as [|o l Ho _ IH]; cbn; [reflexivity|].
  rewrite IH, redate_other by lia. reflexivity.
Qed.

Lemma drop_app_le {A : Type} (n : nat) (l1 l2 : list A) :
  (n <= length l1)%nat -> drop n (l1 ++ l2) = drop n l1 ++ l2.
Proof.
  intros H. rewrite skipn_app.
  replace (n - length l1)%nat with 0%nat by lia. reflexivity.
Qed.

Lemma take_app_le' {A : Type} (n : nat) (l1 l2 : list A) :
  (n <= length l1)%nat -> take n (l1 ++ l2) = take n l1.
Proof.
  intros H. rewrite firstn_app.
  replace (n - length l1)%nat with 0%nat by lia.
  cbn. apply app_nil_r.
Qed.

Lemma writer_inv_init (self : SalesDataGenerator) (customers : list Z)
    (products : list Product) (db1 : Database) :
  writer_inv self customers products db1
    {| st_products := products; st_db := db1;
       st_total_orders := 0; st_total_revenue := 0 |}.
Proof.
  unfold writer_inv, new_orders, new_items. cbn [st_db st_products].
  rewrite !skipn_all, !firstn_all. cbn.
  repeat split; auto; try lia; constructor.
Qed.

Lemma writer_inv_transaction (self : SalesDataGenerator) (customers : list Z)
    (products : list Product) (db1 : Database) (day : nat) (tx : TxEnv)
    (st st' : State) :
  day_start self day <= end_date self ->
  writer_inv self customers products db1 st ->
  one_transaction customers (day_start self day) tx st = Ok st' ->
  writer_inv self customers products db1 st'.
Proof.
  intros Hday Hinv Hrun.
  apply transaction_effect in Hrun
    as [[_ ->] | (_ & cust & items & new & Hcust & Hbasket & Ho & Hnext & Hi
                  & Hnew & Hpk & Hprice & Hcount)]; [exact Hinv|].
  unfold writer_inv in *. cbv zeta in *. unfold new_orders, new_items in *.
  destruct Hinv as (I1 & I2 & I3 & I4 & I5 & I6 & I7 & I8 & I9 & I10 & I11
                    & I12).
  set (next := next_order_pk (st_db st)) in *.
  set (L := drop (length (orders db1)) (orders (st_db st))) in *.
  set (o := {| order_pk := next; customer := cust;
               total_price := basket_total items; status := "COMPLETED";
               created_at := order_date_of (day_start self day) tx;
               updated_at := order_date_of (day_start self day) tx |}) in *.
  assert (Hold : Forall (fun o => order_pk o < next) L).
  { apply List.Forall_forall. intros o' Hin.
    pose proof (in_map order_pk _ _ Hin) as Hk. rewrite I6 in Hk.
    apply consecutive_keys_range in Hk. lia. }
  assert (Hdrop : drop (length (orders db1)) (orders (st_db st')) = L ++ [o]).
  { rewrite Ho, drop_app_le by (rewrite length_map; exact I1).
    rewrite skipn_map. fold L. rewrite map_redate_other by exact Hold.
    reflexivity. }
  assert (Hlen : length (L ++ [o]) = S (length L))
    by (rewrite length_app; cbn; lia).
  rewrite Hdrop, Hnext, Hi, Hpk, Hprice, Hlen.
  rewrite drop_app_le by exact I2. rewrite take_app_le' by exact I2.
  rewrite map_app, consecutive_keys_snoc. cbn [map].
  change (order_pk o) with next.
  split; [rewrite Ho, length_app, length_map; lia|].
  split; [rewrite length_app; lia|].
  split; [exact I3|]. split; [exact I4|]. split; [lia|].
  split; [rewrite I6; f_equal; f_equal; lia|].
  split.
  { apply Forall_app. split; [exact I7|]. constructor; [|constructor].
    unfold header_written. cbn [o status customer created_at updated_at].
    split; [reflexivity|]. split; [exact Hcust|]. split; [reflexivity|].
    exists day, (randint 8 20 (hour_bits tx)), (randint 0 59 (minute_bits tx)).
    split; [exact Hday|].
    split; [apply randint_range; lia|]. split; [apply randint_range; lia|].
    reflexivity. }
  split.
  { apply Forall_app. split.
    - eapply List.Forall_impl; [|exact I8].
      intros it [H1 H2]. split; [exact H1 | apply in_or_app; left; exact H2].
    - pose proof (basket_drawn _ _ _ Hbasket) as Hdrawn.
      eapply List.Forall_impl; [|exact Hnew].
      intros it (Hord & item & Hin & Hkey & Hq & Hp).
      split; [|apply in_or_app; right; left; symmetry; exact Hord].
      rewrite List.Forall_forall in Hdrawn.
      destruct (Hdrawn item Hin) as (p0 & Hp0 & Hprice0 & Hqty).
      pose proof (lookup_map_some pk _ _ _ Hp0) as Hk0.
      pose proof (lookup_map_some price _ _ _ Hp0) as Hpr0.
      rewrite I3 in Hk0, Hkey. rewrite I4 in Hpr0.
      apply lookup_map_inv in Hk0 as (p & Hlook & Hpkp).
      pose proof (lookup_map_some price _ _ _ Hlook) as Hpr.
      exists p. split.
      { apply list_elem_of_In. apply list_elem_of_lookup. eauto. }
      pose proof (lookup_map_some pk _ _ _ Hlook) as Hk.
      split; [congruence|]. split; [congruence | lia]. }
  split; [exact I9|].
  split.
  { intros Hfresh. specialize (I10 Hfresh).
    rewrite Ho, take_app_le' by (rewrite length_map; exact I1).
    rewrite firstn_map, I10. apply map_redate_other.
    destruct Hfresh as [Hf _].
    eapply List.Forall_impl; [|exact Hf]. intros o' Hlt. cbv beta in Hlt. lia. }
  split; [lia|].
  apply Forall_app. split; [exact I12|]. constructor; [|constructor].
  exists items. split; [eapply basket_length; eauto|].
  split; [|reflexivity].
  eapply List.Forall_impl; [|exact (basket_drawn _ _ _ Hbasket)].
  intros item (p0 & Hp0 & Hprice0 & Hqty).
  pose proof (lookup_map_some price _ _ _ Hp0) as Hpr0. rewrite I4 in Hpr0.
  apply lookup_map_inv in Hpr0 as (p & Hlook & Hpp).
  exists p. split; [exact Hlook|]. split; [congruence | exact Hqty].
Qed.

(** Every run either commits a database that satisfies the invariant of
    the writer, or raises. *)
Lemma committed_run_writer_inv (self : SalesDataGenerator)
    (clear_existing : bool) (products : list Product) (customers : list Z)
    (env : Env) (db : Database) :
  exists outcome db',
    generate_demo_data self clear_existing products customers env db
    = Some (outcome, db')
    /\ forall summary, outcome = Ok summary ->
         exists st,
           writer_inv self customers products (cleared clear_existing db) st
           /\ st_db st = db'
           /\ sum_total_orders summary = st_total_orders st.
Proof.
  destruct (run_outcomes self clear_existing products customers env db
              (writer_inv self customers products (cleared clear_existing db)))
    as (outcome & db' & Hrun & Hout).
  - intros day j st st' Hday. now apply writer_inv_transaction.
  - apply writer_inv_init.
  - exists outcome, db'. split; [exact Hrun|].
    intros summary ->. exact Hout.
Qed.

(** X7. Every order a committed run persisted is marked COMPLETED,
    belongs to a customer of the pool, and has equal creation and update
    timestamps: a day of the simulated window (the start date plus a whole
    number of days, not after the end date) plus between 8 h 00 and
    20 h 59 - never the wall clock of the insertion. *)
Theorem X7_persisted_headers (self : SalesDataGenerator)
    (clear_existing : bool) (products : list Product) (customers : list Z)
    (env : Env) (db : Database) :
  exists outcome db',
    generate_demo_data self clear_existing products customers env db
    = Some (outcome, db')
    /\ forall summary, outcome = Ok summary ->
         Forall (header_written self customers)
           (new_orders (cleared clear_existing db) db').
Proof.
  destruct (committed_run_writer_inv self clear_existing products customers
              env db) as (outcome & db' & Hrun & Hout).
  exists outcome, db'. split; [exact Hrun|].
  intros summary Hs. destruct (Hout summary Hs) as (st & Hinv & <- & _).
  unfold writer_inv in Hinv. cbv zeta in Hinv. tauto.
Qed.

(** X8. Every line a committed run persisted names a product of the
    catalog at the price of that product, in a quantity of 1, 2 or 3, and
    belongs to an order persisted by the same run: the run never prices a
    line otherwise and never attaches a line to an older order. *)
Theorem X8_persisted_lines (self : SalesDataGenerator)
    (clear_existing : bool) (products : list Product) (customers : list Z)
    (env : Env) (db : Database) :
  exists outcome db',
    generate_demo_data self clear_existing products customers env db
    = Some (outcome, db')
    /\ forall summary, outcome = Ok summary ->
         let db1 := cleared clear_existing db in
         Forall (fun it =>
                   catalog_line products it
                   /\ In (oi_order it) (map order_pk (new_orders db1 db')))
           (new_items db1 db').
Proof.
  destruct (committed_run_writer_inv self clear_existing products customers
              env db) as (outcome & db' & Hrun & Hout).
  exists outcome, db'. split; [exact Hrun|].
  intros summary Hs. destruct (Hout summary Hs) as (st & Hinv & <- & _).
  unfold writer_inv in Hinv. cbv zeta in *. tauto.
Qed.



Lemma basket_total_positive (products : list Product) (items_data : list Item) :
  Forall (fun p => 0 < price p) products ->
  (1 <= length items_data)%nat ->
  Forall (line_drawn_from products) items_data ->
  0 < basket_total items_data.
Proof.
  intros Hpos Hlen Hdrawn. rewrite basket_total_sum.
  assert (Hline : forall it, line_drawn_from products it ->
                             0 < item_quantity it * item_price it).
  { intros it (p & Hp & Hprice & Hq).
    rewrite List.Forall_forall in Hpos.
    assert (0 < price p).
    { apply Hpos. apply list_elem_of_In. apply list_elem_of_lookup. eauto. }
    nia. }
  destruct Hdrawn as [|it rest Hit Hrest]; [cbn in Hlen; lia|].
  cbn [map sum_list]. pose proof (Hline it Hit) as Hhead.
  assert (0 <= sum_list (map (fun it0 => item_quantity it0 * item_price it0) rest)).
  { clear Hlen. induction Hrest as [|it' rest' Hit' _ IH]; cbn [map sum_list];
      [lia|].
    pose proof (Hline it' Hit'). lia. }
  lia.
Qed.

(** X24. Every order that a committed run persisted stores the exact
    total of a basket of one to four lines drawn from the catalog, each of
    1, 2 or 3 units at the price of its product; hence, when every price
    of the catalog is positive, every persisted total is positive. *)
Theorem X24_persisted_totals (self : SalesDataGenerator)
    (clear_existing : bool) (products : list Product) (customers : list Z)
    (env : Env) (db : Database) :
  exists outcome db',
    generate_demo_data self clear_existing products customers env db
    = Some (outcome, db')
    /\ forall summary, outcome = Ok summary ->
         let persisted := new_orders (cleared clear_existing db) db' in
         Forall (fun o => exists items_data,
                            (1 <= length items_data <= 4)%nat
                            /\ Forall (line_drawn_from products) items_data
                            /\ total_price o = basket_total items_data)
           persisted
         /\ (Forall (fun p => 0 < price p) products ->
             Forall (fun o => 0 < total_price o) persisted).
Proof.
  destruct (committed_run_writer_inv self clear_existing products customers
              env db) as (outcome & db' & Hrun & Hout).
  exists outcome, db'. split; [exact Hrun|].
  intros summary Hs. destruct (Hout summary Hs) as (st & Hinv & <- & _).
  unfold writer_inv in Hinv. cbv zeta in *.
  assert (Htot : Forall (fun o => exists items_data,
                            (1 <= length items_data <= 4)%nat
                            /\ Forall (line_drawn_from products) items_data
                            /\ total_price o = basket_total items_data)
                   (new_orders (cleared clear_existing db) (st_db st)))
    by tauto.
  split; [exact Htot|].
  intros Hpos. eapply List.Forall_impl; [|exact Htot].
  intros o (items & Hlen & Hdrawn & ->).
  apply (basket_total_positive products); [exact Hpos | lia | exact Hdrawn].
Qed.

(** *** Counting the orders *)

Lemma sales_loop_count (customers : list Z) (current_date : Z)
    (txs : nat -> TxEnv) :
  (forall j, order_fault (txs j) = false) ->
  forall n j st st',
    sales_loop n j customers current_date txs st = Ok st' ->
    st_total_orders st' = st_total_orders st + Z.of_nat n.
Proof.
  intros Hnf. induction n as [|n IH]; intros j st st' Hrun;
    cbn [sales_loop] in Hrun.
  - injection Hrun as <-. lia.
  - apply bind_ok_inv in Hrun as (st1 & H1 & H2).
    apply IH in H2.
    apply transaction_effect in H1 as [[Hf _] | (_ & H1)];
      [rewrite Hnf in Hf; discriminate|].
    destruct H1 as (cust & items & new & H1). lia.
Qed.

Lemma days_loop_count (self : SalesDataGenerator) (customers : list Z)
    (env : Env) :
  (forall day j, order_fault (tx_env (day_env env day) j) = false) ->
  forall fuel day current_date st st',
    days_loop fuel self customers env day current_date st = Some (Ok st') ->
    st_total_orders st + Datetime.days (end_date self - current_date) + 1
    <= st_total_orders st'.
Proof.
  intros Hnf. unfold Datetime.days.
  induction fuel as [|fuel IH]; intros day cur st st' Hrun;
    cbn [days_loop] in Hrun; [discriminate|].
  destruct (Z.leb_spec cur (end_date self)) as [Hc | Hc].
  - destruct (_ ≫= _) as [st1|e] eqn:Hday; [|discriminate].
    apply bind_ok_inv in Hday as (n & Hn & Hday).
    pose proof (daily_count_outcomes self cur (daily_draws (day_env env day)))
      as Hge.
    rewrite Hn in Hge. destruct Hge as [Hge _].
    apply sales_loop_count in Hday; [|apply Hnf].
    apply IH in Hrun.
    unfold Datetime.timedelta_of in Hrun.
    replace (end_date self - (cur + (1 * Datetime.US_PER_DAY + 0 * 3600000000
                                     + 0 * 60000000)))
      with ((end_date self - cur) + (-1) * Datetime.US_PER_DAY) in Hrun by lia.
    rewrite Z.div_add in Hrun by (unfold Datetime.US_PER_DAY; lia). lia.
  - injection Hrun as <-.
    assert ((end_date self - cur) / Datetime.US_PER_DAY < 0)
      by (apply Z.div_lt_upper_bound; unfold Datetime.US_PER_DAY; lia).
    lia.
Qed.

Lemma committed_count (self : SalesDataGenerator) (clear_existing : bool)
    (products : list Product) (customers : list Z) (env : Env)
    (db : Database) summary db' :
  (forall day j, order_fault (tx_env (day_env env day) j) = false) ->
  generate_demo_data self clear_existing products customers env db
  = Some (Ok summary, db') ->
  Datetime.days (end_date self - start_date self) + 1
  <= sum_total_orders summary.
Proof.
  intros Hnf Hrun.
  unfold generate_demo_data, generate_body in Hrun.
  destruct (if clear_existing then _ else _) as [db1|e]; [|discriminate].
  destruct (days_loop _ _ _ _ _ _ _) as [[st|e]|] eqn:Hloop; try discriminate.
  injection Hrun as <- _. cbn [sum_total_orders].
  apply (days_loop_count self customers env Hnf) in Hloop.
  cbn [st_total_orders] in Hloop. lia.
Qed.

(** X10. When no creation of a header fails, a committed run reports at
    least one order for every day of the window: at least the number of
    whole days between the start and the end date, plus one. *)
Theorem X10_one_order_per_day_at_least (self : SalesDataGenerator)
    (clear_existing : bool) (products : list Product) (customers : list Z)
    (env : Env) (db : Database)
    (Hnf : forall day j, order_fault (tx_env (day_env env day) j) = false) :
  exists outcome db',
    generate_demo_data self clear_existing products customers env db
    = Some (outcome, db')
    /\ forall summary, outcome = Ok summary ->
         Datetime.days (end_date self - start_date self) + 1
         <= sum_total_orders summary.
Proof.
  destruct (generate_demo_data_returns self clear_existing products customers
              env db) as (outcome & db' & Hrun).
  exists outcome, db'. split; [exact Hrun|].
  intros summary ->. eapply committed_count; eauto.
Qed.

Lemma X10_one_order_per_day_at_least_witness :
  (forall day j, order_fault (tx_env (day_env clean_env day) j) = false)
  /\ exists outcome db',
       generate_demo_data demo_generator false [demo_product] [7] clean_env
         demo_db
       = Some (outcome, db').
Proof.
  assert (H1 : forall day j,
             order_fault (tx_env (day_env clean_env day) j) = false)
    by reflexivity.
  split; [exact H1|].
  destruct (X10_one_order_per_day_at_least demo_generator false [demo_product]
              [7] clean_env demo_db H1) as (outcome & db' & Hrun & _).
  exists outcome, db'. exact Hrun.
Defined.

(** *** The exceptions that end a run *)

Lemma transaction_raise (customers : list Z) (current_date : Z) (tx : TxEnv)
    (st : State) (e : exn) :
  one_transaction customers current_date tx st = Raise e ->
  (e = IndexError /\ (customers = [] \/ st_products st = []))
  \/ (e = ValueError /\ st_products st <> [])
  \/ (e = DatabaseError /\ update_fault tx = true).
Proof.
  unfold one_transaction. intros H.
  destruct (choice customers (customer_bits tx)) as [cust|e1] eqn:Hc.
  2:{ rewrite bind_raise in H. injection H as <-.
      apply choice_raise in Hc as [-> ->]. auto. }
  rewrite bind_ok in H.
  destruct (_generate_order_items _ _) as [items|e1] eqn:Hb.
  2:{ rewrite bind_raise in H. injection H as <-.
      apply order_items_raise in Hb as [[-> Hb] | [-> Hb]]; auto. }
  rewrite bind_ok in H. cbv zeta in H.
  destruct (order_fault tx); [discriminate|].
  cbn [create_order] in H.
  destruct (update_fault tx); [|rewrite bind_ok in H].
  - rewrite bind_raise in H. injection H as <-. auto.
  - destruct (create_items _ _ _ _ _ _). discriminate.
Qed.




(** *** The entry point *)

Lemma constructed_window_days (now1 now2 : Z) :
  now1 <= now2 < now1 + Datetime.US_PER_DAY ->
  Datetime.days (end_date (__init__ now1 now2) - start_date (__init__ now1 now2))
  = 730.
Proof. apply window_total_days. Qed.

(** X13. [generate_sales_data] on a clock that does not go back and a
    constructor that takes less than a day: the call returns; it never
    raises [ZeroDivisionError]; and when no creation of a header fails, a
    committed summary counts at least 731 orders, one for each day from
    730 days ago to now. *)
Theorem X13_generate_sales_data (now1 now2 : Z) (clear_existing : bool)
    (products : list Product) (customers : list Z) (env : Env)
    (db : Database)
    (Hnow : now1 <= now2 < now1 + Datetime.US_PER_DAY) :
  exists outcome db',
    generate_sales_data now1 now2 clear_existing products customers env db
    = Some (outcome, db')
    /\ outcome <> Raise ZeroDivisionError
    /\ ((forall day j, order_fault (tx_env (day_env env day) j) = false) ->
        forall summary, outcome = Ok summary ->
          731 <= sum_total_orders summary).
Proof.
  unfold generate_sales_data. cbv zeta.
  pose proof (constructed_window_days now1 now2 Hnow) as Hdays.
  destruct (run_outcomes (__init__ now1 now2) clear_existing products
              customers env db (fun _ => True))
    as (outcome & db' & Hrun & Hout); [auto | exact I |].
  exists outcome, db'. split; [exact Hrun|]. split.
  - intros ->. destruct Hout as [_ Hwhy].
    destruct Hwhy as [(_ & _ & H) | (day & _ & [Hcount | (j & st1 & _ & Htx)])].
    + discriminate H.
    + pose proof (daily_count_outcomes (__init__ now1 now2)
                    (day_start (__init__ now1 now2) day)
                    (daily_draws (day_env env day))) as Ho.
      rewrite Hcount, Hdays in Ho. cbn in Ho. destruct Ho; discriminate.
    + apply transaction_raise in Htx as [[H _] | [[H _] | [H _]]];
        discriminate H.
  - intros Hnf summary Hs.
    subst outcome.
    pose proof (committed_count _ _ _ _ _ _ _ _ Hnf Hrun) as Hc.
    rewrite Hdays in Hc. lia.
Qed.

Lemma X13_generate_sales_data_witness :
  demo_now <= demo_now < demo_now + Datetime.US_PER_DAY
  /\ exists outcome db',
       generate_sales_data demo_now demo_now false [demo_product] [7]
         clean_env demo_db
       = Some (outcome, db').
Proof.
  assert (H1 : demo_now <= demo_now < demo_now + Datetime.US_PER_DAY)
    by (unfold Datetime.US_PER_DAY; lia).
  split; [exact H1|].
  destruct (X13_generate_sales_data demo_now demo_now false [demo_product] [7]
              clean_env demo_db H1) as (outcome & db' & Hrun & _).
  exists outcome, db'. exact Hrun.
Defined.

(** ** The maintenance pass *)

Lemma eqb_refl_not_nan (x : float) : Float.eqb x x = negb (is_nan x).
Proof.
  unfold Float.eqb, SFeqb, SFcompare.
  destruct x as [s|s| |s m e]; try (destruct s); cbn; try reflexivity;
    rewrite Z.compare_refl; try rewrite Pos.compare_cont_refl;
    try rewrite Pos.compare_refl; reflexivity.
Qed.

(** What the pass compares after the backfill of one product. *)
Lemma backfill_changed (p : Product) (dr : MetricDraws) (t : list Product) :
  let p' := out_product (_ensure_product_metrics p dr t) in
  ne_rating (rating p') (rating p)
  || ne_energy (energy_kwh_per_year p') (energy_kwh_per_year p)
  = counted_as_updated p dr.
Proof.
  cbv zeta. unfold counted_as_updated.
  destruct (ensure_outcome p dr t) as (Hr & He & _). cbv zeta in Hr, He.
  rewrite Hr, He.
  destruct (derive_rating_range p dr) as (r & -> & _).
  pose proof (derive_energy_cases p dr) as Hc.
  destruct (rating p) as [r0|]; destruct (energy_kwh_per_year p) as [e|];
    cbn [ne_rating ne_energy orb negb];
    rewrite ?Z.eqb_refl, ?eqb_refl_not_nan, ?negb_involutive;
    cbn [negb orb]; try reflexivity;
    (destruct (category_fault dr);
     [rewrite Hc | destruct Hc as (n & -> & _)]); reflexivity.
Qed.

Lemma ensure_table_independent (p : Product) (dr : MetricDraws)
    (t : list Product) :
  let o := _ensure_product_metrics p dr t in
  let o0 := _ensure_product_metrics p dr [] in
  out_product o = out_product o0
  /\ out_save_called o = out_save_called o0
  /\ out_table o
     = if out_save_called o0 && negb (save_fault dr)
       then save_row (row_of (out_product o0)) t else t.
Proof.
  cbv zeta. unfold _ensure_product_metrics.
  destruct (rating p); [|destruct (derive_rating p dr)];
    cbn [energy_kwh_per_year set_rating];
    (destruct (energy_kwh_per_year p);
     [|match goal with |- context [derive_energy ?q dr] =>
         destruct (derive_energy q dr) end]);
    cbn [out_product out_table out_save_called andb];
    destruct (save_fault dr); auto.
Qed.


Lemma ensure_same_columns (p : Product) (dr : MetricDraws) (t : list Product) :
  same_columns p (out_product (_ensure_product_metrics p dr t)).
Proof.
  unfold _ensure_product_metrics.
  destruct (rating p); [|destruct (derive_rating p dr)];
    cbn [energy_kwh_per_year set_rating];
    (destruct (energy_kwh_per_year p);
     [|match goal with |- context [derive_energy ?q dr] =>
         destruct (derive_energy q dr) end]);
    cbn [out_product]; unfold same_columns; cbn; tauto.
Qed.







(** The counters of the loop, on any table. *)
Lemma update_loop_counts (limit : Z) (draws : nat -> MetricDraws)
    (products : list Product) :
  forall (table : list Product) (i : nat) (checked updated : Z),
    0 <= checked ->
    let r := update_loop limit products i draws table checked updated in
    let k := Z.to_nat (if limit =? 0 then Z.of_nat (length products)
                       else Z.min (Z.of_nat (length products))
                              (Z.max 0 (limit - checked))) in
    products_checked (fst r) = checked + Z.of_nat k
    /\ products_updated (fst r)
       = updated + count_updated (take k products) i draws.
Proof.
  induction products as [|p rest IH]; intros table i checked updated Hc;
    cbn [update_loop]; cbv zeta.
  - cbn [fst products_checked products_updated length].
    replace (Z.to_nat _) with 0%nat by (destruct (limit =? 0); lia).
    cbn. lia.
  - destruct (negb (limit =? 0) && (limit <=? checked)) eqn:Hbreak.
    + apply andb_prop in Hbreak as [H1 H2].
      apply negb_true_iff in H1. apply Z.leb_le in H2. rewrite H1.
      cbn [fst products_checked products_updated].
      replace (Z.to_nat _) with 0%nat by lia.
      cbn. lia.
    + pose proof (backfill_changed p (draws i) table) as Hch.
      cbv zeta in Hch. rewrite Hch. clear Hch.
      match goal with |- context [update_loop limit rest (S i) draws ?t ?c ?u] =>
        destruct (IH t (S i) c u ltac:(lia)) as (H1 & H2) end.
      cbv zeta in H1, H2. rewrite H1, H2. clear H1 H2.
      cbn [length].
      set (k' := Z.to_nat (if limit =? 0 then Z.of_nat (length rest)
                           else Z.min (Z.of_nat (length rest))
                                  (Z.max 0 (limit - (checked + 1))))).
      assert (Hk : Z.to_nat (if limit =? 0 then Z.of_nat (S (length rest))
                             else Z.min (Z.of_nat (S (length rest)))
                                    (Z.max 0 (limit - checked))) = S k').
      { subst k'. apply andb_false_iff in Hbreak.
        destruct (Z.eqb_spec limit 0) as [E | E]; [lia|].
        destruct Hbreak as [Hb | Hb]; [discriminate Hb|].
        apply Z.leb_gt in Hb. lia. }
      rewrite Hk. cbn [take count_updated].
      split; [lia|]. destruct (counted_as_updated p (draws i)); lia.
Qed.

Lemma count_updated_row_of (rows : list Product) (draws : nat -> MetricDraws) :
  forall i, count_updated (map row_of rows) i draws = count_updated rows i draws.
Proof.
  induction rows as [|row rest IH]; intros i; cbn [map count_updated];
    [reflexivity|].
  rewrite IH. reflexivity.
Qed.

Lemma count_updated_bounds (draws : nat -> MetricDraws) (l : list Product) :
  forall i, 0 <= count_updated l i draws <= Z.of_nat (length l).
Proof.
  induction l as [|p l IHl]; intros i; cbn [count_updated length]; [lia|].
  specialize (IHl (S i)). destruct (counted_as_updated p (draws i)); lia.
Qed.

Lemma checked_count_eq (limit : Z) (n : nat) :
  (if limit =? 0 then Z.of_nat n else Z.min (Z.of_nat n) (Z.max 0 (limit - 0)))
  = checked_count limit n.
Proof. unfold checked_count. destruct (limit =? 0); lia. Qed.

Lemma checked_count_range (limit : Z) (n : nat) :
  0 <= checked_count limit n <= Z.of_nat n.
Proof. unfold checked_count. destruct (limit =? 0); lia. Qed.

(** X14. The pass checks every product when the limit is 0, none when
    it is negative, and otherwise the first [limit] of them; it counts as
    updated the checked products that had no rating, or no energy estimate
    while their category could be read - and those whose stored estimate
    is a NaN, although nothing is written for them. *)
Theorem X14_metrics_pass_counts (limit : Z) (draws : nat -> MetricDraws)
    (table : list Product) :
  let report := fst (update_products_metrics limit draws table) in
  let k := Z.to_nat (checked_count limit (length table)) in
  products_checked report = checked_count limit (length table)
  /\ products_updated report = count_updated (take k table) 0 draws
  /\ 0 <= products_updated report <= products_checked report.
Proof.
  cbv zeta. unfold update_products_metrics.
  destruct (update_loop_counts limit draws (map row_of table) table 0 0 0
              ltac:(lia)) as (H1 & H2).
  cbv zeta in H1, H2. rewrite length_map, checked_count_eq in H1, H2.
  pose proof (checked_count_range limit (length table)) as Hc.
  rewrite H1, H2, firstn_map, count_updated_row_of.
  split; [lia|]. split; [reflexivity|].
  pose proof (count_updated_bounds draws
                (take (Z.to_nat (checked_count limit (length table))) table) 0%nat)
    as Hb.
  rewrite length_take in Hb. lia.
Qed.
















(** ** The customer pool *)

Lemma seeded_bind_ok {A B : Type} (a : A) (f : A -> seeded B) :
  (Seeded a ≫= f) = f a.
Proof. reflexivity. Qed.

Lemma seeded_bind_failed {A B : Type} (e : seed_exn) (f : A -> seeded B) :
  (Failed e ≫= f) = Failed e.
Proof. reflexivity. Qed.

Lemma get_unique_spec {A : Type} (matches : A -> bool) (rows : list A) :
  match get_unique matches rows with
  | Seeded (Some a) => List.filter matches rows = [a]
  | Seeded None => List.filter matches rows = []
  | Failed e =>
      e = MultipleObjectsReturned
      /\ (2 <= length (List.filter matches rows))%nat
  end.
Proof.
  unfold get_unique.
  destruct (List.filter matches rows) as [|a [|b l]]; cbn; auto.
  split; [reflexivity | lia].
Qed.

Lemma in_take {A : Type} (x : A) (n : nat) (l : list A) :
  In x (take n l) -> In x l.
Proof.
  revert l. induction n as [|n IH]; intros [|a l]; simpl; try tauto.
  intros [H | H]; auto.
Qed.

Lemma map_on_fresh_key (key : Z) (g : User -> User) (rows : list User)
    (u0 : User) :
  Forall (fun u => user_pk u < key) rows -> user_pk u0 = key ->
  map (fun r => if user_pk r =? key then g r else r) (rows ++ [u0])
  = rows ++ [g u0].
Proof.
  intros Hfresh Hkey. rewrite map_app. cbn [map].
  rewrite Hkey, Z.eqb_refl. f_equal.
  induction Hfresh as [|r rows Hr _ IH]; cbn; [reflexivity|].
  rewrite IH. destruct (Z.eqb_spec (user_pk r) key); [lia | reflexivity].
Qed.

Lemma create_profile_fresh (key : Z) (role : string) (rows : list User)
    (u0 : User) (next : Z) :
  Forall (fun u => user_pk u < key) rows -> user_pk u0 = key ->
  user_rows (create_profile key role
               {| user_rows := rows ++ [u0]; next_user_pk := next |})
  = rows ++ [set_profile role u0].
Proof.
  intros Hfresh Hkey. unfold create_profile. cbn [user_rows].
  exact (map_on_fresh_key key (set_profile role) rows u0 Hfresh Hkey).
Qed.

Lemma save_user_fresh (u1 : User) (rows : list User) (u0 : User) (next : Z) :
  Forall (fun u => user_pk u < user_pk u1) rows -> user_pk u0 = user_pk u1 ->
  user_rows (save_user u1 {| user_rows := rows ++ [u0]; next_user_pk := next |})
  = rows ++ [{| user_pk := user_pk u1; username := username u1;
                email := email u1; first_name := first_name u1;
                last_name := last_name u1; password := password u1;
                profile_role := profile_role u0 |}].
Proof.
  intros Hfresh Hkey. unfold save_user. cbn [user_rows].
  exact (map_on_fresh_key (user_pk u1)
           (fun r => {| user_pk := user_pk u1; username := username u1;
                        email := email u1; first_name := first_name u1;
                        last_name := last_name u1; password := password u1;
                        profile_role := profile_role r |})
           rows u0 Hfresh Hkey).
Qed.

(** One iteration of the loop over the names, when it does not raise:
    the one user of that name is returned and nothing is written, or no
    user has that name and one row is appended under a fresh key. *)
Lemma customer_step (name mail first last : string) (dr : CustomerDraws)
    (t : UserTable) (r : User * bool * UserTable) :
  users_fresh t ->
  get_or_create_user name mail first last dr t = Seeded r ->
  let '(user, created, t0) := r in
  let '(user', t') :=
    if created : bool then
      let user := set_password (password_hash dr) user in
      let t := if user_save_fault dr then t0 else save_user user t0 in
      match profile_role user with
      | None =>
          if profile_fault dr then (user, t)
          else (set_profile "CLIENT" user,
                create_profile (user_pk user) "CLIENT" t)
      | Some _ => (user, t)
      end
    else (user, t0) in
  username user' = name
  /\ users_fresh t'
  /\ In (user_pk user') (map user_pk (user_rows t'))
  /\ ((matching_users name t = [user'] /\ t' = t)
      \/ (matching_users name t = []
          /\ user_create_fault dr = false
          /\ exists row,
               user_rows t' = user_rows t ++ [row]
               /\ username row = name /\ user_pk row = next_user_pk t
               /\ user_pk user' = next_user_pk t
               /\ next_user_pk t' = next_user_pk t + 1)).
Proof.
  intros Hfresh. unfold get_or_create_user, get_user.
  pose proof (get_unique_spec (fun u => String.eqb (username u) name)
                (user_rows t)) as Hget.
  fold (matching_users name t) in Hget.
  destruct (get_unique _ _) as [[u|]|e]; [| |discriminate].
  - rewrite seeded_bind_ok. intros [= <-].
    assert (Hin : In u (matching_users name t)) by (rewrite Hget; now left).
    apply filter_In in Hin as [Hin Hname]. apply String.eqb_eq in Hname.
    split; [exact Hname|]. split; [exact Hfresh|].
    split; [apply in_map; exact Hin|]. left. auto.
  - rewrite seeded_bind_ok.
    destruct (user_create_fault dr) eqn:Hcf; [discriminate|].
    intros [= <-]. cbv zeta.
    set (u0 := {| user_pk := next_user_pk t; username := name; email := mail;
                  first_name := first; last_name := last; password := "";
                  profile_role := signal_role dr |}).
    set (u1 := set_password (password_hash dr) u0).
    set (t0 := {| user_rows := user_rows t ++ [u0];
                  next_user_pk := next_user_pk t + 1 |}).
    set (t1 := if user_save_fault dr then t0 else save_user u1 t0).
    assert (Ht1 : exists row,
              t1 = {| user_rows := user_rows t ++ [row];
                      next_user_pk := next_user_pk t + 1 |}
              /\ username row = name /\ user_pk row = next_user_pk t).
    { subst t1. destruct (user_save_fault dr).
      - exists u0. auto.
      - eexists. split; [|split].
        + unfold save_user at 1. cbn [next_user_pk t0]. f_equal.
          change (map _ (user_rows t0)) with (user_rows (save_user u1 t0)).
          exact (save_user_fresh u1 (user_rows t) u0 _ Hfresh eq_refl).
        + reflexivity.
        + reflexivity. }
    destruct Ht1 as (row1 & Ht1 & Hname1 & Hpk1). clearbody t1. subst t1.
    assert (Hfresh_app : forall row,
              user_pk row = next_user_pk t ->
              users_fresh {| user_rows := user_rows t ++ [row];
                             next_user_pk := next_user_pk t + 1 |}).
    { intros row Hrow. unfold users_fresh. cbn [user_rows next_user_pk].
      apply Forall_app. split.
      - eapply List.Forall_impl; [|exact Hfresh]. intros a Ha. cbv beta in Ha. lia.
      - constructor; [lia | constructor]. }
    assert (Hin_app : forall row,
              user_pk row = next_user_pk t ->
              In (next_user_pk t) (map user_pk (user_rows t ++ [row]))).
    { intros row Hrow. rewrite map_app. apply in_or_app. right. left. exact Hrow. }
    assert (Hplain : forall user',
              username user' = name -> user_pk user' = next_user_pk t ->
              forall row,
                username row = name -> user_pk row = next_user_pk t ->
                username user' = name
                /\ users_fresh {| user_rows := user_rows t ++ [row];
                                  next_user_pk := next_user_pk t + 1 |}
                /\ In (user_pk user')
                     (map user_pk
                        (user_rows {| user_rows := user_rows t ++ [row];
                                      next_user_pk := next_user_pk t + 1 |}))
                /\ ((matching_users name t = [user']
                     /\ {| user_rows := user_rows t ++ [row];
                           next_user_pk := next_user_pk t + 1 |} = t)
                    \/ (matching_users name t = []
                        /\ false = false
                        /\ exists row0,
                             user_rows {| user_rows := user_rows t ++ [row];
                                          next_user_pk := next_user_pk t + 1 |}
                             = user_rows t ++ [row0]
                             /\ username row0 = name
                             /\ user_pk row0 = next_user_pk t
                             /\ user_pk user' = next_user_pk t
                             /\ next_user_pk
                                  {| user_rows := user_rows t ++ [row];
                                     next_user_pk := next_user_pk t + 1 |}
                                = next_user_pk t + 1))).
    { intros user' Hn Hk row Hrn Hrk.
      split; [exact Hn|]. split; [apply Hfresh_app; exact Hrk|].
      split; [rewrite Hk; apply Hin_app; exact Hrk|]. right.
      split; [exact Hget|]. split; [reflexivity|].
      exists row. auto. }
    destruct (profile_role u1) as [role|] eqn:Hrole;
      [apply Hplain; auto|].
    destruct (profile_fault dr); [apply Hplain; auto|].
    change (user_pk u1) with (next_user_pk t).
    assert (Hrows : create_profile (next_user_pk t) "CLIENT"
                      {| user_rows := user_rows t ++ [row1];
                         next_user_pk := next_user_pk t + 1 |}
                    = {| user_rows := user_rows t ++ [set_profile "CLIENT" row1];
                         next_user_pk := next_user_pk t + 1 |}).
    { unfold create_profile at 1. cbn [next_user_pk]. f_equal.
      exact (create_profile_fresh _ "CLIENT" (user_rows t) row1
               (next_user_pk t + 1) Hfresh Hpk1). }
    rewrite Hrows. apply Hplain; auto.
Qed.

Lemma matching_users_app (name : string) (rows new : list User) (n1 n2 : Z) :
  Forall (fun u => username u <> name) new ->
  matching_users name {| user_rows := rows ++ new; next_user_pk := n1 |}
  = matching_users name {| user_rows := rows; next_user_pk := n2 |}.
Proof.
  intros Hnew. unfold matching_users. cbn [user_rows].
  rewrite List.filter_app.
  replace (List.filter _ new) with (@nil User); [apply app_nil_r|].
  induction Hnew as [|u new Hu _ IH]; cbn; [reflexivity|].
  destruct (String.eqb_spec (username u) name); [contradiction | exact IH].
Qed.

Lemma customers_loop_outcomes (draws : nat -> CustomerDraws)
    (names : list (string * string)) :
  forall (idx : nat) (t : UserTable) (customers : list User),
    users_fresh t ->
    let wanted := map username_of (seq idx (length names)) in
    match customers_loop names idx draws t customers with
    | Seeded (cs, t') =>
        users_fresh t'
        /\ (exists added,
              cs = customers ++ added
              /\ map username added = wanted
              /\ Forall (fun u => In (user_pk u) (map user_pk (user_rows t')))
                   added)
        /\ (exists new,
              user_rows t' = user_rows t ++ new
              /\ Forall (fun u => In (username u) wanted) new)
        /\ (Forall (fun name => matching_users name t <> []) wanted -> t' = t)
        /\ (NoDup wanted ->
            Forall (fun name => length (matching_users name t') = 1%nat) wanted)
    | Failed e =>
        ((e = Propagated DatabaseError
          /\ exists i, (idx <= i < idx + length names)%nat
                       /\ user_create_fault (draws i) = true)
         \/ e = MultipleObjectsReturned)
        /\ ~ Forall (fun name => length (matching_users name t) = 1%nat) wanted
    end.
Proof.
  induction names as [|[first last] rest IH]; intros idx t customers Hfresh;
    cbn [customers_loop length seq map]; cbv zeta.
  - split; [exact Hfresh|]. split.
    { exists []. rewrite app_nil_r. auto. }
    split; [exists []; rewrite app_nil_r; auto|]. split; [auto|].
    intros _. constructor.
  - destruct (get_or_create_user _ _ _ _ _ t) as [r|e] eqn:Hg.
    2:{ rewrite seeded_bind_failed. unfold get_or_create_user, get_user in Hg.
        pose proof (get_unique_spec
                      (fun u => String.eqb (username u) (username_of idx))
                      (user_rows t)) as Hget.
        fold (matching_users (username_of idx) t) in Hget.
        destruct (get_unique _ _) as [[u|]|e0].
        - discriminate Hg.
        - rewrite seeded_bind_ok in Hg.
          destruct (user_create_fault (draws idx)) eqn:Hf; [|discriminate].
          injection Hg as <-. split.
          + left. split; [reflexivity|]. exists idx. split; [lia | exact Hf].
          + intros Hall. apply Forall_cons in Hall as [Hhead _].
            rewrite Hget in Hhead. discriminate Hhead.
        - rewrite seeded_bind_failed in Hg. injection Hg as <-.
          destruct Hget as [-> Hlen]. split; [right; reflexivity|].
          intros Hall. apply Forall_cons in Hall as [Hhead _]. lia. }
    rewrite seeded_bind_ok.
    pose proof (customer_step _ _ _ _ _ _ _ Hfresh Hg) as Hstep.
    destruct r as [[user created] t0].
    destruct (if created then _ else _) as [user' t1].
    destruct Hstep as (Hname & Hfresh1 & Hpk & Hcase).
    specialize (IH (S idx) t1 (customers ++ [user']) Hfresh1).
    cbv zeta in IH.
    destruct (customers_loop rest (S idx) draws t1 (customers ++ [user']))
      as [[cs t']|e].
    + destruct IH as (Hf' & (added & Hcs & Hnames & Hpks)
                      & (new & Hrows & Hnew) & Hsame & Hpresent).
      split; [exact Hf'|]. split.
      { exists (user' :: added). split; [rewrite Hcs, <- app_assoc; reflexivity|].
        split; [cbn; now rewrite Hname, Hnames|].
        constructor; [|exact Hpks].
        rewrite Hrows, map_app. apply in_or_app. now left. }
      split.
      { destruct Hcase as [(_ & ->) | (_ & _ & row & Hr & Hrn & _)].
        - exists new. split; [exact Hrows|].
          eapply List.Forall_impl; [|exact Hnew]. intros u Hu. now right.
        - exists (row :: new). split.
          + rewrite Hrows, Hr, <- app_assoc. reflexivity.
          + constructor; [left; symmetry; exact Hrn|].
            eapply List.Forall_impl; [|exact Hnew]. intros u Hu. now right. }
      split.
      { intros Hall. apply Forall_cons in Hall as [Hhead Hall].
        destruct Hcase as [(_ & ->) | (Hnot & _)]; [|contradiction].
        apply Hsame. exact Hall. }
      intros Hnd. apply NoDup_cons in Hnd as [Hnotin Hnd].
      constructor; [|exact (Hpresent Hnd)].
      assert (Hone : length (matching_users (username_of idx) t1) = 1%nat).
      { destruct Hcase as [(Hm & ->) | (Hm & _ & row & Hr & Hrn & _)].
        - now rewrite Hm.
        - unfold matching_users in *. rewrite Hr, List.filter_app, Hm.
          cbn. rewrite Hrn, String.eqb_refl. reflexivity. }
      rewrite <- Hone. f_equal.
      destruct t' as [rows' next'], t1 as [rows1 next1]. cbn [user_rows] in Hrows.
      subst rows'. apply matching_users_app.
      eapply List.Forall_impl; [|exact Hnew].
      intros u Hu Heq. apply Hnotin. rewrite <- Heq.
      apply list_elem_of_In. exact Hu.
    + destruct IH as (Hwhy & Hnot). split.
      * destruct Hwhy as [(-> & i & Hi & Hf) | ->]; [left | right; reflexivity].
        split; [reflexivity|]. exists i. split; [lia | exact Hf].
      * intros Hall. apply Forall_cons in Hall as [Hhead Hall].
        destruct Hcase as [(_ & ->) | (Habsent & _)].
        -- apply Hnot. exact Hall.
        -- rewrite Habsent in Hhead. discriminate Hhead.
Qed.

Lemma all_distinct_NoDup (l : list string) :
  all_distinct l = true -> NoDup l.
Proof.
  induction l as [|x rest IH]; cbn; intros H; [constructor|].
  apply andb_prop in H as [Hx Hrest]. apply negb_true_iff in Hx.
  apply NoDup_cons. split; [|auto].
  intros Hin. apply list_elem_of_In in Hin.
  assert (Hex : existsb (String.eqb x) rest = true)
    by (apply existsb_exists; exists x; split; [exact Hin | apply String.eqb_refl]).
  congruence.
Qed.

Lemma wanted_usernames_distinct : NoDup (map username_of (seq 1 16)).
Proof. apply all_distinct_NoDup. vm_compute. reflexivity. Qed.

Lemma customers_outcomes (draws : nat -> CustomerDraws) (t : UserTable) :
  users_fresh t ->
  match _create_demo_customers_if_needed draws t with
  | Seeded (customers, t') =>
      (15 <= length customers <= 30)%nat
      /\ users_fresh t'
      /\ Forall (fun u => In (user_pk u) (map user_pk (user_rows t')))
           customers
      /\ (exists new, user_rows t' = user_rows t ++ new)
      /\ (let clients := take 30 (List.filter is_client (user_rows t)) in
          if (15 <=? length clients)%nat
          then customers = clients /\ t' = t
          else map username customers = map username_of (seq 1 16)
               /\ Forall (fun name => length (matching_users name t') = 1%nat)
                    (map username_of (seq 1 16)))
  | Failed e =>
      ((e = Propagated DatabaseError
        /\ exists i, (1 <= i <= 16)%nat /\ user_create_fault (draws i) = true)
       \/ e = MultipleObjectsReturned)
      /\ ~ Forall (fun name => length (matching_users name t) = 1%nat)
             (map username_of (seq 1 16))
  end.
Proof.
  intros Hfresh. unfold _create_demo_customers_if_needed. cbv zeta.
  destruct (Nat.leb_spec 15 (length (take 30 (List.filter is_client (user_rows t)))))
    as [Hc | Hc].
  - split; [rewrite length_take in *; lia|]. split; [exact Hfresh|].
    split.
    { apply List.Forall_forall. intros u Hin. apply in_take in Hin.
      apply filter_In in Hin as [Hin _]. apply in_map. exact Hin. }
    split; [exists []; now rewrite app_nil_r|]. auto.
  - pose proof (customers_loop_outcomes draws base_names 1 t [] Hfresh) as H.
    cbv zeta in H. change (length base_names) with 16%nat in H.
    destruct (customers_loop base_names 1 draws t []) as [[cs t']|e].
    + destruct H as (Hf' & (added & Hcs & Hnames & Hpks) & (new & Hrows & _)
                     & _ & Hpresent).
      cbn [app] in Hcs. subst cs.
      assert (Hlen : length added = 16%nat).
      { apply (f_equal (@length string)) in Hnames.
        rewrite !length_map, length_seq in Hnames. exact Hnames. }
      split; [lia|]. split; [exact Hf'|]. split; [exact Hpks|].
      split; [exists new; exact Hrows|].
      split; [exact Hnames | exact (Hpresent wanted_usernames_distinct)].
    + destruct H as (Hwhy & Hnot). split; [|exact Hnot].
      destruct Hwhy as [(-> & i & Hi & Hf) | ->]; [left | right; reflexivity].
      split; [reflexivity|]. exists i. split; [lia | exact Hf].
Qed.

(** X17. On a table whose keys are below the key counter, the customer
    bootstrap returns a pool of 15 to 30 users, each a row of the table:
    the first 30 clients when there are at least 15 of them, the table
    being then left as it was; otherwise the 16 users named cliente1 to
    cliente16, found or created, the rows that were there being kept as
    they were. It raises only when the creation of one of these users
    fails or when several users share one of these names. *)
Theorem X17_customer_pool (draws : nat -> CustomerDraws) (t : UserTable)
    (Hfresh : users_fresh t) :
  match _create_demo_customers_if_needed draws t with
  | Seeded (customers, t') =>
      (15 <= length customers <= 30)%nat
      /\ Forall (fun u => In (user_pk u) (map user_pk (user_rows t')))
           customers
      /\ (exists new, user_rows t' = user_rows t ++ new)
      /\ (let clients := take 30 (List.filter is_client (user_rows t)) in
          if (15 <=? length clients)%nat
          then customers = clients /\ t' = t
          else map username customers = map username_of (seq 1 16))
  | Failed e =>
      (e = Propagated DatabaseError
       /\ exists i, (1 <= i <= 16)%nat /\ user_create_fault (draws i) = true)
      \/ e = MultipleObjectsReturned
  end.
Proof.
  pose proof (customers_outcomes draws t Hfresh) as H.
  destruct (_create_demo_customers_if_needed draws t) as [[cs t']|e].
  - destruct H as (H1 & _ & H3 & H4 & H5).
    split; [exact H1|]. split; [exact H3|]. split; [exact H4|].
    cbv zeta in *. destruct (15 <=? _)%nat; tauto.
  - exact (proj1 H).
Qed.

Lemma X17_customer_pool_witness :
  users_fresh no_users
  /\ exists customers t',
       _create_demo_customers_if_needed plain_customer_draws no_users
       = Seeded (customers, t')
       /\ (15 <= length customers <= 30)%nat.
Proof.
  assert (H1 : users_fresh no_users) by constructor.
  split; [exact H1|].
  pose proof (X17_customer_pool plain_customer_draws no_users H1) as H.
  destruct (_create_demo_customers_if_needed plain_customer_draws no_users)
    as [[cs t']|e] eqn:E.
  - exists cs, t'. split; [reflexivity | exact (proj1 H)].
  - exfalso. vm_compute in E. discriminate E.
Defined.

(** X18. The customer bootstrap is idempotent on the table: a call that
    follows a call that returned also returns, and creates no user and no
    profile and changes no row, whatever its draws. *)
Theorem X18_customer_pool_idempotent (draws1 draws2 : nat -> CustomerDraws)
    (t t' : UserTable) (customers : list User)
    (Hfresh : users_fresh t)
    (Hrun : _create_demo_customers_if_needed draws1 t = Seeded (customers, t')) :
  exists customers2,
    _create_demo_customers_if_needed draws2 t' = Seeded (customers2, t').
Proof.
  pose proof (customers_outcomes draws1 t Hfresh) as H. rewrite Hrun in H.
  destruct H as (_ & Hf' & _ & _ & H5). cbv zeta in H5.
  unfold _create_demo_customers_if_needed at 1. cbv zeta.
  destruct (15 <=? length (take 30 (List.filter is_client (user_rows t'))))%nat
    eqn:E2; [eauto|].
  destruct (15 <=? length (take 30 (List.filter is_client (user_rows t))))%nat
    eqn:E1.
  - destruct H5 as [_ ->]. congruence.
  - destruct H5 as [_ Hpresent].
    pose proof (customers_loop_outcomes draws2 base_names 1 t' [] Hf') as H.
    cbv zeta in H. change (length base_names) with 16%nat in H.
    destruct (customers_loop base_names 1 draws2 t' []) as [[cs2 t2]|e] eqn:E.
    + destruct H as (_ & _ & _ & Hsame & _).
      rewrite Hsame; [eauto|].
      eapply List.Forall_impl; [|exact Hpresent].
      intros name Hone Hnil. cbv beta in Hone. rewrite Hnil in Hone.
      discriminate Hone.
    + exfalso. destruct H as (_ & Hnot). apply Hnot. exact Hpresent.
Qed.

Lemma X18_customer_pool_idempotent_witness :
  users_fresh no_users
  /\ exists customers t' customers2,
       _create_demo_customers_if_needed plain_customer_draws no_users
       = Seeded (customers, t')
       /\ _create_demo_customers_if_needed plain_customer_draws t'
          = Seeded (customers2, t').
Proof.
  assert (H1 : users_fresh no_users) by constructor.
  split; [exact H1|].
  destruct (_create_demo_customers_if_needed plain_customer_draws no_users)
    as [[cs t']|e] eqn:E; [|vm_compute in E; discriminate E].
  destruct (X18_customer_pool_idempotent plain_customer_draws
              plain_customer_draws no_users t' cs H1 E) as [cs2 H2].
  exists cs, t', cs2. split; [reflexivity | exact H2].
Defined.

(** ** The catalog *)

Lemma categories_loop_outcomes (dr : CatalogDraws)
    (data : list (string * string)) :
  forall (i : nat) (c : Catalog) (categories : list Category),
    match categories_loop data i dr c categories with
    | Seeded (cs, c') =>
        length cs = (length categories + length data)%nat
        /\ product_rows c' = product_rows c
        /\ next_product_pk c' = next_product_pk c
    | Failed e =>
        e = MultipleObjectsReturned
        \/ (e = Propagated DatabaseError
            /\ exists j, category_create_fault dr j = true)
    end.
Proof.
  induction data as [|[cname slug] rest IH]; intros i c categories;
    cbn [categories_loop length].
  - split; [lia | auto].
  - unfold get_or_create_category.
    pose proof (get_unique_spec (fun r => String.eqb (cat_slug r) slug)
                  (category_rows c)) as Hget.
    destruct (get_unique _ _) as [[r|]|e].
    + rewrite !seeded_bind_ok.
      specialize (IH (S i) c (categories ++ [{| category_name := cat_name r |}])).
      destruct (categories_loop _ _ _ _ _) as [[cs c']|e]; [|exact IH].
      rewrite length_app in IH. cbn [length] in IH.
      destruct IH as (H1 & H2 & H3). split; [lia | auto].
    + rewrite seeded_bind_ok.
      destruct (category_create_fault dr i) eqn:Hf.
      * rewrite seeded_bind_failed. right. eauto.
      * rewrite seeded_bind_ok.
        match goal with |- context [categories_loop rest (S i) dr ?c1 ?l] =>
          specialize (IH (S i) c1 l) end.
        destruct (categories_loop _ _ _ _ _) as [[cs c']|e]; [|exact IH].
        rewrite length_app in IH. cbn [length product_rows next_product_pk] in IH.
        destruct IH as (H1 & H2 & H3). split; [lia | auto].
    + rewrite !seeded_bind_failed. left. exact (proj1 Hget).
Qed.

Lemma brands_loop_outcomes (dr : CatalogDraws) (names : list string) :
  forall (i : nat) (c : Catalog),
    match brands_loop names i dr c with
    | Seeded c' =>
        product_rows c' = product_rows c
        /\ next_product_pk c' = next_product_pk c
    | Failed e =>
        e = MultipleObjectsReturned
        \/ (e = Propagated DatabaseError
            /\ exists j, brand_create_fault dr j = true)
    end.
Proof.
  induction names as [|b rest IH]; intros i c; cbn [brands_loop]; [auto|].
  unfold get_or_create_brand.
  pose proof (get_unique_spec (fun r => String.eqb (brand_name r) b)
                (brand_rows c)) as Hget.
  destruct (get_unique _ _) as [[r|]|e].
  - rewrite !seeded_bind_ok. apply IH.
  - rewrite seeded_bind_ok.
    destruct (brand_create_fault dr i) eqn:Hf.
    + rewrite seeded_bind_failed. right. eauto.
    + rewrite seeded_bind_ok.
      match goal with |- context [brands_loop rest (S i) dr ?c1] =>
        specialize (IH (S i) c1) end.
      destruct (brands_loop _ _ _ _) as [c'|e]; [|exact IH].
      cbn [product_rows next_product_pk] in IH. exact IH.
  - rewrite !seeded_bind_failed. left. exact (proj1 Hget).
Qed.

Lemma warranties_loop_outcomes (dr : CatalogDraws) (data : list (string * Z)) :
  forall (i : nat) (c : Catalog),
    match warranties_loop data i dr c with
    | Seeded c' =>
        product_rows c' = product_rows c
        /\ next_product_pk c' = next_product_pk c
    | Failed e =>
        e = MultipleObjectsReturned
        \/ (e = Propagated DatabaseError
            /\ exists j, warranty_create_fault dr j = true)
    end.
Proof.
  induction data as [|[w days] rest IH]; intros i c; cbn [warranties_loop];
    [auto|].
  unfold get_or_create_warranty.
  pose proof (get_unique_spec (fun r => String.eqb (warranty_name r) w)
                (warranty_rows c)) as Hget.
  destruct (get_unique _ _) as [[r|]|e].
  - rewrite !seeded_bind_ok. apply IH.
  - rewrite seeded_bind_ok.
    destruct (warranty_create_fault dr i) eqn:Hf.
    + rewrite seeded_bind_failed. right. eauto.
    + rewrite seeded_bind_ok.
      match goal with |- context [warranties_loop rest (S i) dr ?c1] =>
        specialize (IH (S i) c1) end.
      destruct (warranties_loop _ _ _ _) as [c'|e]; [|exact IH].
      cbn [product_rows next_product_pk] in IH. exact IH.
  - rewrite !seeded_bind_failed. left. exact (proj1 Hget).
Qed.

Lemma products_data_outcomes (categories : list Category)
    (table : list (string * float * nat * float)) :
  Forall (fun e => (snd (fst e) < length categories)%nat) table ->
  exists data,
    products_data categories table = Seeded data
    /\ map entry_name data = map entry_name table
    /\ map entry_popularity data = map entry_popularity table
    /\ map entry_price data = map entry_price table.
Proof.
  induction 1 as [|[[[n price] k] pop] rest Hk _ IH]; cbn [products_data].
  - exists []. auto.
  - cbn [fst snd] in Hk.
    destruct (lookup_lt_is_Some_2 categories k Hk) as [cat ->].
    cbn [of_option lift]. rewrite seeded_bind_ok.
    destruct IH as (data & -> & H1 & H2 & H3). rewrite seeded_bind_ok.
    eexists. split; [reflexivity|]. cbn. rewrite H1, H2, H3. auto.
Qed.

(** The placeholder block changes the image of the object only. *)
Lemma assign_placeholder_object (d : ProductDraws) (p : Product) (c : Catalog) :
  let p' := fst (assign_placeholder d p c) in
  pk p' = pk p /\ name p' = name p /\ price p' = price p
  /\ stock p' = stock p /\ rating p' = rating p
  /\ energy_kwh_per_year p' = energy_kwh_per_year p
  /\ _popularity p' = _popularity p.
Proof.
  cbv zeta. unfold assign_placeholder.
  destruct (negb _ && _); [cbn; tauto|].
  cbv zeta. destruct (String.eqb _ _); cbn; tauto.
Qed.

Lemma products_loop_outcomes (dr : CatalogDraws)
    (data : list (string * float * Category * float)) :
  Forall (fun e => exists d, Decimal_of_str (entry_price e) = Ok d) data ->
  forall (i : nat) (c : Catalog) (products : list Product),
    match products_loop data i dr c products with
    | Seeded (ps, c') =>
        exists added,
          ps = products ++ added
          /\ map name added = map entry_name data
          /\ map _popularity added = map (fun e => Some (entry_popularity e)) data
          /\ Forall (fun p => rating p <> None) added
    | Failed e =>
        e = MultipleObjectsReturned
        \/ (e = Propagated DatabaseError
            /\ exists j, product_create_fault (product_draws dr j) = true)
    end.
Proof.
  induction 1 as [|[[[pname pprice] pcat] pop] rest [dec Hdec] _ IH];
    intros i c products; cbn [products_loop].
  - exists []. rewrite app_nil_r. auto.
  - cbv zeta. cbn [entry_price] in Hdec.
    destruct (if lists_fault (product_draws dr i) then _ else _)
      as [pbrand pwarranty].
    rewrite Hdec. cbn [lift]. rewrite seeded_bind_ok.
    unfold get_or_create_product.
    pose proof (get_unique_spec (fun r => String.eqb (name r) pname)
                  (product_rows c)) as Hget.
    assert (Hstep : forall (p0 : Product) (c0 : Catalog),
      name p0 = pname ->
      match (let o := _ensure_product_metrics p0
                        (metric_draws (product_draws dr i)) (product_rows c0) in
             let product := out_product o in
             let c1 := with_product_rows (out_table o) c0 in
             let product0 := set_popularity pop product in
             let '(product1, c2) :=
               assign_placeholder (product_draws dr i) product0 c1 in
             products_loop rest (S i) dr c2 (products ++ [product1]))
      with
      | Seeded (ps, c') =>
          exists added,
            ps = products ++ added
            /\ map name added = pname :: map entry_name rest
            /\ map _popularity added
               = Some pop :: map (fun e => Some (entry_popularity e)) rest
            /\ Forall (fun p => rating p <> None) added
      | Failed e =>
          e = MultipleObjectsReturned
          \/ (e = Propagated DatabaseError
              /\ exists j, product_create_fault (product_draws dr j) = true)
      end).
    { intros p0 c0 Hname. cbv zeta.
      pose proof (ensure_rating_some p0 (metric_draws (product_draws dr i))
                    (product_rows c0)) as (r & Hr).
      pose proof (ensure_same_columns p0 (metric_draws (product_draws dr i))
                    (product_rows c0)) as (_ & Hn & _).
      set (o := _ensure_product_metrics p0 _ _) in *.
      pose proof (assign_placeholder_object (product_draws dr i)
                    (set_popularity pop (out_product o))
                    (with_product_rows (out_table o) c0)) as Hobj.
      cbv zeta in Hobj.
      destruct (assign_placeholder _ _ _) as [p1 c2]. cbn [fst] in Hobj.
      destruct Hobj as (_ & Hn1 & _ & _ & Hr1 & _ & Hp1).
      cbn [name rating _popularity set_popularity] in Hn1, Hr1, Hp1.
      specialize (IH (S i) c2 (products ++ [p1])).
      destruct (products_loop rest (S i) dr c2 (products ++ [p1]))
        as [[ps c']|e]; [|exact IH].
      destruct IH as (added & -> & H1 & H2 & H3).
      exists (p1 :: added). split; [rewrite <- app_assoc; reflexivity|].
      cbn [map]. rewrite H1, H2, Hn1, Hp1, Hn, Hname.
      split; [reflexivity|]. split; [reflexivity|].
      constructor; [congruence | exact H3]. }
    destruct (get_unique _ _) as [[r|]|e].
    + rewrite !seeded_bind_ok. apply Hstep. cbn [name row_of].
      assert (Hin : In r (List.filter (fun r0 => String.eqb (name r0) pname)
                            (product_rows c))) by (rewrite Hget; now left).
      apply filter_In in Hin as [_ Hin]. now apply String.eqb_eq in Hin.
    + rewrite seeded_bind_ok.
      destruct (product_create_fault (product_draws dr i)) eqn:Hf.
      * rewrite seeded_bind_failed. right. eauto.
      * rewrite seeded_bind_ok. apply Hstep. reflexivity.
    + rewrite !seeded_bind_failed. left. exact (proj1 Hget).
Qed.

Lemma existing_loop_objects (dr : CatalogDraws) (objs : list Product) :
  forall (i : nat) (table : list Product),
    let objs' := fst (existing_loop objs i dr table) in
    map pk objs' = map pk objs
    /\ map _popularity objs' = map _popularity objs
    /\ Forall (fun p => rating p <> None) objs'.
Proof.
  induction objs as [|p rest IH]; intros i table; cbn [existing_loop].
  - cbn. auto.
  - cbv zeta.
    pose proof (ensure_rating_some p (existing_draws dr i) table) as (r & Hr).
    pose proof (C10_frame := ensure_same_columns p (existing_draws dr i) table).
    destruct C10_frame as (Hpk & _).
    set (o := _ensure_product_metrics p (existing_draws dr i) table) in *.
    assert (Hpop : _popularity (out_product o) = _popularity p).
    { subst o. unfold _ensure_product_metrics.
      destruct (rating p); [|destruct (derive_rating p _)];
        cbn [energy_kwh_per_year set_rating];
        (destruct (energy_kwh_per_year p);
         [|match goal with |- context [derive_energy ?q ?d] =>
             destruct (derive_energy q d) end]); reflexivity. }
    specialize (IH (S i) (out_table o)). cbv zeta in IH.
    destruct (existing_loop rest (S i) dr (out_table o)) as [objs' table'].
    cbn [fst map] in *. destruct IH as (H1 & H2 & H3).
    rewrite H1, H2, Hpk, Hpop.
    split; [reflexivity|]. split; [reflexivity|].
    constructor; [congruence | exact H3].
Qed.

Lemma products_table_prices :
  Forall (fun e => exists d, Decimal_of_str (entry_price e) = Ok d)
    products_table.
Proof.
  repeat (constructor; [eexists; vm_compute; reflexivity|]). constructor.
Qed.

(** The names and the popularities of the demo products. *)
Lemma catalog_outcomes (dr : CatalogDraws) (c : Catalog) :
  match _create_demo_products_if_needed dr c with
  | Seeded (products, c') =>
      Forall (fun p => rating p <> None) products
      /\ if (30 <=? length (product_rows c))%nat
         then map pk products = map pk (take 30 (product_rows c))
              /\ map _popularity products = repeat None 30
         else map name products = map entry_name products_table
              /\ map _popularity products
                 = map (fun e => Some (entry_popularity e)) products_table
  | Failed e =>
      (30 <=? length (product_rows c))%nat = false
      /\ (e = MultipleObjectsReturned
          \/ (e = Propagated DatabaseError
              /\ ((exists j, category_create_fault dr j = true)
                  \/ (exists j, brand_create_fault dr j = true)
                  \/ (exists j, warranty_create_fault dr j = true)
                  \/ exists j, product_create_fault (product_draws dr j) = true)))
  end.
Proof.
  unfold _create_demo_products_if_needed. cbv zeta.
  destruct (Nat.leb_spec 30 (length (product_rows c))) as [Hc | Hc].
  - pose proof (existing_loop_objects dr (map row_of (take 30 (product_rows c)))
                  0 (product_rows c)) as H.
    cbv zeta in H. destruct (existing_loop _ _ _ _) as [objs table].
    cbn [fst] in H. destruct H as (H1 & H2 & H3).
    split; [exact H3|]. split.
    + rewrite H1, map_map. reflexivity.
    + rewrite H2, map_map. cbn [_popularity row_of].
      assert (Hlen : length (take 30 (product_rows c)) = 30%nat)
        by (rewrite length_take; lia).
      revert Hlen. generalize (take 30 (product_rows c)). generalize 30%nat.
      induction n as [|n IHn]; intros [|a l] Hl; cbn in *; try discriminate;
        [reflexivity|].
      f_equal. apply IHn. lia.
  - pose proof (categories_loop_outcomes dr categories_data 0 c []) as Hcat.
    destruct (categories_loop categories_data 0 dr c []) as [[cats c1]|e].
    2:{ rewrite seeded_bind_failed. split; [reflexivity|].
        destruct Hcat as [-> | (-> & Hf)]; [left; reflexivity|].
        right. split; [reflexivity | auto]. }
    rewrite seeded_bind_ok. destruct Hcat as (Hlen & _).
    cbn [length categories_data] in Hlen.
    destruct (products_data_outcomes cats products_table) as (data & -> & Hn & Hp & Hpr).
    { rewrite Hlen. repeat (constructor; [cbn; lia|]). constructor. }
    rewrite seeded_bind_ok.
    pose proof (brands_loop_outcomes dr default_brands 0 c1) as Hb.
    destruct (brands_loop default_brands 0 dr c1) as [c2|e].
    2:{ rewrite seeded_bind_failed. split; [reflexivity|].
        destruct Hb as [-> | (-> & Hf)]; [left; reflexivity|].
        right. split; [reflexivity | auto]. }
    rewrite seeded_bind_ok.
    pose proof (warranties_loop_outcomes dr default_warranties 0 c2) as Hw.
    destruct (warranties_loop default_warranties 0 dr c2) as [c3|e].
    2:{ rewrite seeded_bind_failed. split; [reflexivity|].
        destruct Hw as [-> | (-> & Hf)]; [left; reflexivity|].
        right. split; [reflexivity | auto]. }
    rewrite seeded_bind_ok.
    assert (Hprices : Forall (fun e => exists d,
                                Decimal_of_str (entry_price e) = Ok d) data).
    { pose proof products_table_prices as Ht.
      apply List.Forall_forall. intros e Hin.
      apply (in_map entry_price) in Hin. rewrite Hpr in Hin.
      apply in_map_iff in Hin as (e0 & Heq & Hin0).
      rewrite List.Forall_forall in Ht. destruct (Ht e0 Hin0) as [d Hd].
      exists d. congruence. }
    pose proof (products_loop_outcomes dr data Hprices 0 c3 []) as Hl.
    destruct (products_loop data 0 dr c3 []) as [[ps c']|e].
    + destruct Hl as (added & -> & H1 & H2 & H3). cbn [app].
      split; [exact H3|]. rewrite H1, H2, Hn.
      split; [reflexivity|].
      rewrite <- (map_map entry_popularity Some), <- (map_map entry_popularity Some).
      now rewrite Hp.
    + split; [reflexivity|].
      destruct Hl as [-> | (-> & Hf)]; [left; reflexivity|].
      right. split; [reflexivity | auto].
Qed.

(** X19. The product bootstrap returns products that all have a
    rating: when the table holds 30 products or more, the first 30 of
    them, none carrying a popularity; otherwise the 15 demo products by
    name, found or created, in the order of the list and each carrying the
    popularity of the list. It raises only where fewer than 30 products
    exist, on a failed creation or on a natural key that several rows
    share. *)
Theorem X19_product_catalog (dr : CatalogDraws) (c : Catalog) :
  match _create_demo_products_if_needed dr c with
  | Seeded (products, c') =>
      Forall (fun p => rating p <> None) products
      /\ if (30 <=? length (product_rows c))%nat
         then length products = 30%nat
              /\ map pk products = map pk (take 30 (product_rows c))
              /\ Forall (fun p => _popularity p = None) products
         else length products = 15%nat
              /\ map name products = map entry_name products_table
              /\ map _popularity products
                 = map (fun e => Some (entry_popularity e)) products_table
  | Failed e =>
      (length (product_rows c) < 30)%nat
      /\ (e = MultipleObjectsReturned
          \/ (e = Propagated DatabaseError
              /\ ((exists j, category_create_fault dr j = true)
                  \/ (exists j, brand_create_fault dr j = true)
                  \/ (exists j, warranty_create_fault dr j = true)
                  \/ exists j, product_create_fault (product_draws dr j) = true)))
  end.
Proof.
  pose proof (catalog_outcomes dr c) as H.
  destruct (_create_demo_products_if_needed dr c) as [[ps c']|e].
  - destruct H as [Hr H]. split; [exact Hr|].
    destruct (30 <=? length (product_rows c))%nat.
    + destruct H as [H1 H2].
      assert (Hlen : length ps = 30%nat).
      { apply (f_equal (@length (option float))) in H2.
        now rewrite length_map, repeat_length in H2. }
      split; [exact Hlen|]. split; [exact H1|].
      apply List.Forall_forall. intros p Hin.
      apply (in_map _popularity) in Hin. rewrite H2 in Hin.
      now apply repeat_spec in Hin.
    + destruct H as [H1 H2]. split; [|auto].
      apply (f_equal (@length string)) in H1.
      now rewrite !length_map in H1.
  - destruct H as [Hc H]. split; [|exact H]. now apply Nat.leb_gt in Hc.
Qed.

(** *** The sampler on the catalog of the bootstrap *)

Lemma popularity_weights (products : list Product) :
  map popularity_weight products
  = map (fun o => default (Float.dec 5 1) o) (map _popularity products).
Proof. rewrite map_map. reflexivity. Qed.

Lemma basket_on_weights (ws : list float) :
  ws <> [] ->
  match last (Choices.accumulate ws) with
  | Some c =>
      Float.leb (Float.add c (S754_zero false)) (S754_zero false)
      || negb (Float.is_finite (Float.add c (S754_zero false))) = false
  | None => False
  end ->
  forall products dr,
    map popularity_weight products = ws ->
    exists items_data, _generate_order_items products dr = Ok items_data.
Proof.
  intros Hne Hw products dr Hmap.
  pose proof (order_items_by_weights products dr) as Ho.
  rewrite Hmap in Ho.
  destruct (last (Choices.accumulate ws)) as [c|]; [|contradiction].
  destruct Ho as [_ Ho]. rewrite Hw in Ho. exact Ho.
Qed.

Lemma seeded_catalog_basket (dr : CatalogDraws) (c c' : Catalog)
    (products : list Product) :
  _create_demo_products_if_needed dr c = Seeded (products, c') ->
  forall objs draws,
    map _popularity objs = map _popularity products ->
    exists items_data, _generate_order_items objs draws = Ok items_data.
Proof.
  intros Hrun objs draws Hpop.
  pose proof (catalog_outcomes dr c) as H. rewrite Hrun in H.
  destruct H as [_ H].
  destruct (30 <=? length (product_rows c))%nat.
  - destruct H as [_ H].
    apply (basket_on_weights (repeat (Float.dec 5 1) 30)).
    + discriminate.
    + vm_compute. reflexivity.
    + rewrite popularity_weights, Hpop, H. reflexivity.
  - destruct H as [_ H].
    apply (basket_on_weights (map entry_popularity products_table)).
    + discriminate.
    + vm_compute. reflexivity.
    + rewrite popularity_weights, Hpop, H, map_map. reflexivity.
Qed.

(** X20. On the catalog that the bootstrap returns the basket sampler
    never fails: it returns a basket whatever the draws. *)
Theorem X20_basket_on_seeded_catalog (dr : CatalogDraws) (c c' : Catalog)
    (products : list Product) (draws : BasketDraws)
    (Hseed : _create_demo_products_if_needed dr c = Seeded (products, c')) :
  exists items_data,
    _generate_order_items products draws = Ok items_data
    /\ (1 <= length items_data <= 4)%nat.
Proof.
  destruct (seeded_catalog_basket dr c c' products Hseed products draws eq_refl)
    as [items Hitems].
  exists items. split; [exact Hitems|].
  eapply basket_length; eauto.
Qed.

Lemma X20_basket_on_seeded_catalog_witness :
  exists products c' items_data,
    _create_demo_products_if_needed plain_catalog_draws no_catalog
    = Seeded (products, c')
    /\ _generate_order_items products (basket_draws (demo_tx false false))
       = Ok items_data.
Proof.
  destruct (_create_demo_products_if_needed plain_catalog_draws no_catalog)
    as [[ps c']|e] eqn:E; [|vm_compute in E; discriminate E].
  destruct (X20_basket_on_seeded_catalog plain_catalog_draws no_catalog c' ps
              (basket_draws (demo_tx false false)) E) as (items & H & _).
  exists ps, c', items. split; [reflexivity | exact H].
Defined.

(** ** The seeded run *)







(** ** The catalog: what a second call finds *)

Lemma occurrences_app (key : string) (l1 l2 : list string) :
  occurrences key (l1 ++ l2) = (occurrences key l1 + occurrences key l2)%nat.
Proof. unfold occurrences. now rewrite List.filter_app, length_app. Qed.

Lemma occurrences_single (key k : string) :
  occurrences key [k] = if String.eqb k key then 1%nat else 0%nat.
Proof. unfold occurrences. cbn. destruct (String.eqb k key); reflexivity. Qed.

Lemma occurrences_others (key : string) (l : list string) :
  ~ In key l -> occurrences key l = 0%nat.
Proof.
  unfold occurrences. induction l as [|k l IH]; intros Hnin; cbn; [reflexivity|].
  destruct (String.eqb_spec k key) as [-> | Hne].
  - exfalso. apply Hnin. now left.
  - apply IH. intros Hin. apply Hnin. now right.
Qed.

Lemma filter_by_key {A : Type} (key : A -> string) (k : string) (rows : list A) :
  length (List.filter (fun r => String.eqb (key r) k) rows)
  = occurrences k (map key rows).
Proof.
  unfold occurrences. induction rows as [|r rows IH]; cbn; [reflexivity|].
  destruct (String.eqb (key r) k); cbn; now rewrite IH.
Qed.

(** The lookup by a key, by the number of rows that carry the key. *)
Lemma get_unique_by_key {A : Type} (key : A -> string) (k : string)
    (rows : list A) :
  match get_unique (fun r => String.eqb (key r) k) rows with
  | Seeded (Some r) =>
      occurrences k (map key rows) = 1%nat /\ In r rows /\ key r = k
  | Seeded None => occurrences k (map key rows) = 0%nat
  | Failed e =>
      e = MultipleObjectsReturned /\ (2 <= occurrences k (map key rows))%nat
  end.
Proof.
  pose proof (get_unique_spec (fun r => String.eqb (key r) k) rows) as H.
  rewrite <- filter_by_key.
  destruct (get_unique _ _) as [[r|]|e].
  - rewrite H. split; [reflexivity|].
    assert (Hin : In r (List.filter (fun r0 => String.eqb (key r0) k) rows))
      by (rewrite H; now left).
    apply filter_In in Hin as [Hin Hk]. apply String.eqb_eq in Hk. auto.
  - now rewrite H.
  - exact H.
Qed.

Lemma pass_facts_nil (keys : list string) (unchanged : Prop) :
  unchanged -> pass_facts [] keys keys unchanged.
Proof.
  intros H. split; [exists []; rewrite app_nil_r; auto|].
  split; [auto | intros _; constructor].
Qed.

(** The step of a pass: the key [k] was found once and nothing written,
    or it was absent and appended. *)
Lemma pass_facts_step (k : string) (rest keys keys1 keys' : list string)
    (unchanged1 unchanged : Prop) :
  (occurrences k keys = 1%nat /\ keys1 = keys /\ (unchanged1 -> unchanged))
  \/ (occurrences k keys = 0%nat /\ keys1 = keys ++ [k]) ->
  pass_facts rest keys1 keys' unchanged1 ->
  pass_facts (k :: rest) keys keys' unchanged.
Proof.
  intros Hstep ((new & Hkeys & Hnew) & Hsame & Hcount).
  split; [|split].
  - destruct Hstep as [(_ & -> & _) | (_ & ->)].
    + exists new. split; [exact Hkeys|].
      eapply List.Forall_impl; [|exact Hnew]. intros a Ha. now right.
    + exists (k :: new). split; [rewrite Hkeys, <- app_assoc; reflexivity|].
      constructor; [now left|].
      eapply List.Forall_impl; [|exact Hnew]. intros a Ha. now right.
  - intros Hall. apply Forall_cons in Hall as [Hk Hall].
    destruct Hstep as [(_ & -> & Hun) | (H0 & _)]; [|congruence].
    apply Hun, Hsame. exact Hall.
  - intros Hnd. apply NoDup_cons in Hnd as [Hnotin Hnd].
    constructor; [|exact (Hcount Hnd)].
    rewrite Hkeys, occurrences_app.
    rewrite (occurrences_others k new).
    + destruct Hstep as [(H1 & -> & _) | (H0 & ->)]; [lia|].
      rewrite occurrences_app, occurrences_single, String.eqb_refl. lia.
    + intros Hin. apply Hnotin. rewrite List.Forall_forall in Hnew.
      apply list_elem_of_In. exact (Hnew k Hin).
Qed.

Lemma pass_failed_step (k : string) (rest keys keys1 : list string) :
  (occurrences k keys = 1%nat -> keys1 = keys) ->
  ~ Forall (fun k0 => occurrences k0 keys1 = 1%nat) rest ->
  ~ Forall (fun k0 => occurrences k0 keys = 1%nat) (k :: rest).
Proof.
  intros Hstep Hnot Hall. apply Forall_cons in Hall as [Hk Hall].
  apply Hnot. rewrite (Hstep Hk). exact Hall.
Qed.

Lemma categories_loop_pass (dr : CatalogDraws) (data : list (string * string)) :
  forall (i : nat) (c : Catalog) (categories : list Category),
    match categories_loop data i dr c categories with
    | Seeded (cs, c') =>
        only_categories_differ c c'
        /\ pass_facts (map snd data) (map cat_slug (category_rows c))
             (map cat_slug (category_rows c')) (c' = c)
    | Failed e =>
        ~ Forall (fun k => occurrences k (map cat_slug (category_rows c)) = 1%nat)
            (map snd data)
    end.
Proof.
  induction data as [|[cname slug] rest IH]; intros i c categories;
    cbn [categories_loop map snd].
  - split; [unfold only_categories_differ; tauto|].
    now apply pass_facts_nil.
  - unfold get_or_create_category.
    pose proof (get_unique_by_key cat_slug slug (category_rows c)) as Hget.
    destruct (get_unique _ _) as [[r|]|e].
    + rewrite !seeded_bind_ok. destruct Hget as (Hone & _).
      specialize (IH (S i) c (categories ++ [{| category_name := cat_name r |}])).
      destruct (categories_loop _ _ _ _ _) as [[cs c']|e].
      * destruct IH as (Hd & Hpass). split; [exact Hd|].
        eapply pass_facts_step; [|exact Hpass]. left. auto.
      * eapply pass_failed_step; [|exact IH]. reflexivity.
    + rewrite seeded_bind_ok.
      destruct (category_create_fault dr i) eqn:Hf.
      * rewrite seeded_bind_failed.
        intros Hall. apply Forall_cons in Hall as [Hk _]. congruence.
      * rewrite seeded_bind_ok.
        match goal with |- context [categories_loop rest (S i) dr ?c1 ?l] =>
          specialize (IH (S i) c1 l) end.
        destruct (categories_loop _ _ _ _ _) as [[cs c']|e].
        -- destruct IH as (Hd & Hpass). split; [exact Hd|].
           cbn [category_rows] in Hpass. rewrite map_app in Hpass.
           eapply pass_facts_step; [|exact Hpass]. right. auto.
        -- intros Hall. apply Forall_cons in Hall as [Hk _]. congruence.
    + rewrite !seeded_bind_failed. destruct Hget as [_ Hget].
      intros Hall. apply Forall_cons in Hall as [Hk _]. lia.
Qed.

Lemma brands_loop_pass (dr : CatalogDraws) (names : list string) :
  forall (i : nat) (c : Catalog),
    match brands_loop names i dr c with
    | Seeded c' =>
        only_brands_differ c c'
        /\ pass_facts names (map brand_name (brand_rows c))
             (map brand_name (brand_rows c')) (c' = c)
    | Failed e =>
        ~ Forall (fun k => occurrences k (map brand_name (brand_rows c)) = 1%nat)
            names
    end.
Proof.
  induction names as [|b rest IH]; intros i c; cbn [brands_loop].
  - split; [unfold only_brands_differ; tauto|].
    now apply pass_facts_nil.
  - unfold get_or_create_brand.
    pose proof (get_unique_by_key brand_name b (brand_rows c)) as Hget.
    destruct (get_unique _ _) as [[r|]|e].
    + rewrite !seeded_bind_ok. destruct Hget as (Hone & _).
      specialize (IH (S i) c).
      destruct (brands_loop _ _ _ _) as [c'|e].
      * destruct IH as (Hd & Hpass). split; [exact Hd|].
        eapply pass_facts_step; [|exact Hpass]. left. auto.
      * eapply pass_failed_step; [|exact IH]. reflexivity.
    + rewrite seeded_bind_ok.
      destruct (brand_create_fault dr i) eqn:Hf.
      * rewrite seeded_bind_failed.
        intros Hall. apply Forall_cons in Hall as [Hk _]. congruence.
      * rewrite seeded_bind_ok.
        match goal with |- context [brands_loop rest (S i) dr ?c1] =>
          specialize (IH (S i) c1) end.
        destruct (brands_loop _ _ _ _) as [c'|e].
        -- destruct IH as (Hd & Hpass). split; [exact Hd|].
           cbn [brand_rows] in Hpass. rewrite map_app in Hpass.
           eapply pass_facts_step; [|exact Hpass]. right. auto.
        -- intros Hall. apply Forall_cons in Hall as [Hk _]. congruence.
    + rewrite !seeded_bind_failed. destruct Hget as [_ Hget].
      intros Hall. apply Forall_cons in Hall as [Hk _]. lia.
Qed.

Lemma warranties_loop_pass (dr : CatalogDraws) (data : list (string * Z)) :
  forall (i : nat) (c : Catalog),
    match warranties_loop data i dr c with
    | Seeded c' =>
        only_warranties_differ c c'
        /\ pass_facts (map fst data) (map warranty_name (warranty_rows c))
             (map warranty_name (warranty_rows c')) (c' = c)
    | Failed e =>
        ~ Forall (fun k => occurrences k (map warranty_name (warranty_rows c))
                           = 1%nat) (map fst data)
    end.
Proof.
  induction data as [|[w days] rest IH]; intros i c;
    cbn [warranties_loop map fst].
  - split; [unfold only_warranties_differ; tauto|].
    now apply pass_facts_nil.
  - unfold get_or_create_warranty.
    pose proof (get_unique_by_key warranty_name w (warranty_rows c)) as Hget.
    destruct (get_unique _ _) as [[r|]|e].
    + rewrite !seeded_bind_ok. destruct Hget as (Hone & _).
      specialize (IH (S i) c).
      destruct (warranties_loop _ _ _ _) as [c'|e].
      * destruct IH as (Hd & Hpass). split; [exact Hd|].
        eapply pass_facts_step; [|exact Hpass]. left. auto.
      * eapply pass_failed_step; [|exact IH]. reflexivity.
    + rewrite seeded_bind_ok.
      destruct (warranty_create_fault dr i) eqn:Hf.
      * rewrite seeded_bind_failed.
        intros Hall. apply Forall_cons in Hall as [Hk _]. congruence.
      * rewrite seeded_bind_ok.
        match goal with |- context [warranties_loop rest (S i) dr ?c1] =>
          specialize (IH (S i) c1) end.
        destruct (warranties_loop _ _ _ _) as [c'|e].
        -- destruct IH as (Hd & Hpass). split; [exact Hd|].
           cbn [warranty_rows] in Hpass. rewrite map_app in Hpass.
           eapply pass_facts_step; [|exact Hpass]. right. auto.
        -- intros Hall. apply Forall_cons in Hall as [Hk _]. congruence.
    + rewrite !seeded_bind_failed. destruct Hget as [_ Hget].
      intros Hall. apply Forall_cons in Hall as [Hk _]. lia.
Qed.

(** *** The product rows *)

Lemma map_pk_row_key (rows : list Product) :
  map pk rows = map (fun k : Z * string * Z => fst (fst k)) (map row_key rows).
Proof. rewrite map_map. reflexivity. Qed.

Lemma map_name_row_key (rows : list Product) :
  map name rows = map (fun k : Z * string * Z => snd (fst k)) (map row_key rows).
Proof. rewrite map_map. reflexivity. Qed.

(** Saving an object whose key, name and stock are those of a row of a
    table with distinct keys changes no key, name or stock. *)
Lemma save_row_keys (obj : Product) (rows : list Product) :
  NoDup (map pk rows) ->
  In (row_key obj) (map row_key rows) ->
  map row_key (save_row (row_of obj) rows) = map row_key rows.
Proof.
  induction rows as [|r rows IH]; intros Hnd Hin; [destruct Hin|].
  cbn [map] in Hnd. apply NoDup_cons in Hnd as [Hnotin Hnd].
  cbn [save_row]. change (pk (row_of obj)) with (pk obj).
  destruct (Z.eqb_spec (pk r) (pk obj)) as [E | E]; cbn [map].
  - f_equal. change (row_key (row_of obj)) with (row_key obj).
    destruct Hin as [Hin | Hin]; [auto|].
    exfalso. apply Hnotin. rewrite E. apply list_elem_of_In.
    apply in_map_iff in Hin as (q & Hq & Hin).
    apply in_map_iff. exists q. split; [|exact Hin].
    unfold row_key in Hq. congruence.
  - f_equal. apply IH; [exact Hnd|].
    destruct Hin as [Hin | Hin]; [|exact Hin].
    exfalso. apply E. unfold row_key in Hin. congruence.
Qed.

Lemma ensure_row_key (p : Product) (dr : MetricDraws) (t : list Product) :
  row_key (out_product (_ensure_product_metrics p dr t)) = row_key p.
Proof.
  destruct (ensure_same_columns p dr t) as (H1 & H2 & _ & _ & H3 & _).
  unfold row_key. congruence.
Qed.

Lemma ensure_table_keys (p : Product) (dr : MetricDraws) (t : list Product) :
  NoDup (map pk t) -> In (row_key p) (map row_key t) ->
  map row_key (out_table (_ensure_product_metrics p dr t)) = map row_key t.
Proof.
  intros Hnd Hin.
  destruct (ensure_table_independent p dr t) as (Hp & _ & Ht).
  cbv zeta in Hp, Ht. rewrite Ht.
  destruct (_ && _); [|reflexivity].
  apply save_row_keys; [exact Hnd|].
  rewrite <- Hp, ensure_row_key. exact Hin.
Qed.

Lemma assign_placeholder_keys (d : ProductDraws) (p : Product) (c : Catalog) :
  NoDup (map pk (product_rows c)) ->
  In (row_key p) (map row_key (product_rows c)) ->
  let r := assign_placeholder d p c in
  row_key (fst r) = row_key p
  /\ map row_key (product_rows (snd r)) = map row_key (product_rows c)
  /\ same_reference_rows c (snd r)
  /\ next_product_pk (snd r) = next_product_pk c.
Proof.
  intros Hnd Hin. cbv zeta. unfold assign_placeholder.
  destruct (negb _ && _); [unfold same_reference_rows; cbn; tauto|].
  cbv zeta. destruct (String.eqb _ _);
    [|unfold same_reference_rows; cbn; tauto].
  destruct (image_save_fault d); cbn [fst snd];
    (split; [reflexivity|]);
    (split; [|unfold same_reference_rows; cbn; tauto]);
    cbn [product_rows with_product_rows]; [reflexivity|].
  apply save_row_keys; [exact Hnd | exact Hin].
Qed.

Lemma catalog_fresh_keys (c c' : Catalog) :
  map row_key (product_rows c') = map row_key (product_rows c) ->
  next_product_pk c' = next_product_pk c ->
  catalog_fresh c -> catalog_fresh c'.
Proof.
  unfold catalog_fresh. intros Hk Hn.
  rewrite !map_pk_row_key, Hk, Hn. auto.
Qed.

(** The end of an iteration of the loop over the products, from the
    backfill on: the object and the table keep the key, the name and the
    stock. *)
Lemma product_tail_keys (d : ProductDraws) (pop : float) (p0 : Product)
    (c0 : Catalog) :
  NoDup (map pk (product_rows c0)) ->
  In (row_key p0) (map row_key (product_rows c0)) ->
  let o := _ensure_product_metrics p0 (metric_draws d) (product_rows c0) in
  let r := assign_placeholder d (set_popularity pop (out_product o))
             (with_product_rows (out_table o) c0) in
  row_key (fst r) = row_key p0
  /\ map row_key (product_rows (snd r)) = map row_key (product_rows c0)
  /\ same_reference_rows c0 (snd r)
  /\ next_product_pk (snd r) = next_product_pk c0.
Proof.
  intros Hnd Hin. cbv zeta.
  pose proof (ensure_row_key p0 (metric_draws d) (product_rows c0)) as Hk.
  pose proof (ensure_table_keys p0 (metric_draws d) (product_rows c0) Hnd Hin)
    as Ht.
  set (o := _ensure_product_metrics p0 (metric_draws d) (product_rows c0)) in *.
  destruct (assign_placeholder_keys d (set_popularity pop (out_product o))
              (with_product_rows (out_table o) c0)) as (H1 & H2 & H3 & H4).
  - cbn [product_rows with_product_rows].
    rewrite map_pk_row_key, Ht, <- map_pk_row_key. exact Hnd.
  - cbn [product_rows with_product_rows]. rewrite Ht.
    change (row_key (set_popularity pop (out_product o)))
      with (row_key (out_product o)).
    rewrite Hk. exact Hin.
  - cbv zeta in H1, H2, H3, H4.
    split; [rewrite H1; exact Hk|].
    split; [rewrite H2; exact Ht|].
    split; [exact H3 | exact H4].
Qed.

Lemma products_loop_pass (dr : CatalogDraws)
    (data : list (string * float * Category * float)) :
  Forall (fun e => exists d, Decimal_of_str (entry_price e) = Ok d) data ->
  forall (i : nat) (c : Catalog) (products : list Product),
    catalog_fresh c ->
    match products_loop data i dr c products with
    | Seeded (ps, c') =>
        catalog_fresh c'
        /\ same_reference_rows c c'
        /\ (exists added,
              ps = products ++ added
              /\ map name added = map entry_name data
              /\ Forall (fun p => In (row_key p) (map row_key (product_rows c')))
                   added)
        /\ (exists new,
              map row_key (product_rows c') = map row_key (product_rows c) ++ new)
        /\ pass_facts (map entry_name data) (map name (product_rows c))
             (map name (product_rows c'))
             (map row_key (product_rows c') = map row_key (product_rows c)
              /\ next_product_pk c' = next_product_pk c)
    | Failed e =>
        ~ Forall (fun k => occurrences k (map name (product_rows c)) = 1%nat)
            (map entry_name data)
    end.
Proof.
  induction 1 as [|[[[pname pprice] pcat] pop] rest [dec Hdec] _ IH];
    intros i c products Hfresh; cbn [products_loop map entry_name].
  - split; [exact Hfresh|]. split; [unfold same_reference_rows; tauto|].
    split; [exists []; rewrite app_nil_r; auto|].
    split; [exists []; now rewrite app_nil_r|].
    apply pass_facts_nil. auto.
  - cbv zeta. cbn [entry_price] in Hdec.
    destruct (if lists_fault (product_draws dr i) then _ else _)
      as [pbrand pwarranty].
    rewrite Hdec. cbn [lift]. rewrite seeded_bind_ok.
    unfold get_or_create_product.
    pose proof (get_unique_by_key name pname (product_rows c)) as Hget.
    assert (Hstep : forall (p0 : Product) (c0 : Catalog),
      name p0 = pname ->
      catalog_fresh c0 ->
      In (row_key p0) (map row_key (product_rows c0)) ->
      same_reference_rows c c0 ->
      (occurrences pname (map name (product_rows c)) = 1%nat
       /\ map row_key (product_rows c0) = map row_key (product_rows c)
       /\ next_product_pk c0 = next_product_pk c)
      \/ (occurrences pname (map name (product_rows c)) = 0%nat
          /\ map row_key (product_rows c0)
             = map row_key (product_rows c) ++ [row_key p0]) ->
      match (let o := _ensure_product_metrics p0
                        (metric_draws (product_draws dr i)) (product_rows c0) in
             let product := out_product o in
             let c1 := with_product_rows (out_table o) c0 in
             let product0 := set_popularity pop product in
             let '(product1, c2) :=
               assign_placeholder (product_draws dr i) product0 c1 in
             products_loop rest (S i) dr c2 (products ++ [product1]))
      with
      | Seeded (ps, c') =>
          catalog_fresh c'
          /\ same_reference_rows c c'
          /\ (exists added,
                ps = products ++ added
                /\ map name added = pname :: map entry_name rest
                /\ Forall (fun p => In (row_key p)
                                      (map row_key (product_rows c'))) added)
          /\ (exists new,
                map row_key (product_rows c')
                = map row_key (product_rows c) ++ new)
          /\ pass_facts (pname :: map entry_name rest)
               (map name (product_rows c)) (map name (product_rows c'))
               (map row_key (product_rows c') = map row_key (product_rows c)
                /\ next_product_pk c' = next_product_pk c)
      | Failed e =>
          ~ Forall (fun k => occurrences k (map name (product_rows c)) = 1%nat)
              (pname :: map entry_name rest)
      end).
    { intros p0 c0 Hname Hfresh0 Hin0 Href Hcase. cbv zeta.
      pose proof (product_tail_keys (product_draws dr i) pop p0 c0
                    (proj1 Hfresh0) Hin0) as Htail.
      cbv zeta in Htail.
      destruct (assign_placeholder _ _ _) as [p1 c2]. cbn [fst snd] in Htail.
      destruct Htail as (Hk1 & Hk2 & Href2 & Hn2).
      assert (Hfresh2 : catalog_fresh c2)
        by (eapply catalog_fresh_keys; eauto).
      specialize (IH (S i) c2 (products ++ [p1]) Hfresh2).
      assert (Hnames2 : map name (product_rows c2) = map name (product_rows c0))
        by (rewrite !map_name_row_key, Hk2; reflexivity).
      destruct (products_loop rest (S i) dr c2 (products ++ [p1]))
        as [[ps c']|e].
      - destruct IH as (Hf' & Href' & (added & -> & Hn & Hkeys)
                        & (new & Hnew) & Hpass).
        split; [exact Hf'|]. split.
        { unfold same_reference_rows in *. intuition congruence. }
        split.
        { exists (p1 :: added). split; [rewrite <- app_assoc; reflexivity|].
          split.
          - cbn [map]. rewrite Hn. f_equal.
            unfold row_key in Hk1. congruence.
          - constructor; [|exact Hkeys].
            rewrite Hnew. apply in_or_app. left. rewrite Hk2, Hk1. exact Hin0. }
        split.
        { destruct Hcase as [(_ & Hsame & _) | (_ & Happ)].
          - exists new. rewrite Hnew, Hk2, Hsame. reflexivity.
          - exists (row_key p0 :: new).
            rewrite Hnew, Hk2, Happ, <- app_assoc. reflexivity. }
        eapply pass_facts_step; [|exact Hpass].
        destruct Hcase as [(Hone & Hsame & Hnext) | (Hzero & Happ)].
        + left. split; [exact Hone|]. split.
          * rewrite Hnames2, !map_name_row_key, Hsame. reflexivity.
          * intros [Hu1 Hu2]. split; [|congruence].
            rewrite Hu1, Hk2. exact Hsame.
        + right. split; [exact Hzero|].
          rewrite Hnames2, !map_name_row_key, Happ, map_app. cbn [map].
          unfold row_key. cbn [fst snd]. now rewrite Hname.
      - eapply pass_failed_step; [|exact IH].
        intros Hone. rewrite Hnames2.
        destruct Hcase as [(_ & Hsame & _) | (Hzero & _)]; [|congruence].
        rewrite !map_name_row_key, Hsame. reflexivity. }
    destruct (get_unique _ _) as [[r|]|e].
    + rewrite !seeded_bind_ok. destruct Hget as (Hone & Hin & Hname).
      apply Hstep; auto.
      * change (row_key (row_of r)) with (row_key r). apply in_map. exact Hin.
      * unfold same_reference_rows. tauto.
    + rewrite seeded_bind_ok.
      destruct (product_create_fault (product_draws dr i)) eqn:Hf.
      * rewrite seeded_bind_failed.
        intros Hall. apply Forall_cons in Hall as [Hk _]. congruence.
      * rewrite seeded_bind_ok.
        destruct Hfresh as [Hnd Hlt].
        apply Hstep.
        -- reflexivity.
        -- unfold catalog_fresh. cbn [product_rows next_product_pk].
           rewrite map_app. cbn [map pk]. split.
           ++ apply NoDup_app. split; [exact Hnd|]. split.
              ** intros k Hk Hk'. apply list_elem_of_In in Hk.
                 rewrite List.Forall_forall in Hlt. specialize (Hlt k Hk).
                 apply list_elem_of_In in Hk'. destruct Hk' as [<- | []]. lia.
              ** apply NoDup_singleton.
           ++ apply Forall_app. split.
              ** eapply List.Forall_impl; [|exact Hlt]. intros a Ha.
                 cbv beta in Ha. lia.
              ** constructor; [lia | constructor].
        -- cbn [product_rows]. rewrite map_app. apply in_or_app. right.
           now left.
        -- unfold same_reference_rows. cbn. tauto.
        -- right. split; [exact Hget|]. cbn [product_rows].
           now rewrite map_app.
    + rewrite !seeded_bind_failed. destruct Hget as [_ Hget].
      intros Hall. apply Forall_cons in Hall as [Hk _]. lia.
Qed.

Lemma existing_loop_keys (dr : CatalogDraws) (objs : list Product) :
  forall (i : nat) (table : list Product),
    NoDup (map pk table) ->
    Forall (fun obj => In (row_key obj) (map row_key table)) objs ->
    let r := existing_loop objs i dr table in
    map row_key (fst r) = map row_key objs
    /\ map row_key (snd r) = map row_key table.
Proof.
  induction objs as [|p rest IH]; intros i table Hnd Hin; cbn [existing_loop].
  - cbn. auto.
  - apply Forall_cons in Hin as [Hp Hrest]. cbv zeta.
    pose proof (ensure_row_key p (existing_draws dr i) table) as Hk.
    pose proof (ensure_table_keys p (existing_draws dr i) table Hnd Hp) as Ht.
    set (o := _ensure_product_metrics p (existing_draws dr i) table) in *.
    specialize (IH (S i) (out_table o)). cbv zeta in IH.
    destruct (existing_loop rest (S i) dr (out_table o)) as [objs' table'].
    cbn [fst snd map] in *.
    destruct IH as (H1 & H2).
    + rewrite map_pk_row_key, Ht, <- map_pk_row_key. exact Hnd.
    + rewrite Ht. exact Hrest.
    + rewrite H1, H2, Hk, Ht. auto.
Qed.

Lemma demo_keys_distinct :
  NoDup (map snd categories_data) /\ NoDup default_brands
  /\ NoDup (map fst default_warranties)
  /\ NoDup (map entry_name products_table).
Proof.
  repeat split; apply all_distinct_NoDup; vm_compute; reflexivity.
Qed.

(** The bootstrap where fewer than 30 products exist. *)
Lemma catalog_pass (dr : CatalogDraws) (c : Catalog) :
  catalog_fresh c ->
  (length (product_rows c) < 30)%nat ->
  match _create_demo_products_if_needed dr c with
  | Seeded (ps, c1) =>
      catalog_fresh c1
      /\ fully_seeded c1
      /\ (fully_seeded c ->
          same_reference_rows c c1
          /\ map row_key (product_rows c1) = map row_key (product_rows c)
          /\ next_product_pk c1 = next_product_pk c)
      /\ (exists new,
            map row_key (product_rows c1) = map row_key (product_rows c) ++ new)
      /\ map name ps = map entry_name products_table
      /\ Forall (fun p => In (row_key p) (map row_key (product_rows c1))) ps
  | Failed e => ~ fully_seeded c
  end.
Proof.
  intros Hfresh Hlen. unfold _create_demo_products_if_needed. cbv zeta.
  replace (30 <=? length (product_rows c))%nat with false
    by (symmetry; apply Nat.leb_gt; exact Hlen).
  destruct demo_keys_distinct as (Nd1 & Nd2 & Nd3 & Nd4).
  pose proof (categories_loop_outcomes dr categories_data 0 c []) as Hcat0.
  pose proof (categories_loop_pass dr categories_data 0 c []) as Hcat.
  destruct (categories_loop categories_data 0 dr c []) as [[cats ca]|e].
  2:{ rewrite seeded_bind_failed. intros (H & _). exact (Hcat H). }
  rewrite seeded_bind_ok. destruct Hcat0 as (Hlen7 & _).
  cbn [length categories_data] in Hlen7.
  destruct Hcat as (Hda & _ & Hsame_a & Hone_a).
  destruct Hda as (Ha1 & Ha2 & Ha3 & Ha4 & Ha5 & Ha6 & Ha7).
  destruct (products_data_outcomes cats products_table)
    as (data & -> & Hn & Hp & Hpr).
  { rewrite Hlen7. repeat (constructor; [cbn; lia|]). constructor. }
  rewrite seeded_bind_ok.
  pose proof (brands_loop_pass dr default_brands 0 ca) as Hb.
  destruct (brands_loop default_brands 0 dr ca) as [cb|e].
  2:{ rewrite seeded_bind_failed. intros (_ & H & _). apply Hb.
      rewrite Ha1. exact H. }
  rewrite seeded_bind_ok.
  destruct Hb as (Hdb & _ & Hsame_b & Hone_b).
  destruct Hdb as (Hb1 & Hb2 & Hb3 & Hb4 & Hb5 & Hb6).
  pose proof (warranties_loop_pass dr default_warranties 0 cb) as Hw.
  destruct (warranties_loop default_warranties 0 dr cb) as [cw|e].
  2:{ rewrite seeded_bind_failed. intros (_ & _ & H & _). apply Hw.
      rewrite Hb2, Ha3. exact H. }
  rewrite seeded_bind_ok.
  destruct Hw as (Hdw & _ & Hsame_w & Hone_w).
  destruct Hdw as (Hw1 & Hw2 & Hw3 & Hw4 & Hw5 & Hw6).
  assert (Hprices : Forall (fun e => exists d,
                              Decimal_of_str (entry_price e) = Ok d) data).
  { pose proof products_table_prices as Ht.
    apply List.Forall_forall. intros e Hin.
    apply (in_map entry_price) in Hin. rewrite Hpr in Hin.
    apply in_map_iff in Hin as (e0 & Heq & Hin0).
    rewrite List.Forall_forall in Ht. destruct (Ht e0 Hin0) as [d Hd].
    exists d. congruence. }
  assert (Hfw : catalog_fresh cw).
  { unfold catalog_fresh. rewrite Hw4, Hw5, Hb4, Hb5, Ha5, Ha6. exact Hfresh. }
  pose proof (products_loop_pass dr data Hprices 0 cw [] Hfw) as Hl.
  rewrite Hn in Hl.
  destruct (products_loop data 0 dr cw []) as [[ps c1]|e].
  2:{ intros (_ & _ & _ & H). apply Hl. rewrite Hw4, Hb4, Ha5. exact H. }
  destruct Hl as (Hf1 & Href & (added & -> & Hnames & Hkeys) & (new & Hnew)
                  & _ & Hsame_p & Hone_p).
  destruct Href as (Hr1 & Hr2 & Hr3 & Hr4 & Hr5).
  cbn [app].
  split; [exact Hf1|]. split.
  { split; [rewrite Hr1, Hw1, Hb1; exact (Hone_a Nd1)|].
    split; [rewrite Hr2, Hw2; exact (Hone_b Nd2)|].
    split; [rewrite Hr4; exact (Hone_w Nd3)|].
    exact (Hone_p Nd4). }
  split.
  { intros (F1 & F2 & F3 & F4).
    assert (Eca : ca = c) by (apply Hsame_a; exact F1).
    subst ca.
    assert (Ecb : cb = c) by (apply Hsame_b; exact F2).
    subst cb.
    assert (Ecw : cw = c) by (apply Hsame_w; exact F3).
    subst cw.
    destruct (Hsame_p F4) as [Hk Hnx].
    split; [unfold same_reference_rows; tauto | auto]. }
  split.
  { exists new. rewrite Hnew, Hw4, Hb4, Ha5. reflexivity. }
  split; [exact Hnames | exact Hkeys].
Qed.

(** The bootstrap where 30 products or more exist. *)
Lemma catalog_existing (dr : CatalogDraws) (c : Catalog) :
  NoDup (map pk (product_rows c)) ->
  (30 <= length (product_rows c))%nat ->
  exists ps c1,
    _create_demo_products_if_needed dr c = Seeded (ps, c1)
    /\ same_reference_rows c c1
    /\ map row_key (product_rows c1) = map row_key (product_rows c)
    /\ next_product_pk c1 = next_product_pk c
    /\ map row_key ps = map row_key (take 30 (product_rows c)).
Proof.
  intros Hnd Hlen. unfold _create_demo_products_if_needed. cbv zeta.
  replace (30 <=? length (product_rows c))%nat with true
    by (symmetry; apply Nat.leb_le; exact Hlen).
  destruct (existing_loop_keys dr (map row_of (take 30 (product_rows c))) 0
              (product_rows c) Hnd) as (H1 & H2).
  { apply List.Forall_forall. intros obj Hin.
    apply in_map_iff in Hin as (r & <- & Hin). apply in_take in Hin.
    change (row_key (row_of r)) with (row_key r). apply in_map. exact Hin. }
  cbv zeta in H1, H2.
  destruct (existing_loop _ _ _ _) as [objs table]. cbn [fst snd] in H1, H2.
  exists objs, (with_product_rows table c).
  split; [reflexivity|]. split; [unfold same_reference_rows; cbn; tauto|].
  split; [exact H2|]. split; [reflexivity|].
  rewrite H1, map_map. reflexivity.
Qed.

(** X22. The product bootstrap is idempotent on what it creates: on a
    catalog whose product keys are distinct and below the key counter, a
    call that follows a call that returned also returns, whatever its
    draws and faults, and creates no category, no brand, no warranty and
    no product - the rows of the three reference tables are left as they
    were, and every product row keeps its place, its key, its name and its
    stock. *)
Theorem X22_product_catalog_idempotent (dr1 dr2 : CatalogDraws)
    (c c1 : Catalog) (products : list Product)
    (Hfresh : catalog_fresh c)
    (Hrun : _create_demo_products_if_needed dr1 c = Seeded (products, c1)) :
  exists products2 c2,
    _create_demo_products_if_needed dr2 c1 = Seeded (products2, c2)
    /\ same_reference_rows c1 c2
    /\ map row_key (product_rows c2) = map row_key (product_rows c1)
    /\ next_product_pk c2 = next_product_pk c1.
Proof.
  assert (Hc1 : catalog_fresh c1
                /\ ((30 <= length (product_rows c1))%nat \/ fully_seeded c1)).
  { destruct (Nat.le_gt_cases 30 (length (product_rows c))) as [Hlen | Hlen].
    - destruct (catalog_existing dr1 c (proj1 Hfresh) Hlen)
        as (ps & c' & Hrun' & _ & Hk & Hn & _).
      rewrite Hrun in Hrun'. injection Hrun' as -> ->.
      split; [eapply catalog_fresh_keys; eauto|]. left.
      apply (f_equal (@length (Z * string * Z))) in Hk.
      rewrite !length_map in Hk. lia.
    - pose proof (catalog_pass dr1 c Hfresh Hlen) as H. rewrite Hrun in H.
      destruct H as (Hf & Hs & _). auto. }
  destruct Hc1 as [Hf1 Hc1].
  destruct (Nat.le_gt_cases 30 (length (product_rows c1))) as [Hlen | Hlen].
  - destruct (catalog_existing dr2 c1 (proj1 Hf1) Hlen)
      as (ps & c2 & Hrun2 & Href & Hk & Hn & _).
    exists ps, c2. auto.
  - destruct Hc1 as [Hc1 | Hseeded]; [lia|].
    pose proof (catalog_pass dr2 c1 Hf1 Hlen) as H.
    destruct (_create_demo_products_if_needed dr2 c1) as [[ps c2]|e].
    + destruct H as (_ & _ & Hsame & _).
      destruct (Hsame Hseeded) as (Href & Hk & Hn).
      exists ps, c2. auto.
    + contradiction.
Qed.

Lemma X22_product_catalog_idempotent_witness :
  catalog_fresh no_catalog
  /\ exists products c1 products2 c2,
       _create_demo_products_if_needed plain_catalog_draws no_catalog
       = Seeded (products, c1)
       /\ _create_demo_products_if_needed plain_catalog_draws c1
          = Seeded (products2, c2)
       /\ same_reference_rows c1 c2.
Proof.
  assert (H1 : catalog_fresh no_catalog) by (split; constructor).
  split; [exact H1|].
  destruct (_create_demo_products_if_needed plain_catalog_draws no_catalog)
    as [[ps c1]|e] eqn:E; [|vm_compute in E; discriminate E].
  destruct (X22_product_catalog_idempotent plain_catalog_draws
              plain_catalog_draws no_catalog c1 ps H1 E)
    as (ps2 & c2 & H2 & H3 & _).
  exists ps, c1, ps2, c2. auto.
Defined.

Lemma get_row_by_key (p : Product) (rows : list Product) :
  NoDup (map pk rows) ->
  In (row_key p) (map row_key rows) ->
  exists row,
    get_row (pk p) rows = Some row /\ row_key row = row_key p.
Proof.
  induction rows as [|r rows IH]; intros Hnd Hin; [destruct Hin|].
  cbn [map] in Hnd. apply NoDup_cons in Hnd as [Hnotin Hnd].
  cbn [get_row].
  destruct (Z.eqb_spec (pk r) (pk p)) as [E | E].
  - exists r. split; [reflexivity|].
    destruct Hin as [Hin | Hin]; [exact Hin|].
    exfalso. apply Hnotin. rewrite E. apply list_elem_of_In.
    apply in_map_iff in Hin as (q & Hq & Hin).
    apply in_map_iff. exists q. split; [|exact Hin].
    unfold row_key in Hq. congruence.
  - apply IH; [exact Hnd|].
    destruct Hin as [Hin | Hin]; [|exact Hin].
    exfalso. apply E. unfold row_key in Hin. congruence.
Qed.

Lemma distinct_keys_by_names (rows ps : list Product) :
  NoDup (map pk rows) ->
  Forall (fun p => In (row_key p) (map row_key rows)) ps ->
  NoDup (map name ps) -> NoDup (map pk ps).
Proof.
  intros Hnd. induction ps as [|p ps IH]; intros Hin Hnames; cbn;
    [constructor|].
  apply Forall_cons in Hin as [Hp Hin]. cbn in Hnames.
  apply NoDup_cons in Hnames as [Hnotin Hnames].
  apply NoDup_cons. split; [|auto].
  intros Hk. apply list_elem_of_In in Hk.
  apply in_map_iff in Hk as (q & Hq & Hqin).
  apply Hnotin. apply list_elem_of_In. apply in_map_iff.
  exists q. split; [|exact Hqin].
  rewrite List.Forall_forall in Hin. specialize (Hin q Hqin).
  destruct (get_row_by_key p rows Hnd Hp) as (r1 & Hg1 & Hk1).
  destruct (get_row_by_key q rows Hnd Hin) as (r2 & Hg2 & Hk2).
  rewrite Hq in Hg2. rewrite Hg1 in Hg2. injection Hg2 as ->.
  unfold row_key in Hk1, Hk2. congruence.
Qed.

(** X23. The products that the bootstrap returns are in step with the
    table it leaves: on a catalog whose product keys are distinct and
    below the key counter, they have distinct keys, and each of them has
    its row, of the same name and the same stock. *)
Theorem X23_catalog_in_step_with_table (dr : CatalogDraws) (c c1 : Catalog)
    (products : list Product)
    (Hfresh : catalog_fresh c)
    (Hrun : _create_demo_products_if_needed dr c = Seeded (products, c1)) :
  NoDup (map pk products)
  /\ Forall (fun p => exists row,
                        get_row (pk p) (product_rows c1) = Some row
                        /\ name row = name p /\ stock row = stock p)
       products.
Proof.
  assert (H : catalog_fresh c1
              /\ Forall (fun p => In (row_key p) (map row_key (product_rows c1)))
                   products
              /\ NoDup (map pk products)).
  { destruct (Nat.le_gt_cases 30 (length (product_rows c))) as [Hlen | Hlen].
    - destruct (catalog_existing dr c (proj1 Hfresh) Hlen)
        as (ps & c' & Hrun' & _ & Hk & Hn & Hps).
      rewrite Hrun in Hrun'. injection Hrun' as -> ->.
      split; [eapply catalog_fresh_keys; eauto|]. split.
      + apply List.Forall_forall. intros p Hin.
        apply (in_map row_key) in Hin. rewrite Hps in Hin. rewrite Hk.
        rewrite <- firstn_map in Hin. apply in_take in Hin. exact Hin.
      + rewrite map_pk_row_key, Hps, <- map_pk_row_key, <- firstn_map.
        destruct Hfresh as [Hnd _].
        rewrite <- (firstn_skipn 30 (map pk (product_rows c))) in Hnd.
        apply NoDup_app in Hnd. tauto.
    - pose proof (catalog_pass dr c Hfresh Hlen) as H. rewrite Hrun in H.
      destruct H as (Hf & _ & _ & _ & Hnames & Hkeys).
      split; [exact Hf|]. split; [exact Hkeys|].
      apply (distinct_keys_by_names (product_rows c1)); [exact (proj1 Hf)| |].
      + exact Hkeys.
      + rewrite Hnames. exact (proj2 (proj2 (proj2 demo_keys_distinct))). }
  destruct H as (Hf & Hkeys & Hnd). split; [exact Hnd|].
  eapply List.Forall_impl; [|exact Hkeys].
  intros p Hp.
  destruct (get_row_by_key p (product_rows c1) (proj1 Hf) Hp) as (row & Hg & Hk).
  exists row. unfold row_key in Hk. split; [exact Hg|].
  split; congruence.
Qed.

Lemma X23_catalog_in_step_with_table_witness :
  catalog_fresh no_catalog
  /\ exists products c1,
       _create_demo_products_if_needed plain_catalog_draws no_catalog
       = Seeded (products, c1)
       /\ NoDup (map pk products).
Proof.
  assert (H1 : catalog_fresh no_catalog) by (split; constructor).
  split; [exact H1|].
  destruct (_create_demo_products_if_needed plain_catalog_draws no_catalog)
    as [[ps c1]|e] eqn:E; [|vm_compute in E; discriminate E].
  exists ps, c1. split; [reflexivity|].
  exact (proj1 (X23_catalog_in_step_with_table plain_catalog_draws no_catalog
                  c1 ps H1 E)).
Defined.
